(** * FIFA player recommender: a shallow embedding and its verified properties

    The development follows the Python sources
    [src/data_processing.py] (class [DataProcessor]) and [src/model.py]
    (class [PlayerRecommender]), with the recommendation endpoint of
    [app/main.py] and the position colours of [src/utils.py] that build on
    them.

    Modelling conventions.
    - Python [float] and numpy [float64] values are exact real numbers ([R]);
      rounding, infinities and NaN are outside the model.  Properties that
      rounding can break in the last place (a similarity of at most 1, a
      diagonal of exactly 1) are not stated.
    - Python [int] and numpy [int64] values are [Z]; where the code takes
      a difference of 64-bit values, statements are made for values below
      [2^62] in magnitude, on which it does not wrap around.
    - Python [str] values are [string]s of ASCII characters; [lower] and
      [upper] act on the letters A-Z and a-z.
    - A pandas DataFrame is the list of its rows in positional order; after
      [reset_index(drop=True)] the index label of a row is its position.
    - A numpy 2-d array is the list of its rows.
    - A call either returns, raises, or (for regular expressions only) falls
      outside the fragment of the [re] syntax that is modelled.
    - The methods of [PlayerRecommender] are given twice: as functions of
      the contents of the recommender (module [PlayerRecommender]), on
      which results are stated, and as computations on a store of Python
      objects (module [Store]), on which the effects are stated.  The two
      are proved to agree. *)

From Stdlib Require Import Reals Lra Lia ZArith List String Ascii Bool.
From Stdlib Require Import Permutation Sorted.
From stdpp Require Import gmap strings list.

Local Open Scope string_scope.

(** ** Outcomes of Python calls *)

Inductive exn : Set :=
| ValueError   (* numpy reduction of an empty array, sklearn input validation *)
| IndexError   (* positional access out of bounds *)
| TypeError.   (* attribute access on None *)

Inductive outcome (A : Type) : Type :=
| Returns (a : A)
| Raises (e : exn)
| OutsideFragment.   (* a regular expression this development does not interpret *)

Arguments Returns {A} a.
Arguments Raises {A} e.
Arguments OutsideFragment {A}.

#[global] Instance outcome_ret : MRet outcome := fun A a => Returns a.
#[global] Instance outcome_bind : MBind outcome := fun A B f m =>
  match m with
  | Returns a => f a
  | Raises e => Raises e
  | OutsideFragment => OutsideFragment
  end.
#[global] Instance outcome_fmap : FMap outcome := fun A B f m =>
  match m with
  | Returns a => Returns (f a)
  | Raises e => Raises e
  | OutsideFragment => OutsideFragment
  end.

(** ** Python strings *)

Module PyStr.

(** [str.lower] and [str.upper] on one ASCII character. *)
Definition ascii_lower (c : ascii) : ascii :=
  let n := nat_of_ascii c in
  if (65 <=? n)%nat && (n <=? 90)%nat then ascii_of_nat (n + 32) else c.

Definition ascii_upper (c : ascii) : ascii :=
  let n := nat_of_ascii c in
  if (97 <=? n)%nat && (n <=? 122)%nat then ascii_of_nat (n - 32) else c.

Fixpoint lower (s : string) : string :=
  match s with
  | EmptyString => EmptyString
  | String c s' => String (ascii_lower c) (lower s')
  end.

Fixpoint upper (s : string) : string :=
  match s with
  | EmptyString => EmptyString
  | String c s' => String (ascii_upper c) (upper s')
  end.

(** Truth value of a string in a condition: [if s:]. *)
Definition truthy (s : string) : bool :=
  match s with EmptyString => false | String _ _ => true end.

(** Truth value of an optional string argument ([None] is false). *)
Definition supplied (o : option string) : bool :=
  match o with None => false | Some s => truthy s end.

(** [pat in s]: plain substring test. *)
Fixpoint str_in (pat s : string) : bool :=
  String.prefix pat s ||
  match s with
  | EmptyString => false
  | String _ s' => str_in pat s'
  end.

(** [any(p in s for p in pats)] *)
Definition any_in (pats : list string) (s : string) : bool :=
  existsb (fun p => str_in p s) pats.

(** *** Regular expressions: the fragment of literals and [.]

    pandas' [Series.str.contains(pat, case=True, flags=0, na=None,
    regex=True)] compiles [pat] as a regular expression and keeps the rows
    on which [re.search] succeeds.  Patterns made of ordinary characters
    and the wildcard [.] are interpreted here; a pattern that uses any
    other special character of the [re] syntax is outside the fragment. *)

Inductive re_atom : Set :=
| ReChar (c : ascii)   (* an ordinary character matches itself *)
| ReAny.               (* [.] matches any character except a newline *)

Definition re_special (c : ascii) : bool :=
  existsb (Ascii.eqb c)
    (list_ascii_of_string "^$*+?{}[]\|()").

Definition newline : ascii := "010"%char.

Fixpoint re_compile (pat : string) : option (list re_atom) :=
  match pat with
  | EmptyString => Some []
  | String c pat' =>
      if Ascii.eqb c "."%char then cons ReAny <$> re_compile pat'
      else if re_special c then None
      else cons (ReChar c) <$> re_compile pat'
  end.

(** [ignorecase] is the flag [re.IGNORECASE]. *)
Definition re_atom_matches (ignorecase : bool) (a : re_atom) (c : ascii) : bool :=
  match a with
  | ReAny => negb (Ascii.eqb c newline)
  | ReChar x =>
      if ignorecase then Ascii.eqb (ascii_lower x) (ascii_lower c)
      else Ascii.eqb x c
  end.

(** [re.match]: the atoms match a prefix of [s]. *)
Fixpoint re_match (ignorecase : bool) (atoms : list re_atom) (s : string) : bool :=
  match atoms with
  | [] => true
  | a :: atoms' =>
      match s with
      | EmptyString => false
      | String c s' => re_atom_matches ignorecase a c && re_match ignorecase atoms' s'
      end
  end.

(** [re.search(...) is not None]: the atoms match at some position of [s]. *)
Fixpoint re_search (ignorecase : bool) (atoms : list re_atom) (s : string) : bool :=
  re_match ignorecase atoms s ||
  match s with
  | EmptyString => false
  | String _ s' => re_search ignorecase atoms s'
  end.

(** [Series.str.contains(pat, case=case, na=False)] on a column of
    strings: the pattern is compiled once, then searched in every row. *)
Definition str_contains (pat : string) (case : bool) (col : list string)
  : outcome (list bool) :=
  match re_compile pat with
  | None => OutsideFragment
  | Some atoms => Returns (map (re_search (negb case) atoms) col)
  end.

(** A pattern without any special character: [re.escape] leaves it as it is. *)
Definition re_literal (pat : string) : bool :=
  forallb (fun c => negb (Ascii.eqb c "."%char) && negb (re_special c))
    (list_ascii_of_string pat).

End PyStr.

(** ** numpy arrays of floats *)

Module Numpy.

Local Open Scope R_scope.

(** [a.min()] and [a.max()] of a 1-d array; an empty array has no minimum. *)
Definition amin (a : list R) : outcome R :=
  match a with
  | [] => Raises ValueError
  | x :: xs => Returns (fold_left Rmin xs x)
  end.

Definition amax (a : list R) : outcome R :=
  match a with
  | [] => Raises ValueError
  | x :: xs => Returns (fold_left Rmax xs x)
  end.

(** [a.min(axis=0)] and [a.max(axis=0)] of a 2-d array: the reduction runs
    down the rows, column by column. *)
Definition amin_axis0 (a : list (list R)) : outcome (list R) :=
  match a with
  | [] => Raises ValueError
  | r :: rs => Returns (fold_left (zip_with Rmin) rs r)
  end.

Definition amax_axis0 (a : list (list R)) : outcome (list R) :=
  match a with
  | [] => Raises ValueError
  | r :: rs => Returns (fold_left (zip_with Rmax) rs r)
  end.

(** The shape of a list of rows, when it is rectangular. *)
Definition shape (a : list (list R)) : option (nat * nat) :=
  match a with
  | [] => Some (0, 0)%nat
  | r :: rs =>
      if forallb (fun r' => (length r' =? length r)%nat) rs
      then Some (length a, length r)
      else None
  end.

(** The [j]-th column of a 2-d array. *)
Definition column (j : nat) (a : list (list R)) : list R :=
  omap (fun row => row !! j) a.

(** [lo] is the least, [hi] the greatest value of a column. *)
Definition is_min_of (lo : R) (col : list R) : Prop :=
  lo ∈ col /\ Forall (fun x => lo <= x) col.

Definition is_max_of (hi : R) (col : list R) : Prop :=
  hi ∈ col /\ Forall (fun x => x <= hi) col.

(** [a[i]] for a non-negative position [i]. *)
Definition getitem {A} (a : list A) (i : nat) : outcome A :=
  match a !! i with
  | Some x => Returns x
  | None => Raises IndexError
  end.

End Numpy.

(** ** scikit-learn: [sklearn.metrics.pairwise.cosine_similarity] *)

Module Sklearn.

Local Open Scope R_scope.

(** [np.finfo(np.float64).eps] *)
Definition eps : R := / 2 ^ 52.

Definition squared_norm (row : list R) : R :=
  fold_right Rplus 0 (map (fun x => x * x) row).

(** [row_norms(X)]: the Euclidean norm of every row. *)
Definition row_norms (X : list (list R)) : list R :=
  map (fun row => sqrt (squared_norm row)) X.

(** [_handle_zeros_in_scale]: norms below [10 * eps] are replaced by 1, so
    that a zero row is left as it is. *)
Definition handle_zeros_in_scale (scale : list R) : list R :=
  map (fun s => if Rlt_dec s (10 * eps) then 1 else s) scale.

(** [normalize(X)]: every row divided by its (guarded) norm. *)
Definition normalize (X : list (list R)) : list (list R) :=
  zip_with (fun row n => map (fun x => x / n) row)
    X (handle_zeros_in_scale (row_norms X)).

Definition dot (u v : list R) : R :=
  fold_right Rplus 0 (zip_with Rmult u v).

(** [check_array]: a 2-d array with at least one sample and one feature. *)
Definition check_array (X : list (list R)) : outcome (nat * nat) :=
  match Numpy.shape X with
  | Some (S n, S d) => Returns (S n, S d)
  | _ => Raises ValueError
  end.

(** [check_pairwise_arrays]: both arrays are valid and have the same
    number of features. *)
Definition check_pairwise_arrays (X Y : list (list R)) : outcome unit :=
  sx ← check_array X;
  sy ← check_array Y;
  if (snd sx =? snd sy)%nat then Returns tt else Raises ValueError.

(** [cosine_similarity(X, Y)]: the matrix of dot products of the
    normalized rows of [X] with the normalized rows of [Y]. *)
Definition cosine_similarity (X Y : list (list R)) : outcome (list (list R)) :=
  _ ← check_pairwise_arrays X Y;
  let X_normalized := normalize X in
  let Y_normalized := normalize Y in
  Returns (map (fun x => map (fun y => dot x y) Y_normalized) X_normalized).

End Sklearn.

(** ** The player table *)

(** One row of the cleaned DataFrame: the columns the recommender reads,
    the values of the feature columns in the order of [FEATURE_COLUMNS],
    and the derived column [Position_Category]. *)
Record Player : Type := mkPlayer {
  Name : string;
  OVR : Z;
  Position : string;
  Age : Z;
  Nation : string;
  League : string;
  Team : string;
  Features : list R;
  Position_Category : string
}.

(** ** [class DataProcessor] *)

Module DataProcessor.

Local Open Scope R_scope.

Definition FEATURE_COLUMNS : list string :=
  [ "PAC"; "SHO"; "PAS"; "DRI"; "DEF"; "PHY";
    "Acceleration"; "Sprint Speed"; "Positioning"; "Finishing";
    "Shot Power"; "Long Shots"; "Volleys"; "Penalties";
    "Vision"; "Crossing"; "Free Kick Accuracy"; "Short Passing";
    "Long Passing"; "Curve"; "Dribbling"; "Agility"; "Balance";
    "Reactions"; "Ball Control"; "Composure"; "Interceptions";
    "Heading Accuracy"; "Def Awareness"; "Standing Tackle";
    "Sliding Tackle"; "Jumping"; "Stamina"; "Strength"; "Aggression" ].

(** [extract_features]: [df[FEATURE_COLUMNS].values] *)
Definition extract_features (df : list Player) : list (list R) :=
  map Features df.

(** [normalize_features]: min-max scaling, column by column; a column of
    range zero is divided by 1 instead. *)
Definition normalize_features (features : list (list R)) : outcome (list (list R)) :=
  min_vals ← Numpy.amin_axis0 features;
  max_vals ← Numpy.amax_axis0 features;
  let range_vals := zip_with Rminus max_vals min_vals in
  let range_vals := map (fun r => if Req_dec_T r 0 then 1 else r) range_vals in
  Returns (map (fun row => zip_with Rdiv (zip_with Rminus row min_vals) range_vals)
             features).

(** [get_position_category] *)
Definition get_position_category (position : string) : string :=
  let position := PyStr.upper position in
  if existsb (String.eqb position) ["GK"] then "Goalkeeper"
  else if PyStr.any_in ["CB"; "LB"; "RB"; "LWB"; "RWB"] position then "Defender"
  else if PyStr.any_in ["CDM"; "CM"; "CAM"; "LM"; "RM"] position then "Midfielder"
  else if PyStr.any_in ["ST"; "CF"; "LW"; "RW"; "LF"; "RF"] position then "Forward"
  else "Unknown".

End DataProcessor.

(** ** Python lists and pandas frames *)

Module Py.

(** [l[:n]] for a list, and [df.head(n)] for a frame: the first [n]
    elements, or all but the last [-n] when [n] is negative. *)
Definition slice_to {A} (n : Z) (l : list A) : list A :=
  if (0 <=? n)%Z then take (Z.to_nat n) l
  else take (length l - Z.to_nat (- n)) l.

(** [enumerate(l)] *)
Definition enumerate {A} (l : list A) : list (nat * A) :=
  zip (seq 0 (length l)) l.

(** [df[mask]]: the rows at which the boolean mask holds. *)
Fixpoint boolean_index {A} (mask : list bool) (df : list A) : list A :=
  match mask, df with
  | b :: mask', x :: df' =>
      if b then x :: boolean_index mask' df' else boolean_index mask' df'
  | _, _ => []
  end.

(** [df[mask].index[0]] when the mask selects a row: the position of the
    first selected row. *)
Fixpoint first_index (mask : list bool) : option nat :=
  match mask with
  | [] => None
  | b :: mask' => if b then Some 0%nat else S <$> first_index mask'
  end.

(** [df.iloc[i]] for a non-negative position [i]. *)
Definition iloc {A} (df : list A) (i : nat) : outcome A :=
  match df !! i with
  | Some x => Returns x
  | None => Raises IndexError
  end.

(** [candidates.sort(key=lambda x: x[1], reverse=True)]: the list sort is
    stable, also with [reverse=True], so elements of equal score keep
    their order. *)
Fixpoint insert_by_score {A} (x : A * R) (l : list (A * R)) : list (A * R) :=
  match l with
  | [] => [x]
  | y :: l' =>
      if Rlt_dec (snd x) (snd y) then y :: insert_by_score x l' else x :: l
  end.

Definition sort_by_score_desc {A} (l : list (A * R)) : list (A * R) :=
  foldr insert_by_score [] l.

End Py.

(** [df.sort_values('OVR', ascending=False)]: pandas sorts with numpy's
    quicksort by default, which is not stable, so the order of rows with
    equal rating is not determined by the call.  The sort is a parameter of
    the queries that use it; its contract is [SortValuesSpec]. *)
Class SortValues := sort_values_OVR_desc : list Player -> list Player.

Class SortValuesSpec `{SortValues} : Prop := {
  sort_values_perm : forall df, Permutation (sort_values_OVR_desc df) df;
  sort_values_sorted :
    forall df, Sorted (fun p q => (OVR q <= OVR p)%Z) (sort_values_OVR_desc df)
}.

(** One sort that meets the contract: insertion from the right. *)
Fixpoint insert_by_OVR (p : Player) (df : list Player) : list Player :=
  match df with
  | [] => [p]
  | q :: df' => if (OVR p <? OVR q)%Z then q :: insert_by_OVR p df' else p :: df
  end.

Definition insertion_sort_values : SortValues := foldr insert_by_OVR [].

(** ** [class PlayerRecommender] *)

(** The attributes of a recommender after [fit] or [load]. *)
Record Recommender : Type := mkRecommender {
  data : list Player;
  normalized_features : list (list R);
  feature_names : list string;
  similarity_matrix : list (list R)
}.

(** An entry of the list returned by [recommend_similar]: the row as a
    dict, with the key [similarity_score] added. *)
Record Recommendation : Type := mkRecommendation {
  player_data : Player;
  similarity_score : R
}.

(** An entry of the list returned by [recommend_by_attributes]: the row as
    a dict, with the key [match_score] added. *)
Record AttributeMatch : Type := mkAttributeMatch {
  matched_player : Player;
  match_score : R
}.

Module PlayerRecommender.

Local Open Scope R_scope.

(** [fit] *)
Definition fit (data : list Player) (normalized_features : list (list R))
    (feature_names : list string) : outcome Recommender :=
  similarity_matrix ← Sklearn.cosine_similarity normalized_features normalized_features;
  Returns (mkRecommender data normalized_features feature_names similarity_matrix).

(** [_find_player_index] *)
Definition _find_player_index (self : Recommender) (player_name : string)
  : outcome (option nat) :=
  let player_name_lower := PyStr.lower player_name in
  let names_lower := map (fun p => PyStr.lower (Name p)) (data self) in
  let matches := map (fun n => String.eqb n player_name_lower) names_lower in
  if forallb negb matches then
    (* Try partial match *)
    matches ← PyStr.str_contains player_name_lower true names_lower;
    Returns (Py.first_index matches)
  else Returns (Py.first_index matches).

(** The candidate loop of [recommend_similar], over
    [enumerate(similarity_scores)]. *)
Fixpoint similar_candidates (self : Recommender) (player_idx : nat)
    (player_position : string) (player_age : Z)
    (same_position : bool) (max_age_diff : option Z)
    (scores : list (nat * R)) : outcome (list (nat * R)) :=
  match scores with
  | [] => Returns []
  | (idx, score) :: scores' =>
      let continue :=
        similar_candidates self player_idx player_position player_age
          same_position max_age_diff scores' in
      if (idx =? player_idx)%nat then continue   (* Skip the player itself *)
      else
        candidate ← Py.iloc (data self) idx;
        if same_position && PyStr.truthy player_position
           && negb (String.eqb (Position_Category candidate) player_position)
        then continue
        else if match max_age_diff with
                | Some d => (d <? Z.abs (Age candidate - player_age))%Z
                | None => false
                end
        then continue
        else rest ← continue; Returns ((idx, score) :: rest)
  end.

(** [recommend_similar], up to the slice [candidates[:n_recommendations]]:
    the positions and scores of the rows to return. *)
Definition similar_rows (self : Recommender) (player_name : string)
    (n_recommendations : Z) (same_position : bool) (max_age_diff : option Z)
  : outcome (list (nat * R)) :=
  player_idx ← _find_player_index self player_name;
  match player_idx with
  | None => Returns []
  | Some player_idx =>
      similarity_scores ← Numpy.getitem (similarity_matrix self) player_idx;
      player_info ← Py.iloc (data self) player_idx;
      let player_position := Position_Category player_info in
      let player_age := Age player_info in
      candidates ← similar_candidates self player_idx player_position player_age
                      same_position max_age_diff (Py.enumerate similarity_scores);
      let candidates := Py.sort_by_score_desc candidates in
      Returns (Py.slice_to n_recommendations candidates)
  end.

(** [recommend_similar]: the selected rows as dicts, each with its
    [similarity_score]. *)
Definition recommend_similar (self : Recommender) (player_name : string)
    (n_recommendations : Z) (same_position : bool) (max_age_diff : option Z)
  : outcome (list Recommendation) :=
  rows ← similar_rows self player_name n_recommendations same_position max_age_diff;
  mapM (fun '(idx, score) =>
          player_data ← Py.iloc (data self) idx;
          Returns (mkRecommendation player_data score))
       rows.

(** The target vector of [recommend_by_attributes]:
    [target_attributes.get(feature, 50)] for every stored feature name. *)
Definition target_vector (self : Recommender) (target_attributes : gmap string R)
  : list R :=
  map (fun feature => default 50 (target_attributes !! feature)) (feature_names self).

(** Its normalization:
    [(v - v.min()) / (v.max() - v.min() + 1e-8)]. *)
Definition normalize_target (v : list R) : outcome (list R) :=
  lo ← Numpy.amin v;
  hi ← Numpy.amax v;
  Returns (map (fun x => (x - lo) / (hi - lo + 1e-8)) v).

(** The candidate loop of [recommend_by_attributes]. *)
Fixpoint attribute_candidates (self : Recommender) (position : option string)
    (scores : list (nat * R)) : outcome (list (nat * R)) :=
  match scores with
  | [] => Returns []
  | (idx, score) :: scores' =>
      candidate ← Py.iloc (data self) idx;
      if match position with
         | Some pos =>
             PyStr.truthy pos && negb (String.eqb (Position_Category candidate) pos)
         | None => false
         end
      then attribute_candidates self position scores'
      else rest ← attribute_candidates self position scores';
           Returns ((idx, score) :: rest)
  end.

(** [recommend_by_attributes], up to the slice
    [candidates[:n_recommendations]]. *)
Definition attribute_rows (self : Recommender)
    (target_attributes : gmap string R) (n_recommendations : Z)
    (position : option string) : outcome (list (nat * R)) :=
  target ← normalize_target (target_vector self target_attributes);
  K ← Sklearn.cosine_similarity [target] (normalized_features self);
  similarities ← Numpy.getitem K 0;
  candidates ← attribute_candidates self position (Py.enumerate similarities);
  let candidates := Py.sort_by_score_desc candidates in
  Returns (Py.slice_to n_recommendations candidates).

(** [recommend_by_attributes]: the selected rows as dicts, each with its
    [match_score]. *)
Definition recommend_by_attributes (self : Recommender)
    (target_attributes : gmap string R) (n_recommendations : Z)
    (position : option string) : outcome (list AttributeMatch) :=
  rows ← attribute_rows self target_attributes n_recommendations position;
  mapM (fun '(idx, score) =>
          player_data ← Py.iloc (data self) idx;
          Returns (mkAttributeMatch player_data score))
       rows.

(** One [df = df[df[col].str.contains(pat, case=..., na=False)]] step,
    taken only when the argument is supplied and not empty. *)
Definition filter_contains (arg : option string) (prepare : string -> string)
    (case : bool) (col : Player -> string) (df : list Player)
  : outcome (list Player) :=
  match arg with
  | Some pat =>
      if PyStr.truthy pat then
        mask ← PyStr.str_contains (prepare pat) case (map col df);
        Returns (Py.boolean_index mask df)
      else Returns df
  | None => Returns df
  end.

(** One [df = df[df['OVR'] >= bound]] (or [<=]) step, taken when the
    bound is not [None]. *)
Definition filter_overall (bound : option Z) (keep : Z -> Z -> bool)
    (df : list Player) : list Player :=
  match bound with
  | Some b => Py.boolean_index (map (fun p => keep (OVR p) b) df) df
  | None => df
  end.

(** [search_players] *)
Definition search_players `{SortValues} (self : Recommender)
    (query position : option string) (min_overall max_overall : option Z)
    (nation league team : option string) (limit : Z) : outcome (list Player) :=
  let df := data self in
  df ← filter_contains query PyStr.lower true
         (fun p => PyStr.lower (Name p)) df;
  df ← filter_contains position (fun pat => pat) false Position df;
  let df := filter_overall min_overall Z.geb df in
  let df := filter_overall max_overall Z.leb df in
  df ← filter_contains nation (fun pat => pat) false Nation df;
  df ← filter_contains league (fun pat => pat) false League df;
  df ← filter_contains team (fun pat => pat) false Team df;
  let df := sort_values_OVR_desc df in
  let df := Py.slice_to limit df in
  Returns df.

(** [get_player_details]; [None] is Python's [None]. *)
Definition get_player_details (self : Recommender) (player_name : string)
  : outcome (option Player) :=
  player_idx ← _find_player_index self player_name;
  match player_idx with
  | None => Returns None
  | Some player_idx => Some <$> Py.iloc (data self) player_idx
  end.

(** [get_top_players] *)
Definition get_top_players `{SortValues} (self : Recommender) (n : Z)
    (position : option string) : list Player :=
  let df := data self in
  let df :=
    match position with
    | Some pos =>
        if PyStr.truthy pos
        then Py.boolean_index
               (map (fun p => String.eqb (Position_Category p) pos) df) df
        else df
    | None => df
    end in
  Py.slice_to n (sort_values_OVR_desc df).

End PlayerRecommender.

(** ** The training pipeline *)

Module Training.

(** [df['Position_Category'] = df['Position'].apply(get_position_category)]
    on one row. *)
Definition with_position_category (p : Player) : Player :=
  mkPlayer (Name p) (OVR p) (Position p) (Age p) (Nation p) (League p) (Team p)
    (Features p) (DataProcessor.get_position_category (Position p)).

(** The dict returned by [process_for_training]. *)
Record Processed : Type := mkProcessed {
  processed_data : list Player;
  processed_features : list (list R);
  processed_normalized_features : list (list R);
  processed_feature_names : list string
}.

(** [process_for_training], from the frame that [clean_data] returns. *)
Definition process_for_training (df : list Player) : outcome Processed :=
  let df := map with_position_category df in
  let features := DataProcessor.extract_features df in
  normalized_features ← DataProcessor.normalize_features features;
  Returns (mkProcessed df features normalized_features DataProcessor.FEATURE_COLUMNS).

(** The call [model.fit(data=processed['data'],
    normalized_features=processed['normalized_features'],
    feature_names=processed['feature_names'])] that [train_model] makes on
    the result of [process_for_training] (train.py, lines 64 and 73-78).
    The rest of [train_model] (the file checks, [save], the printed
    self-test and the [except] clause) is not part of this development. *)
Definition fit_processed (processed : Processed) : outcome Recommender :=
  PlayerRecommender.fit (processed_data processed)
    (processed_normalized_features processed)
    (processed_feature_names processed).

End Training.

(** ** Specification-level notions *)

(** The lookup rule in the words of the specification: a case-insensitive
    exact match first, a case-insensitive substring match otherwise, and in
    both cases the first matching row. *)
Definition lookup_by_name (rows : list Player) (player_name : string) : option nat :=
  let wanted := PyStr.lower player_name in
  match Py.first_index
          (map (fun p => String.eqb (PyStr.lower (Name p)) wanted) rows) with
  | Some i => Some i
  | None =>
      Py.first_index (map (fun p => PyStr.str_in wanted (PyStr.lower (Name p))) rows)
  end.

(** Row [i] is the first row of the table that passes the test [P]. *)
Definition first_row (P : Player -> bool) (rows : list Player) (i : nat) : Prop :=
  (exists p, rows !! i = Some p /\ P p = true) /\
  forall k q, (k < i)%nat -> rows !! k = Some q -> P q = false.

(** The two tests of the lookup: equal to the query, or containing the
    query, both after lowering. *)
Definition name_equals (player_name : string) (p : Player) : bool :=
  String.eqb (PyStr.lower (Name p)) (PyStr.lower player_name).

Definition name_contains (player_name : string) (p : Player) : bool :=
  PyStr.str_in (PyStr.lower player_name) (PyStr.lower (Name p)).

(** A recommender produced by [fit] from a table and a feature matrix with
    one row per player and one column per feature name, as
    [process_for_training] provides them (lemma [fit_processed_fitted]). *)
Definition fitted (self : Recommender) : Prop :=
  PlayerRecommender.fit (data self) (normalized_features self) (feature_names self)
  = Returns self /\
  length (normalized_features self) = length (data self) /\
  Forall (fun row => length row = length (feature_names self)) (normalized_features self).

(** The column [Position_Category] was derived by [get_position_category],
    as [process_for_training] does. *)
Definition categorised (df : list Player) : Prop :=
  Forall (fun p => Position_Category p
                   = DataProcessor.get_position_category (Position p)) df.

(** What the candidate loop keeps. *)
Definition kept (self : Recommender) (player_idx : nat) (player_position : string)
    (player_age : Z) (same_position : bool) (max_age_diff : option Z)
    (row : nat * R) : Prop :=
  fst row <> player_idx /\
  exists candidate,
    data self !! fst row = Some candidate /\
    (same_position = true -> PyStr.truthy player_position = true ->
     Position_Category candidate = player_position) /\
    (forall d, max_age_diff = Some d -> (Z.abs (Age candidate - player_age) <= d)%Z).


(** A row divided by its guarded norm, as [normalize] leaves it, and the
    cosine similarity of two rows. *)
Definition unit_row (row : list R) : list R :=
  let n := sqrt (Sklearn.squared_norm row) in
  map (fun x => x / (if Rlt_dec n (10 * Sklearn.eps) then 1 else n))%R row.

Definition cosine (u v : list R) : R := Sklearn.dot (unit_row u) (unit_row v).

(** The position filter of [recommend_by_attributes] on one candidate. *)
Definition position_ok (position : option string) (candidate : Player) : bool :=
  match position with
  | Some pos =>
      negb (PyStr.truthy pos && negb (String.eqb (Position_Category candidate) pos))
  | None => true
  end.

(** The rows selected by [recommend_by_attributes] for a normalized target
    [w]: the enumerated similarities, filtered, sorted and sliced. *)
Definition selected_by_attributes (self : Recommender) (w : list R)
    (n_recommendations : Z) (position : option string) : list (nat * R) :=
  Py.slice_to n_recommendations
    (Py.sort_by_score_desc
       (List.filter
          (fun row => from_option (position_ok position) false (data self !! fst row))
          (Py.enumerate (map (cosine w) (normalized_features self))))).


(** Text within ASCII.  On such text Python's [str.lower], [str.upper] and
    the case-insensitive matching of [re] are the functions of module
    [PyStr]; on other text they follow the Unicode tables, which this
    development does not have.  Statements that depend on what lowering
    does to a string are made for ASCII text. *)
Definition is_ascii (s : string) : bool :=
  forallb (fun c => (nat_of_ascii c <? 128)%nat) (list_ascii_of_string s).

Definition ascii_arg (arg : option string) : Prop :=
  match arg with
  | Some pat => is_ascii pat = true
  | None => True
  end.

Definition ascii_names (df : list Player) : Prop :=
  Forall (fun p => is_ascii (Name p) = true) df.

(** Every text column that [search_players] filters on. *)
Definition ascii_text (df : list Player) : Prop :=
  Forall (fun p => is_ascii (Name p) = true /\ is_ascii (Position p) = true /\
                   is_ascii (Nation p) = true /\ is_ascii (League p) = true /\
                   is_ascii (Team p) = true) df.


Definition features_in_range (features : list (list R)) : Prop :=
  Forall (Forall (fun x => (Rabs x < 2 ^ 62)%R)) features.

(** A whole number that float64 holds exactly, with room for one sum or
    difference of two such numbers to be exact as well. *)
Definition whole_number (x : R) : Prop :=
  exists z : Z, x = IZR z /\ (Z.abs z <= 2 ^ 52)%Z.

(** A supplied pattern has no regular-expression special character. *)
Definition literal_arg (arg : option string) : Prop :=
  match arg with
  | Some pat => PyStr.re_literal pat = true
  | None => True
  end.

(** The filters of [search_players] in the words of the specification:
    case-insensitive substring tests and inclusive range tests, all of
    which a row must pass. *)
Definition contains_nocase (arg : option string) (field : string) : bool :=
  match arg with
  | Some pat => PyStr.str_in (PyStr.lower pat) (PyStr.lower field)
  | None => true
  end.

Definition at_least (bound : option Z) (ovr : Z) : bool :=
  match bound with Some b => (ovr >=? b)%Z | None => true end.

Definition at_most (bound : option Z) (ovr : Z) : bool :=
  match bound with Some b => (ovr <=? b)%Z | None => true end.

Definition search_matches (query position : option string)
    (min_overall max_overall : option Z) (nation league team : option string)
    (p : Player) : bool :=
  contains_nocase query (Name p) && contains_nocase position (Position p)
  && at_least min_overall (OVR p) && at_most max_overall (OVR p)
  && contains_nocase nation (Nation p) && contains_nocase league (League p)
  && contains_nocase team (Team p).

(** ** The example of the specification: players A, B and C *)

Definition example_player (name : string) (ovr : Z) (position : string)
    (features : list R) (category : string) : Player :=
  mkPlayer name ovr position 25 "Unknown" "Unknown" "Free Agent" features category.

Definition player_A : Player := example_player "A" 90 "ST" [90; 50]%R "Forward".
Definition player_B : Player := example_player "B" 85 "ST" [80; 60]%R "Forward".
Definition player_C : Player := example_player "C" 80 "CB" [40; 90]%R "Defender".

Definition example_data : list Player := [player_A; player_B; player_C].

Definition example_features : list (list R) :=
  [[1; 0]; [0.8; 0.25]; [0; 1]]%R.

Definition example_recommender : Recommender :=
  mkRecommender example_data example_features ["PAC"; "SHO"]
    (map (fun x => map (fun y => Sklearn.dot x y) (Sklearn.normalize example_features))
         (Sklearn.normalize example_features)).

(** ** The object store

    At serving time the recommender is a Python object whose attributes
    refer to a DataFrame, two arrays and a list.  The methods build new
    frames, arrays and dicts and write into some of them.  The store maps
    locations to objects; a method is a computation that transforms it.
    The list [candidates] of the two recommendation methods is local to
    the call and never shared: it is kept as a value. *)

Module Store.

(** Locations are positive numbers. *)
Abbreviation loc := positive.

Inductive pyobj : Type :=
| PyFrame (rows : list Player)                    (* a DataFrame *)
| PyArray (a : list (list R))                     (* a 2-d ndarray *)
| PyVector (v : list R)                           (* a 1-d ndarray *)
| PyStrList (names : list string)                 (* a list of str *)
| PyDict (row : Player) (extra : gmap string R)   (* a row as a dict, with the keys added to it *)
| PyRecommender (data normalized_features feature_names similarity_matrix : loc).

Abbreviation heap := (gmap positive pyobj).

(** A computation on the store.  The store survives an exception. *)
Definition M (A : Type) : Type := heap -> outcome A * heap.

#[global] Instance M_ret : MRet M := fun A a h => (Returns a, h).
#[global] Instance M_bind : MBind M := fun A B f m h =>
  match m h with
  | (Returns a, h') => f a h'
  | (Raises e, h') => (Raises e, h')
  | (OutsideFragment, h') => (OutsideFragment, h')
  end.

(** A computation that does not touch the store. *)
Definition lift {A} (m : outcome A) : M A := fun h => (m, h).

(** A new object, at a location not in use. *)
Definition alloc (o : pyobj) : M loc := fun h =>
  let l := fresh (dom h) in (Returns l, <[l := o]> h).

Definition load (l : loc) : M pyobj := fun h =>
  match h !! l with
  | Some o => (Returns o, h)
  | None => (Raises TypeError, h)
  end.

(** [d[key] = v] on a dict. *)
Definition dict_setitem (d : loc) (key : string) (v : R) : M unit := fun h =>
  match h !! d with
  | Some (PyDict row extra) => (Returns tt, <[d := PyDict row (<[key := v]> extra)]> h)
  | _ => (Raises TypeError, h)
  end.

(** [a[i] = v] on a 1-d array. *)
Definition vector_setitem (a : loc) (i : nat) (v : R) : M unit := fun h =>
  match h !! a with
  | Some (PyVector vs) =>
      if (i <? length vs)%nat then (Returns tt, <[a := PyVector (<[i := v]> vs)]> h)
      else (Raises IndexError, h)
  | _ => (Raises TypeError, h)
  end.

Definition get_frame (l : loc) : M (list Player) :=
  o ← load l;
  match o with PyFrame rows => mret rows | _ => lift (Raises TypeError) end.

Definition get_array (l : loc) : M (list (list R)) :=
  o ← load l;
  match o with PyArray a => mret a | _ => lift (Raises TypeError) end.

Definition get_vector (l : loc) : M (list R) :=
  o ← load l;
  match o with PyVector v => mret v | _ => lift (Raises TypeError) end.

Definition get_strlist (l : loc) : M (list string) :=
  o ← load l;
  match o with PyStrList names => mret names | _ => lift (Raises TypeError) end.

(** The stored state of the recommender at [self]: the contents of
    [self.data], [self.normalized_features], [self.feature_names] and
    [self.similarity_matrix]. *)
Definition stored_state (self : loc) : M Recommender :=
  o ← load self;
  match o with
  | PyRecommender d nf fn sm =>
      data ← get_frame d;
      normalized_features ← get_array nf;
      feature_names ← get_strlist fn;
      similarity_matrix ← get_array sm;
      mret (mkRecommender data normalized_features feature_names similarity_matrix)
  | _ => lift (Raises TypeError)
  end.

(** [row.to_dict()] *)
Definition to_dict (row : Player) : M loc := alloc (PyDict row ∅).

(** [df.to_dict('records')] *)
Definition to_dict_records (df : loc) : M (list loc) :=
  rows ← get_frame df;
  mapM to_dict rows.

(** One statement [df = f(df)] that builds a new frame from [df]. *)
Definition frame_step (f : list Player -> outcome (list Player)) (df : loc) : M loc :=
  rows ← get_frame df;
  rows' ← lift (f rows);
  alloc (PyFrame rows').

(** [recommend_similar] *)
Definition recommend_similar (self : loc) (player_name : string)
    (n_recommendations : Z) (same_position : bool) (max_age_diff : option Z)
  : M (list loc) :=
  me ← stored_state self;
  rows ← lift (PlayerRecommender.similar_rows me player_name n_recommendations
                 same_position max_age_diff);
  mapM (fun '(idx, score) =>
          row ← lift (Py.iloc (data me) idx);
          player_data ← to_dict row;
          _ ← dict_setitem player_data "similarity_score" score;
          mret player_data)
       rows.

(** The loop [for i, feature in enumerate(self.feature_names):
    target_vector[i] = target_attributes.get(feature, 50)]. *)
Fixpoint fill_target (target_vector : loc) (target_attributes : gmap string R)
    (features : list (nat * string)) : M unit :=
  match features with
  | [] => mret tt
  | (i, feature) :: features' =>
      _ ← vector_setitem target_vector i (default 50%R (target_attributes !! feature));
      fill_target target_vector target_attributes features'
  end.

(** [recommend_by_attributes] *)
Definition recommend_by_attributes (self : loc) (target_attributes : gmap string R)
    (n_recommendations : Z) (position : option string) : M (list loc) :=
  me ← stored_state self;
  target_vector ← alloc (PyVector (replicate (length (feature_names me)) 0%R));
  _ ← fill_target target_vector target_attributes (Py.enumerate (feature_names me));
  v ← get_vector target_vector;
  w ← lift (PlayerRecommender.normalize_target v);
  target_vector ← alloc (PyArray [w]);
  target ← get_array target_vector;
  K ← lift (Sklearn.cosine_similarity target (normalized_features me));
  similarities ← lift (Numpy.getitem K 0);
  candidates ← lift (PlayerRecommender.attribute_candidates me position
                       (Py.enumerate similarities));
  let candidates := Py.sort_by_score_desc candidates in
  mapM (fun '(idx, score) =>
          row ← lift (Py.iloc (data me) idx);
          player_data ← to_dict row;
          _ ← dict_setitem player_data "match_score" score;
          mret player_data)
       (Py.slice_to n_recommendations candidates).

(** One optional filter of [search_players]: a new frame when the argument
    is supplied and not empty, the same frame otherwise. *)
Definition filter_step (arg : option string) (prepare : string -> string)
    (case : bool) (col : Player -> string) (df : loc) : M loc :=
  if PyStr.supplied arg
  then frame_step (PlayerRecommender.filter_contains arg prepare case col) df
  else mret df.

Definition overall_step (bound : option Z) (keep : Z -> Z -> bool) (df : loc) : M loc :=
  match bound with
  | Some _ => frame_step (fun rows => Returns (PlayerRecommender.filter_overall bound keep rows)) df
  | None => mret df
  end.

(** [search_players] *)
Definition search_players `{SortValues} (self : loc)
    (query position : option string) (min_overall max_overall : option Z)
    (nation league team : option string) (limit : Z) : M (list loc) :=
  me ← stored_state self;
  df ← alloc (PyFrame (data me));            (* self.data.copy() *)
  df ← filter_step query PyStr.lower true (fun p => PyStr.lower (Name p)) df;
  df ← filter_step position (fun pat => pat) false Position df;
  df ← overall_step min_overall Z.geb df;
  df ← overall_step max_overall Z.leb df;
  df ← filter_step nation (fun pat => pat) false Nation df;
  df ← filter_step league (fun pat => pat) false League df;
  df ← filter_step team (fun pat => pat) false Team df;
  df ← frame_step (fun rows => Returns (sort_values_OVR_desc rows)) df;
  df ← frame_step (fun rows => Returns (Py.slice_to limit rows)) df;
  to_dict_records df.

(** [get_player_details]; [None] is Python's [None]. *)
Definition get_player_details (self : loc) (player_name : string) : M (option loc) :=
  me ← stored_state self;
  player_idx ← lift (PlayerRecommender._find_player_index me player_name);
  match player_idx with
  | None => mret None
  | Some player_idx =>
      row ← lift (Py.iloc (data me) player_idx);
      d ← to_dict row;
      mret (Some d)
  end.

(** [get_top_players] *)
Definition get_top_players `{SortValues} (self : loc) (n : Z)
    (position : option string) : M (list loc) :=
  me ← stored_state self;
  df ← alloc (PyFrame (data me));            (* self.data.copy() *)
  df ← (if PyStr.supplied position
        then frame_step
               (fun rows =>
                  Returns (Py.boolean_index
                             (map (fun p => String.eqb (Position_Category p)
                                              (default "" position)) rows) rows)) df
        else mret df);
  df ← frame_step (fun rows => Returns (sort_values_OVR_desc rows)) df;
  df ← frame_step (fun rows => Returns (Py.slice_to n rows)) df;
  to_dict_records df.

End Store.

(** A computation preserves the store when every object present before it
    is present and unchanged after it, whatever its outcome. *)
Definition preserves {A} (m : Store.M A) : Prop :=
  forall h : Store.heap, h ⊆ snd (m h).

(** The store holds, at [self], a recommender whose attributes have the
    contents [me]. *)
Definition recommender_at (h : Store.heap) (self : Store.loc) (me : Recommender) : Prop :=
  exists d nf fn sm,
    h !! self = Some (Store.PyRecommender d nf fn sm) /\
    h !! d = Some (Store.PyFrame (data me)) /\
    h !! nf = Some (Store.PyArray (normalized_features me)) /\
    h !! fn = Some (Store.PyStrList (feature_names me)) /\
    h !! sm = Some (Store.PyArray (similarity_matrix me)).

(** The store-level computation [m], run from [h], has the outcome of the
    value-level result [o]; when they return, [rel] relates the two results
    in the final store. *)
Definition agrees {A B} (m : Store.M A) (o : outcome B)
    (rel : Store.heap -> A -> B -> Prop) (h : Store.heap) : Prop :=
  match o with
  | Returns b => exists a, fst (m h) = Returns a /\ rel (snd (m h)) a b
  | Raises e => fst (m h) = Raises e
  | OutsideFragment => fst (m h) = OutsideFragment
  end.

(** The dict at [l] is the row [p] with the one added key [key]. *)
Definition scored_dict_at (key : string) (h : Store.heap) (l : Store.loc)
    (p : Player) (score : R) : Prop :=
  h !! l = Some (Store.PyDict p {[ key := score ]}).

(** The frame at [df] has the rows [rows]; the dict at [l] is the row [p]. *)
Definition frame_at (h : Store.heap) (df : Store.loc) (rows : list Player) : Prop :=
  h !! df = Some (Store.PyFrame rows).

Definition dict_at (h : Store.heap) (l : Store.loc) (p : Player) : Prop :=
  h !! l = Some (Store.PyDict p ∅).

(** A store that holds the example recommender at location 5. *)
Definition example_store : Store.heap :=
  {[ 1%positive := Store.PyFrame (data example_recommender);
     2%positive := Store.PyArray (normalized_features example_recommender);
     3%positive := Store.PyStrList (feature_names example_recommender);
     4%positive := Store.PyArray (similarity_matrix example_recommender);
     5%positive := Store.PyRecommender 1 2 3 4 ]}.

(** The tests of the candidate loop of [recommend_similar] on one
    candidate: not the player itself, the same position category when asked
    for, an age within the bound when one is given. *)
Definition eligible (player_idx : nat) (player_position : string) (player_age : Z)
    (same_position : bool) (max_age_diff : option Z)
    (idx : nat) (candidate : Player) : bool :=
  negb (idx =? player_idx)%nat
  && negb (same_position && PyStr.truthy player_position
           && negb (String.eqb (Position_Category candidate) player_position))
  && negb (match max_age_diff with
           | Some d => (d <? Z.abs (Age candidate - player_age))%Z
           | None => false
           end).

(** Scores in descending order. *)
Definition by_score_desc {A} (x y : A * R) : Prop := (snd y <= snd x)%R.

(** The candidates of [recommend_similar] for the player at [i]. *)
Definition similar_pool (self : Recommender) (i : nat) (player : Player)
    (sp : bool) (mad : option Z) (scores : list R) : list (nat * R) :=
  List.filter
    (fun row => from_option
                  (eligible i (Position_Category player) (Age player) sp mad (fst row))
                  false (data self !! fst row))
    (Py.enumerate scores).

(** The position test of [get_top_players] on one row. *)
Definition in_category (position : option string) (p : Player) : bool :=
  match position with
  | Some pos => negb (PyStr.truthy pos) || String.eqb (Position_Category p) pos
  | None => true
  end.

(** The norm that [normalize] divides a row by: the Euclidean norm, or 1
    when that is below [10 * eps]. *)
Definition guarded_norm (row : list R) : R :=
  let n := sqrt (Sklearn.squared_norm row) in
  if Rlt_dec n (10 * Sklearn.eps) then 1%R else n.

(** Min-max scaling of one value, for a column with least value [lo] and
    greatest value [hi]. *)
Definition rescale (lo hi x : R) : R :=
  ((x - lo) / (if Req_dec_T (hi - lo) 0 then 1 else hi - lo))%R.

(** ** [DataProcessor.clean_data] *)

(** One row of the frame read from the CSV file, before cleaning: a cell
    is missing ([None], pandas' NaN) or holds a value.  The feature
    columns are numeric, in the order of [FEATURE_COLUMNS]. *)
Record RawPlayer : Type := mkRawPlayer {
  raw_Name : option string;
  raw_OVR : option Z;
  raw_Position : option string;
  raw_Age : option Z;
  raw_Nation : option string;
  raw_League : option string;
  raw_Team : option string;
  raw_Features : list (option R)
}.

Module Cleaning.

(** The steps of [clean_data] that act row by row.
    [df.dropna(subset=critical_cols)] removes the row (the result is
    [None]) when the name, the rating, the position or a feature is
    missing; [fillna] gives the other columns their defaults;
    [pd.to_numeric(...).fillna(0)] then finds a number in every feature
    cell and leaves it.  The column [Position_Category] is added later, by
    [process_for_training], and is empty until then. *)
Definition clean_row (r : RawPlayer) : option Player :=
  name ← raw_Name r;
  ovr ← raw_OVR r;
  position ← raw_Position r;
  features ← mapM (fun cell => cell) (raw_Features r);
  Some (mkPlayer name ovr position
          (default 0%Z (raw_Age r))
          (default "Unknown" (raw_Nation r))
          (default "Unknown" (raw_League r))
          (default "Free Agent" (raw_Team r))
          features "").

(** [df.drop_duplicates(subset=['Name'], keep='first')]: a row is dropped
    when an earlier row has the same name; [seen] holds the names met so
    far. *)
Fixpoint drop_duplicates (seen : list string) (df : list Player) : list Player :=
  match df with
  | [] => []
  | p :: df' =>
      if bool_decide (Name p ∈ seen) then drop_duplicates seen df'
      else p :: drop_duplicates (Name p :: seen) df'
  end.

(** [clean_data]; [reset_index(drop=True)] makes the position of a row its
    label, as in every list of rows. *)
Definition clean_data (df : list RawPlayer) : list Player :=
  drop_duplicates [] (omap clean_row df).

(** The cleaned frame written out and read again: every cell is present. *)
Definition to_raw (p : Player) : RawPlayer :=
  mkRawPlayer (Some (Name p)) (Some (OVR p)) (Some (Position p)) (Some (Age p))
    (Some (Nation p)) (Some (League p)) (Some (Team p)) (map Some (Features p)).

End Cleaning.

(** Row [i] of the raw table is complete, cleans to [p], and no complete
    row before it has the name of [p]. *)
Definition first_complete (df : list RawPlayer) (i : nat) (p : Player) : Prop :=
  (exists r, df !! i = Some r /\ Cleaning.clean_row r = Some p) /\
  forall k r q, (k < i)%nat -> df !! k = Some r -> Cleaning.clean_row r = Some q ->
                Name q <> Name p.

Definition example_raw : list RawPlayer :=
  [ mkRawPlayer (Some "A") (Some 90%Z) (Some "ST") None None None None
      (replicate 35 (Some 1%R));
    mkRawPlayer (Some "B") None (Some "CB") (Some 30%Z) None None None
      (replicate 35 (Some 1%R));
    mkRawPlayer (Some "A") (Some 70%Z) (Some "GK") (Some 20%Z) None None None
      (replicate 35 (Some 0%R));
    mkRawPlayer (Some "C") (Some 80%Z) (Some "CB") (Some 31%Z) None None (Some "T")
      (replicate 35 (Some 0%R)) ].

(** ** The recommendation endpoint of [app/main.py] *)

Module App.

(** The global models; [None] when loading a model failed. *)
Record Models : Type := mkModels {
  male_model : option Recommender;
  female_model : option Recommender
}.

(** [male_model if gender == 'male' else female_model] *)
Definition select_model (models : Models) (gender : string) : option Recommender :=
  if String.eqb gender "male" then male_model models else female_model models.

(** The exceptions an endpoint can meet: those of the recommender, and
    the [AttributeError] of a method call on [None]. *)
Inductive exception : Set :=
| FromModel (e : exn)
| AttributeError.

(** The answer of an endpoint: a JSON body with status 200, an error
    message with its status, or the text of a caught exception with status
    500.  A body holds the rows from which the endpoint copies the fields
    of its JSON object. *)
Inductive response (A : Type) : Type :=
| Success (body : A)
| Failure (status : Z) (error : string)
| Failed (e : exception).

Arguments Success {A} body.
Arguments Failure {A} status error.
Arguments Failed {A} e.

(** [try: ... except Exception as e: return jsonify({'error': str(e)}), 500] *)
Definition try_except {A} (body : outcome (response A)) : outcome (response A) :=
  match body with
  | Raises e => Returns (Failed (FromModel e))
  | _ => body
  end.

(** [POST /api/recommend], as a function of the values read from the JSON
    body: the source player and the recommendations. *)
Definition recommend_similar (models : Models) (gender player_name : string)
    (n_recommendations : Z) (same_position : bool) (max_age_diff : option Z)
  : outcome (response (Player * list Recommendation)) :=
  try_except
    (if negb (PyStr.truthy player_name)
     then Returns (Failure 400 "Player name is required")
     else
       match select_model models gender with
       | None => Returns (Failure 500 "Model not loaded")
       | Some model =>
           recommendations ←
             PlayerRecommender.recommend_similar model player_name
               n_recommendations same_position max_age_diff;
           match recommendations with
           | [] =>
               Returns (Failure 404 "Player not found or no recommendations available")
           | _ :: _ =>
               source_player ← PlayerRecommender.get_player_details model player_name;
               match source_player with
               | None => Returns (Failed AttributeError)   (* [source_player.get] *)
               | Some source_player => Returns (Success (source_player, recommendations))
               end
           end
       end).

End App.

(** ** [src/utils.py] *)

Module Utils.

(** [get_position_color] *)
Definition get_position_color (position : string) : string :=
  let position := PyStr.upper position in
  if PyStr.str_in "GK" position then "#FFD700"
  else if PyStr.any_in ["CB"; "LB"; "RB"; "LWB"; "RWB"] position then "#4169E1"
  else if PyStr.any_in ["CDM"; "CM"; "CAM"; "LM"; "RM"] position then "#32CD32"
  else if PyStr.any_in ["ST"; "CF"; "LW"; "RW"; "LF"; "RF"] position then "#FF4500"
  else "#808080".

End Utils.

(** The colour that [get_position_color] gives to the positions of a
    category. *)
Definition category_color (category : string) : string :=
  if String.eqb category "Goalkeeper" then "#FFD700"
  else if String.eqb category "Defender" then "#4169E1"
  else if String.eqb category "Midfielder" then "#32CD32"
  else if String.eqb category "Forward" then "#FF4500"
  else "#808080".

(** * Properties *)

(** ** Sanity checks of the string model *)

Example lower_example : PyStr.lower "Abc Z@[" = "abc z@[".
Proof. reflexivity. Qed.

Example str_contains_wildcard :
  PyStr.str_contains "a.c" true ["abc"; "ac"; "xxaxcxx"] = Returns [true; false; true].
Proof. reflexivity. Qed.

Example str_contains_outside :
  PyStr.str_contains "a(c" true ["abc"] = OutsideFragment.
Proof. reflexivity. Qed.

Example str_contains_ignorecase :
  PyStr.str_contains "ST" false ["st"; "Cst"; "s"] = Returns [true; true; false].
Proof. reflexivity. Qed.

Example get_position_category_examples :
  DataProcessor.get_position_category "cam" = "Midfielder" /\
  DataProcessor.get_position_category "gk" = "Goalkeeper" /\
  DataProcessor.get_position_category "x" = "Unknown".
Proof. repeat split. Qed.

(** ** Min-max normalization of the feature matrix *)

Section Normalization.
Local Open Scope R_scope.
Import Numpy DataProcessor.

Lemma is_min_of_unique lo lo' col : is_min_of lo col -> is_min_of lo' col -> lo = lo'.
Proof.
  intros [Hin Hle] [Hin' Hle'].
  rewrite Forall_forall in Hle, Hle'.
  apply Hle in Hin'. apply Hle' in Hin. lra.
Qed.

Lemma is_max_of_unique hi hi' col : is_max_of hi col -> is_max_of hi' col -> hi = hi'.
Proof.
  intros [Hin Hle] [Hin' Hle'].
  rewrite Forall_forall in Hle, Hle'.
  apply Hle in Hin'. apply Hle' in Hin. lra.
Qed.

Lemma fold_Rmin_is_min xs : forall x, is_min_of (fold_left Rmin xs x) (x :: xs).
Proof.
  induction xs as [|y xs IH]; intros x; simpl.
  - split; [left|]. apply Forall_cons; split; [lra|constructor].
  - destruct (IH (Rmin x y)) as [Hin Hle]. split.
    + apply elem_of_cons in Hin as [Heq|Hin].
      * rewrite Heq. unfold Rmin. destruct (Rle_dec x y); [left|right; left].
      * right; right; exact Hin.
    + apply Forall_cons in Hle as [H1 H2].
      apply Forall_cons; split; [|apply Forall_cons; split; [|exact H2]].
      * etransitivity; [exact H1|apply Rmin_l].
      * etransitivity; [exact H1|apply Rmin_r].
Qed.

Lemma fold_Rmax_is_max xs : forall x, is_max_of (fold_left Rmax xs x) (x :: xs).
Proof.
  induction xs as [|y xs IH]; intros x; simpl.
  - split; [left|]. apply Forall_cons; split; [lra|constructor].
  - destruct (IH (Rmax x y)) as [Hin Hle]. split.
    + apply elem_of_cons in Hin as [Heq|Hin].
      * rewrite Heq. unfold Rmax. destruct (Rle_dec x y); [right; left|left].
      * right; right; exact Hin.
    + apply Forall_cons in Hle as [H1 H2].
      apply Forall_cons; split; [|apply Forall_cons; split; [|exact H2]].
      * etransitivity; [apply Rmax_l|exact H1].
      * etransitivity; [apply Rmax_r|exact H1].
Qed.

(** Reduction along axis 0 is the reduction of every column. *)
Lemma fold_zip_with_lookup (f : R -> R -> R) (rs : list (list R)) :
  forall (r : list R) (d j : nat) (x : R),
    length r = d -> Forall (fun r' => length r' = d) rs ->
    r !! j = Some x ->
    fold_left (zip_with f) rs r !! j = Some (fold_left f (column j rs) x)
    /\ length (column j rs) = length rs.
Proof.
  induction rs as [|r' rs IH]; intros r d j x Hr Hrs Hj; simpl.
  - split; [exact Hj|reflexivity].
  - apply Forall_cons in Hrs as [Hr' Hrs].
    assert (Hlt : (j < length r')%nat).
    { rewrite Hr', <- Hr. eapply lookup_lt_Some; eauto. }
    destruct (lookup_lt_is_Some_2 _ _ Hlt) as [y Hy].
    unfold column in *. simpl. rewrite Hy. simpl.
    assert (Hlen : length (zip_with f r r') = d)
      by (rewrite length_zip_with; lia).
    assert (Hz : zip_with f r r' !! j = Some (f x y))
      by (rewrite lookup_zip_with, Hj; simpl; rewrite Hy; reflexivity).
    destruct (IH _ d j _ Hlen Hrs Hz) as [IH1 IH2].
    split; [exact IH1|]. simpl. f_equal. exact IH2.
Qed.


Lemma column_cons j (r : list R) rs x :
  r !! j = Some x -> column j (r :: rs) = x :: column j rs.
Proof. intros H. unfold column. simpl. rewrite H. reflexivity. Qed.

Lemma column_lookup j (a : list (list R)) d :
  Forall (fun r => length r = d) a -> (j < d)%nat ->
  forall i, column j a !! i = a !! i ≫= (.!! j).
Proof.
  induction a as [|r a IH]; intros Ha Hj i.
  - destruct i; reflexivity.
  - apply Forall_cons in Ha as [Hr Ha].
    destruct (lookup_lt_is_Some_2 r j ltac:(lia)) as [x Hx].
    rewrite (column_cons _ _ _ _ Hx).
    destruct i as [|i]; simpl; [symmetry; exact Hx|].
    apply IH; assumption.
Qed.

Lemma normalize_features_cons (r : list R) (rs : list (list R)) :
  normalize_features (r :: rs) =
  let min_vals := fold_left (zip_with Rmin) rs r in
  let max_vals := fold_left (zip_with Rmax) rs r in
  let range_vals :=
    map (fun r => if Req_dec_T r 0 then 1 else r)
        (zip_with Rminus max_vals min_vals) in
  Returns (map (fun row => zip_with Rdiv (zip_with Rminus row min_vals) range_vals)
             (r :: rs)).
Proof. reflexivity. Qed.

(** Claim C1.  On a feature matrix with at least one row (and [d]
    columns), [normalize_features] returns a matrix of the same height in
    which, for every column [j] with least value [lo] and greatest value
    [hi]: an entry equal to [lo] becomes 0; an entry equal to [hi] becomes
    1 when the column is not constant; and every entry becomes 0 when the
    column is constant ([hi = lo]). *)
Theorem normalize_features_min_max
    (features : list (list R)) (d j i : nat) (lo hi x : R) :
  features <> [] ->
  Forall (fun row => length row = d) features ->
  (j < d)%nat ->
  is_min_of lo (column j features) ->
  is_max_of hi (column j features) ->
  features !! i ≫= (.!! j) = Some x ->
  exists normalized y,
    normalize_features features = Returns normalized /\
    length normalized = length features /\
    normalized !! i ≫= (.!! j) = Some y /\
    (x = lo -> y = 0) /\
    (x = hi -> hi <> lo -> y = 1) /\
    (hi = lo -> y = 0).
Proof.
  intros Hne Hrect Hj Hlo Hhi Hx.
  destruct features as [|r rs]; [congruence|].
  rewrite normalize_features_cons. cbv zeta.
  pose proof Hrect as Hrect'.
  apply Forall_cons in Hrect' as [Hr Hrs].
  destruct (lookup_lt_is_Some_2 r j ltac:(lia)) as [x0 Hx0].
  destruct (fold_zip_with_lookup Rmin rs r d j x0 Hr Hrs Hx0) as [Hmin _].
  destruct (fold_zip_with_lookup Rmax rs r d j x0 Hr Hrs Hx0) as [Hmax _].
  rewrite (column_cons _ _ _ _ Hx0) in Hlo, Hhi.
  pose proof (is_min_of_unique _ _ _ Hlo (fold_Rmin_is_min (column j rs) x0)) as Elo.
  pose proof (is_max_of_unique _ _ _ Hhi (fold_Rmax_is_max (column j rs) x0)) as Ehi.
  rewrite <- Elo in Hmin. rewrite <- Ehi in Hmax.
  destruct ((r :: rs) !! i) as [row|] eqn:Hrow; [|discriminate].
  cbn [mbind option_bind] in Hx.
  eexists _, _. split; [reflexivity|]. split; [apply length_map|].
  rewrite list_lookup_fmap, Hrow.
  cbn [mbind option_bind fmap option_fmap option_map].
  rewrite !lookup_zip_with, list_lookup_fmap, lookup_zip_with.
  rewrite Hx, Hmin, Hmax. simpl.
  split; [reflexivity|].
  assert (Hle : lo <= hi).
  { destruct Hlo as [_ Hlo], Hhi as [Hhi _].
    rewrite Forall_forall in Hlo. apply Hlo. exact Hhi. }
  destruct (Req_dec_T (hi - lo) 0) as [Hz|Hnz].
  - repeat split.
    + intros ->. lra.
    + intros _ Hd. exfalso. apply Hd. lra.
    + intros _.
      assert (lo <= x <= hi).
      { destruct Hlo as [_ Hlo], Hhi as [_ Hhi].
        rewrite Forall_forall in Hlo, Hhi.
        assert (Hin : x ∈ x0 :: column j rs).
        { rewrite <- (column_cons j r rs x0 Hx0).
          apply list_elem_of_lookup. exists i.
          rewrite (column_lookup j (r :: rs) d Hrect Hj), Hrow. exact Hx. }
        split; [apply Hlo|apply Hhi]; exact Hin. }
      replace x with lo by lra. lra.
  - repeat split.
    + intros ->. unfold Rdiv. lra.
    + intros -> _. field. exact Hnz.
    + intros E. exfalso. apply Hnz. lra.
Qed.

Lemma normalize_features_min_max_witness :
  exists normalized y,
    normalize_features [[1; 5]; [3; 5]; [2; 5]] = Returns normalized /\
    length normalized = 3%nat /\
    normalized !! 1%nat ≫= (.!! 0%nat) = Some y /\
    (3 = 1 -> y = 0) /\ (3 = 3 -> 3 <> 1 -> y = 1) /\ (3 = 1 -> y = 0).
Proof.
  apply (normalize_features_min_max [[1; 5]; [3; 5]; [2; 5]] 2 0 1 1 3 3).
  - discriminate.
  - repeat (apply Forall_cons; split; [reflexivity|]). apply Forall_nil_2.
  - lia.
  - split; [apply list_elem_of_here|].
    repeat (apply Forall_cons; split; [lra|]). apply Forall_nil_2.
  - split; [apply list_elem_of_further, list_elem_of_here|].
    repeat (apply Forall_cons; split; [lra|]). apply Forall_nil_2.
  - reflexivity.
Defined.

End Normalization.

(** ** Regular expressions without special characters *)

Section Strings.
Import PyStr.

Lemma re_compile_literal (pat : string) :
  re_literal pat = true ->
  re_compile pat = Some (map ReChar (list_ascii_of_string pat)).
Proof.
  unfold re_literal.
  induction pat as [|c pat IH]; simpl; [reflexivity|].
  intros H. apply andb_prop in H as [Hc Hpat].
  apply andb_prop in Hc as [Hdot Hsp].
  apply negb_true_iff in Hdot, Hsp.
  rewrite Hdot, Hsp, (IH Hpat). reflexivity.
Qed.

Lemma re_match_literal (pat : string) : forall s,
  re_match false (map ReChar (list_ascii_of_string pat)) s = String.prefix pat s.
Proof.
  induction pat as [|c pat IH]; intros [|b s]; simpl; try reflexivity.
  destruct (ascii_dec c b) as [->|Hne].
  - rewrite Ascii.eqb_refl. apply IH.
  - apply Ascii.eqb_neq in Hne. rewrite Hne. reflexivity.
Qed.

Lemma re_search_literal (pat s : string) :
  re_search false (map ReChar (list_ascii_of_string pat)) s = str_in pat s.
Proof.
  induction s as [|b s IH].
  - simpl. rewrite re_match_literal. reflexivity.
  - cbn [re_search str_in]. rewrite re_match_literal, IH. reflexivity.
Qed.

Lemma re_match_ignorecase (pat : string) : forall s,
  re_match true (map ReChar (list_ascii_of_string pat)) s
  = String.prefix (lower pat) (lower s).
Proof.
  induction pat as [|c pat IH]; intros [|b s]; simpl; try reflexivity.
  destruct (ascii_dec (ascii_lower c) (ascii_lower b)) as [E|Hne].
  - rewrite E, Ascii.eqb_refl. apply IH.
  - apply Ascii.eqb_neq in Hne. rewrite Hne. reflexivity.
Qed.

Lemma re_search_ignorecase (pat s : string) :
  re_search true (map ReChar (list_ascii_of_string pat)) s
  = str_in (lower pat) (lower s).
Proof.
  induction s as [|b s IH].
  - simpl. rewrite re_match_ignorecase. reflexivity.
  - cbn [re_search str_in lower]. rewrite re_match_ignorecase, IH. reflexivity.
Qed.

(** On a pattern without special characters, [str.contains] is the substring
    test; with [case=False], the substring test on lowered strings. *)
Lemma str_contains_literal (pat : string) (col : list string) :
  re_literal pat = true ->
  str_contains pat true col = Returns (map (str_in pat) col).
Proof.
  intros H. unfold str_contains. rewrite (re_compile_literal _ H). simpl.
  f_equal. apply map_ext. intros s. apply re_search_literal.
Qed.

Lemma str_contains_literal_nocase (pat : string) (col : list string) :
  re_literal pat = true ->
  str_contains pat false col
  = Returns (map (fun s => str_in (lower pat) (lower s)) col).
Proof.
  intros H. unfold str_contains. rewrite (re_compile_literal _ H). simpl.
  f_equal. apply map_ext. intros s. apply re_search_ignorecase.
Qed.

Lemma re_special_lower (c : ascii) :
  negb (Ascii.eqb (ascii_lower c) ".") && negb (re_special (ascii_lower c))
  = negb (Ascii.eqb c ".") && negb (re_special c).
Proof.
  destruct c as [[] [] [] [] [] [] [] []]; reflexivity.
Qed.

Lemma re_literal_lower (s : string) : re_literal (lower s) = re_literal s.
Proof.
  unfold re_literal. induction s as [|c s IH]; simpl; [reflexivity|].
  rewrite re_special_lower. f_equal. exact IH.
Qed.

End Strings.

(** ** Player lookup *)

Section Lookup.
Import PyStr Py PlayerRecommender.

Lemma first_index_None (mask : list bool) :
  forallb negb mask = true -> first_index mask = None.
Proof.
  induction mask as [|[] mask IH]; simpl; intros H; try discriminate; [reflexivity|].
  rewrite (IH H). reflexivity.
Qed.

Lemma first_index_Some (mask : list bool) :
  forallb negb mask = false -> exists i, first_index mask = Some i.
Proof.
  induction mask as [|[] mask IH]; simpl; intros H; try discriminate; [eauto|].
  destruct (IH H) as [i ->]. eauto.
Qed.

(** [first_index] is the position of the first selected row. *)
Lemma first_index_first (mask : list bool) : forall i,
  first_index mask = Some i <->
  mask !! i = Some true /\ forall k, (k < i)%nat -> mask !! k = Some false.
Proof.
  induction mask as [|b mask IH]; intros i; simpl.
  - split; [discriminate|]. intros [H _]. destruct i; discriminate.
  - destruct b.
    + split.
      * intros [= <-]. split; [reflexivity|]. intros k Hk. lia.
      * intros [Hi Hlt]. destruct i as [|i]; [reflexivity|].
        specialize (Hlt 0%nat ltac:(lia)). discriminate.
    + destruct i as [|i].
      * split; [|intros [H _]; discriminate].
        destruct (first_index mask); discriminate.
      * pose proof (IH i) as IHi. clear IH.
        destruct (first_index mask) as [i'|]; simpl; split.
        -- intros [= ->]. destruct IHi as [[E1 E2] _]; [reflexivity|].
           split; [exact E1|]. intros [|k] Hk; [reflexivity|]. apply E2. lia.
        -- intros [H1 H2]. f_equal. f_equal. destruct IHi as [_ IHi].
           injection IHi as ->; [reflexivity|].
           split; [exact H1|]. intros k Hk. apply (H2 (S k)). lia.
        -- discriminate.
        -- intros [H1 H2]. destruct IHi as [_ IHi].
           discriminate IHi.
           split; [exact H1|]. intros k Hk. apply (H2 (S k)). lia.
Qed.

(** On a name without special characters the lookup computes
    [lookup_by_name]. *)
Lemma find_player_index_lookup (self : Recommender) (player_name : string) :
  re_literal player_name = true ->
  _find_player_index self player_name
  = Returns (lookup_by_name (data self) player_name).
Proof.
  intros Hlit. unfold _find_player_index, lookup_by_name.
  rewrite map_map.
  set (exact := map (fun p => String.eqb (lower (Name p)) (lower player_name)) (data self)).
  destruct (forallb negb exact) eqn:Hnone.
  - rewrite str_contains_literal by (rewrite re_literal_lower; exact Hlit).
    rewrite (first_index_None _ Hnone). simpl. rewrite map_map. reflexivity.
  - destruct (first_index_Some _ Hnone) as [i ->]. reflexivity.
Qed.

Lemma first_index_first_row (P : Player -> bool) (rows : list Player) (i : nat) :
  first_index (map P rows) = Some i <-> first_row P rows i.
Proof.
  rewrite first_index_first. unfold first_row. split.
  - intros [Hi Hlt]. split.
    + rewrite list_lookup_fmap in Hi.
      destruct (rows !! i) as [p|]; simpl in Hi; [|discriminate].
      exists p. split; [reflexivity|congruence].
    + intros k q Hk Hq. specialize (Hlt k Hk).
      rewrite list_lookup_fmap, Hq in Hlt. simpl in Hlt. congruence.
  - intros [(p & Hp & HP) Hlt]. split.
    + rewrite list_lookup_fmap, Hp. simpl. congruence.
    + intros k Hk.
      assert (Hlen : (k < length rows)%nat).
      { apply lookup_lt_Some in Hp. lia. }
      destruct (lookup_lt_is_Some_2 _ _ Hlen) as [q Hq].
      rewrite list_lookup_fmap, Hq. simpl. f_equal. apply (Hlt k q Hk Hq).
Qed.

Lemma first_index_no_row (P : Player -> bool) (rows : list Player) :
  first_index (map P rows) = None <-> Forall (fun p => P p = false) rows.
Proof.
  induction rows as [|p rows IH]; simpl.
  - split; [constructor|reflexivity].
  - destruct (P p) eqn:HP.
    + split; [discriminate|]. intros H. apply Forall_cons in H as [H _]. congruence.
    + rewrite Forall_cons, <- IH.
      destruct (first_index (map P rows)); simpl; split;
        try discriminate; try tauto.
      intros [_ H]. discriminate.
Qed.

(** Where the lookup does what the specification says: on ASCII names,
    for an ASCII query without regular-expression special characters,
    [_find_player_index] returns and follows the rule [lookup_by_name].  It
    resolves to [i] exactly when [i] is the first row whose lowered name
    equals the lowered query or, no row passing that test, [i] is the first
    row whose lowered name contains the lowered query as a substring; it
    resolves to no row exactly when no row passes either test. *)
Lemma find_player_index_literal (self : Recommender) (player_name : string) :
  ascii_names (data self) ->
  is_ascii player_name = true ->
  re_literal player_name = true ->
  exists found,
    _find_player_index self player_name = Returns found /\
    found = lookup_by_name (data self) player_name /\
    (forall i,
        found = Some i <->
        first_row (name_equals player_name) (data self) i \/
        (Forall (fun p => name_equals player_name p = false) (data self) /\
         first_row (name_contains player_name) (data self) i)) /\
    (found = None <->
     Forall (fun p => name_equals player_name p = false /\
                      name_contains player_name p = false) (data self)).
Proof.
  intros _ _ Hlit. eexists. split; [apply find_player_index_lookup, Hlit|].
  split; [reflexivity|].
  unfold lookup_by_name.
  fold (name_equals player_name). fold (name_contains player_name).
  destruct (first_index (map (name_equals player_name) (data self)))
    as [i0|] eqn:Hexact.
  - pose proof (proj1 (first_index_first_row _ _ _) Hexact) as Hfirst. split.
    + intros i. split.
      * intros [= <-]. left. exact Hfirst.
      * intros [Hi|[Hnone _]].
        -- apply first_index_first_row in Hi. congruence.
        -- apply first_index_no_row in Hnone. congruence.
    + split; [discriminate|]. intros Hall.
      destruct Hfirst as [(p & Hp & HP) _].
      rewrite Forall_forall in Hall.
      destruct (Hall p) as [Hne _]; [apply list_elem_of_lookup; eauto|]. congruence.
  - pose proof (proj1 (first_index_no_row _ _) Hexact) as Hnone. split.
    + intros i. rewrite first_index_first_row. split.
      * intros Hi. right. split; assumption.
      * intros [[(p & Hp & HP) _]|[_ Hi]]; [|exact Hi].
        rewrite Forall_forall in Hnone.
        rewrite (Hnone p) in HP by (apply list_elem_of_lookup; eauto). discriminate.
    + rewrite first_index_no_row. rewrite Forall_forall in Hnone.
      rewrite !Forall_forall. split.
      * intros H p Hp. split; [apply Hnone, Hp|apply H, Hp].
      * intros H p Hp. apply H, Hp.
Qed.

Lemma find_player_index_literal_witness :
  exists found,
    _find_player_index example_recommender "b" = Returns found /\
    found = lookup_by_name example_data "b".
Proof.
  destruct (find_player_index_literal example_recommender "b")
    as (found & Hfound & Hrule & _);
    [repeat (apply Forall_cons; split; [reflexivity|]); apply Forall_nil_2
    |reflexivity|reflexivity|].
  exists found. split; assumption.
Defined.

(** Claim C6 at the failing input.  The query [.] is neither equal to nor
    a substring of any name of the example table, so the lookup of the
    claim resolves to no row; the code resolves it to the first row.  The
    fallback, commented "Try partial match" in the source, calls
    [str.contains] without [regex=False], and [.] is read as a wildcard. *)
Theorem find_player_index_wildcard :
  _find_player_index example_recommender "." = Returns (Some 0%nat) /\
  lookup_by_name (data example_recommender) "." = None /\
  Forall (fun p => name_equals "." p = false /\ name_contains "." p = false)
    (data example_recommender).
Proof.
  split; [reflexivity|]. split; [reflexivity|].
  repeat (apply Forall_cons; split; [split; reflexivity|]). apply Forall_nil_2.
Qed.

(** When nothing matches a name without special characters, the lookup
    returns [None]. *)
Lemma find_player_index_no_match (self : Recommender) (player_name : string) :
  re_literal player_name = true ->
  Forall (fun p => lower (Name p) <> lower player_name /\
                   str_in (lower player_name) (lower (Name p)) = false) (data self) ->
  _find_player_index self player_name = Returns None.
Proof.
  intros Hlit Hno. rewrite (find_player_index_lookup _ _ Hlit).
  f_equal. unfold lookup_by_name.
  rewrite !first_index_None; [reflexivity| |].
  - rewrite forallb_forall. intros b Hb. apply in_map_iff in Hb as (p & <- & Hp).
    rewrite Forall_forall in Hno. apply list_elem_of_In in Hp.
    destruct (Hno p Hp) as [_ ->]. reflexivity.
  - rewrite forallb_forall. intros b Hb. apply in_map_iff in Hb as (p & <- & Hp).
    rewrite Forall_forall in Hno. apply list_elem_of_In in Hp.
    destruct (Hno p Hp) as [Hne _]. apply String.eqb_neq in Hne. rewrite Hne.
    reflexivity.
Qed.

End Lookup.

(** ** The similarity matrix *)

Section Similarity.
Local Open Scope R_scope.
Import Sklearn PlayerRecommender.

Lemma dot_comm (u : list R) : forall v, dot u v = dot v u.
Proof.
  unfold dot.
  induction u as [|x u IH]; intros [|y v]; simpl; try reflexivity.
  rewrite (Rmult_comm x y). f_equal. apply IH.
Qed.

Lemma length_normalize (X : list (list R)) : length (normalize X) = length X.
Proof.
  unfold normalize, handle_zeros_in_scale, row_norms.
  rewrite length_zip_with, !length_map. lia.
Qed.

Lemma cosine_similarity_Returns (X Y K : list (list R)) :
  cosine_similarity X Y = Returns K ->
  K = map (fun x => map (fun y => dot x y) (normalize Y)) (normalize X).
Proof.
  unfold cosine_similarity.
  destruct (check_pairwise_arrays X Y) as [[]| |]; simpl; congruence.
Qed.

Lemma cosine_similarity_lookup (X Y : list (list R)) (i j : nat) (x y : list R) :
  normalize X !! i = Some x -> normalize Y !! j = Some y ->
  map (fun x => map (fun y => dot x y) (normalize Y)) (normalize X) !! i ≫= (.!! j)
  = Some (dot x y).
Proof.
  intros Hx Hy.
  rewrite list_lookup_fmap, Hx. cbn [fmap option_fmap option_map mbind option_bind].
  rewrite list_lookup_fmap, Hy. reflexivity.
Qed.

(** Claim C8.  The similarity matrix stored by [fit] is symmetric: for a
    fitted recommender and positions [i] and [j] below the number of rows
    of the feature matrix, the entries [(i, j)] and [(j, i)] exist and are
    equal. *)
Theorem similarity_matrix_symmetric
    (data : list Player) (nf : list (list R)) (names : list string)
    (self : Recommender) (i j : nat) :
  fit data nf names = Returns self ->
  (i < length nf)%nat -> (j < length nf)%nat ->
  exists s,
    similarity_matrix self !! i ≫= (.!! j) = Some s /\
    similarity_matrix self !! j ≫= (.!! i) = Some s.
Proof.
  unfold fit. intros Hfit Hi Hj.
  destruct (cosine_similarity nf nf) as [K| |] eqn:HK; simpl in Hfit; try discriminate.
  injection Hfit as <-. simpl.
  apply cosine_similarity_Returns in HK. subst K.
  rewrite <- (length_normalize nf) in Hi, Hj.
  destruct (lookup_lt_is_Some_2 _ _ Hi) as [x Hx].
  destruct (lookup_lt_is_Some_2 _ _ Hj) as [y Hy].
  exists (dot x y). split.
  - apply cosine_similarity_lookup; assumption.
  - rewrite (dot_comm x y). apply cosine_similarity_lookup; assumption.
Qed.

Lemma similarity_matrix_symmetric_witness :
  exists self s,
    fit [] [[1; 0]; [1; 1]] ["PAC"; "SHO"] = Returns self /\
    similarity_matrix self !! 0%nat ≫= (.!! 1%nat) = Some s /\
    similarity_matrix self !! 1%nat ≫= (.!! 0%nat) = Some s.
Proof.
  eexists.
  assert (Hfit : fit [] [[1; 0]; [1; 1]] ["PAC"; "SHO"] = Returns
            (mkRecommender [] [[1; 0]; [1; 1]] ["PAC"; "SHO"]
               (map (fun x => map (fun y => dot x y) (normalize [[1; 0]; [1; 1]]))
                    (normalize [[1; 0]; [1; 1]])))) by reflexivity.
  destruct (similarity_matrix_symmetric _ _ _ _ 0 1 Hfit) as (s & H1 & H2);
    [simpl; lia | simpl; lia |].
  exists s. split; [exact Hfit|]. split; assumption.
Defined.
End Similarity.

(** ** Lists, sorting and slicing *)

Section Outcome.
Context {A B : Type}.

Lemma mapM_Returns (f : A -> outcome B) (l : list A) :
  Forall (fun x => exists y, f x = Returns y) l ->
  exists ys, mapM f l = Returns ys /\ Forall2 (fun x y => f x = Returns y) l ys.
Proof.
  induction 1 as [|x l [y Hy] _ (ys & Hys & HF)]; simpl.
  - exists []. split; [reflexivity|constructor].
  - exists (y :: ys). rewrite Hy. simpl. rewrite Hys. simpl.
    split; [reflexivity|]. constructor; assumption.
Qed.

Lemma mapM_Returns_inv (f : A -> outcome B) (l : list A) : forall ys,
  mapM f l = Returns ys -> Forall2 (fun x y => f x = Returns y) l ys.
Proof.
  induction l as [|x l IH]; simpl; intros ys H.
  - injection H as <-. constructor.
  - destruct (f x) as [y| |] eqn:Hy; simpl in H; try discriminate.
    destruct (mapM f l) as [ys'| |]; simpl in H; try discriminate.
    injection H as <-. constructor; [exact Hy|]. apply IH. reflexivity.
Qed.
End Outcome.

Section Lists.
Import Py.
Local Open Scope R_scope.

Lemma first_index_lt (mask : list bool) : forall i,
  first_index mask = Some i -> (i < length mask)%nat.
Proof.
  intros i H. apply first_index_first in H as [H _].
  eapply lookup_lt_Some; eauto.
Qed.

Lemma insert_by_score_perm {A} (x : A * R) (l : list (A * R)) :
  Permutation (insert_by_score x l) (x :: l).
Proof.
  induction l as [|y l IH]; simpl; [reflexivity|].
  destruct (Rlt_dec (snd x) (snd y)); [|reflexivity].
  rewrite IH. apply perm_swap.
Qed.

Lemma sort_by_score_desc_perm {A} (l : list (A * R)) :
  Permutation (sort_by_score_desc l) l.
Proof.
  unfold sort_by_score_desc.
  induction l as [|x l IH]; simpl; [reflexivity|].
  rewrite insert_by_score_perm, IH. reflexivity.
Qed.

Lemma slice_to_subseteq {A} (n : Z) (l : list A) : slice_to n l ⊆ l.
Proof.
  unfold slice_to. destruct (0 <=? n)%Z; apply subseteq_take.
Qed.

Lemma slice_to_nonneg {A} (n : Z) (l : list A) :
  (0 <= n)%Z -> slice_to n l = take (Z.to_nat n) l.
Proof.
  intros H. unfold slice_to. apply Z.leb_le in H. rewrite H. reflexivity.
Qed.

Lemma enumerate_lookup_at {A} (l : list A) (i : nat) :
  enumerate l !! i = (fun x => (i, x)) <$> l !! i.
Proof.
  unfold enumerate. rewrite lookup_zip_with.
  destruct (l !! i) as [x|] eqn:Hx; simpl.
  - rewrite lookup_seq_lt by (eapply lookup_lt_Some; eauto). reflexivity.
  - destruct (seq 0 (length l) !! i); reflexivity.
Qed.

Lemma enumerate_lookup {A} (l : list A) (idx : nat) (x : A) :
  (idx, x) ∈ enumerate l <-> l !! idx = Some x.
Proof.
  rewrite list_elem_of_lookup. split.
  - intros [i Hi]. rewrite enumerate_lookup_at in Hi.
    destruct (l !! i) as [y|] eqn:Hy; simpl in Hi; [|discriminate].
    injection Hi as <- <-. exact Hy.
  - intros H. exists idx. rewrite enumerate_lookup_at, H. reflexivity.
Qed.

End Lists.

(** ** [recommend_similar] *)

Section Similar.
Import PyStr Py Numpy Sklearn PlayerRecommender.
Local Open Scope R_scope.

Lemma similar_candidates_kept self player_idx pos age sp mad (scores : list (nat * R)) :
  forall rows,
    similar_candidates self player_idx pos age sp mad scores = Returns rows ->
    Forall (kept self player_idx pos age sp mad) rows /\ rows ⊆ scores.
Proof.
  induction scores as [|[idx score] scores IH]; intros rows H; simpl in H.
  - injection H as <-. split; [constructor|reflexivity].
  - destruct (Nat.eqb_spec idx player_idx) as [->|Hne].
    { destruct (IH _ H) as [H1 H2]. split; [exact H1|].
      intros x Hx. right. apply H2, Hx. }
    unfold iloc in H.
    destruct (data self !! idx) as [candidate|] eqn:Hc; simpl in H; [|discriminate].
    destruct (sp && truthy pos && negb (Position_Category candidate =? pos)%string)
      eqn:Hpos.
    { destruct (IH _ H) as [H1 H2]. split; [exact H1|].
      intros x Hx. right. apply H2, Hx. }
    destruct (match mad with Some d => (d <? Z.abs (Age candidate - age))%Z
                        | None => false end) eqn:Hage.
    { destruct (IH _ H) as [H1 H2]. split; [exact H1|].
      intros x Hx. right. apply H2, Hx. }
    destruct (similar_candidates self player_idx pos age sp mad scores)
      as [rest| |]; simpl in H; try discriminate.
    injection H as <-.
    destruct (IH _ eq_refl) as [H1 H2]. split.
    + constructor; [|exact H1].
      split; [exact Hne|]. exists candidate. split; [exact Hc|]. split.
      * intros -> Ht. rewrite Ht in Hpos. simpl in Hpos.
        apply negb_false_iff, String.eqb_eq in Hpos. exact Hpos.
      * intros d ->. apply Z.ltb_ge in Hage. exact Hage.
    + intros x Hx. apply elem_of_cons in Hx as [->|Hx]; [left|right; apply H2, Hx].
Qed.

Lemma similar_candidates_total self player_idx pos age sp mad (scores : list (nat * R)) :
  Forall (fun row => (fst row < length (data self))%nat) scores ->
  exists rows, similar_candidates self player_idx pos age sp mad scores = Returns rows.
Proof.
  induction 1 as [|[idx score] scores Hlt _ [rows IH]]; simpl; [eauto|].
  destruct (idx =? player_idx)%nat; [eauto|].
  unfold iloc. simpl in Hlt.
  destruct (lookup_lt_is_Some_2 _ _ Hlt) as [candidate ->]. simpl.
  rewrite IH. simpl.
  destruct (sp && truthy pos && negb (Position_Category candidate =? pos)%string);
    [eauto|].
  destruct (match mad with Some d => (d <? Z.abs (Age candidate - age))%Z
                      | None => false end); eauto.
Qed.

Lemma find_player_index_lt (self : Recommender) (player_name : string) (i : nat) :
  _find_player_index self player_name = Returns (Some i) ->
  (i < length (data self))%nat.
Proof.
  unfold _find_player_index, str_contains.
  destruct (forallb negb _).
  - destruct (re_compile (lower player_name)) as [atoms|]; simpl; [|discriminate].
    intros [= H]. apply first_index_lt in H. rewrite !length_map in H. exact H.
  - intros [= H]. apply first_index_lt in H. rewrite !length_map in H. exact H.
Qed.

(** The shape of the similarity matrix of a fitted recommender. *)
Lemma fitted_similarity_shape (self : Recommender) :
  fitted self ->
  length (similarity_matrix self) = length (data self) /\
  Forall (fun row => length row = length (data self)) (similarity_matrix self).
Proof.
  intros (Hfit & Hlen & _). unfold fit in Hfit.
  destruct (cosine_similarity _ _) as [K| |] eqn:HK; simpl in Hfit; try discriminate.
  apply cosine_similarity_Returns in HK.
  assert (E : similarity_matrix self = K) by (injection Hfit as <-; reflexivity).
  rewrite E, HK. rewrite length_map, length_normalize. split; [exact Hlen|].
  apply Forall_forall. intros row Hrow.
  apply list_elem_of_fmap in Hrow as (x & -> & _).
  rewrite length_map, length_normalize. exact Hlen.
Qed.

(** The rows selected by [recommend_similar] on a fitted recommender. *)
Lemma similar_rows_fitted self player_name n sp mad i player :
  fitted self ->
  _find_player_index self player_name = Returns (Some i) ->
  data self !! i = Some player ->
  exists rows,
    similar_rows self player_name n sp mad = Returns rows /\
    Forall (kept self i (Position_Category player) (Age player) sp mad) rows.
Proof.
  intros Hfit Hfind Hplayer. unfold similar_rows. rewrite Hfind. simpl.
  destruct (fitted_similarity_shape self Hfit) as [Hlen Hrows].
  pose proof (find_player_index_lt _ _ _ Hfind) as Hi.
  unfold getitem, iloc.
  destruct (lookup_lt_is_Some_2 (similarity_matrix self) i ltac:(lia)) as [scores Hs].
  rewrite Hs, Hplayer. simpl.
  assert (Hsl : length scores = length (data self)).
  { rewrite Forall_forall in Hrows. apply Hrows.
    apply list_elem_of_lookup. eauto. }
  destruct (similar_candidates_total self i (Position_Category player) (Age player)
              sp mad (enumerate scores)) as [cands Hc].
  { apply Forall_forall. intros [idx s] Hin. apply enumerate_lookup in Hin.
    simpl. rewrite <- Hsl. eapply lookup_lt_Some; eauto. }
  rewrite Hc. simpl. eexists. split; [reflexivity|].
  apply similar_candidates_kept in Hc as [Hkept _].
  rewrite Forall_forall in Hkept |- *. intros row Hrow.
  apply Hkept. apply slice_to_subseteq in Hrow.
  rewrite <- (sort_by_score_desc_perm cands). exact Hrow.
Qed.

(** The dicts built from the selected rows. *)
Lemma recommend_similar_fitted self player_name n sp mad i player :
  fitted self ->
  _find_player_index self player_name = Returns (Some i) ->
  data self !! i = Some player ->
  exists recs rows,
    recommend_similar self player_name n sp mad = Returns recs /\
    Forall2 (fun row rec => data self !! fst row = Some (player_data rec) /\
                            similarity_score rec = snd row) rows recs /\
    Forall (kept self i (Position_Category player) (Age player) sp mad) rows.
Proof.
  intros Hfit Hfind Hplayer.
  destruct (similar_rows_fitted self player_name n sp mad i player Hfit Hfind Hplayer)
    as (rows & Hrows & Hkept).
  unfold recommend_similar. rewrite Hrows. simpl.
  destruct (mapM_Returns
              (fun '(idx, score) =>
                 player_data ← iloc (data self) idx;
                 Returns (mkRecommendation player_data score)) rows) as (recs & Hrecs & HF).
  { eapply Forall_impl; [exact Hkept|]. intros [idx score] (_ & c & Hc & _).
    simpl in Hc. unfold iloc. rewrite Hc. simpl. eauto. }
  exists recs, rows. split; [exact Hrecs|]. split; [|exact Hkept].
  eapply Forall2_impl; [exact HF|]. intros [idx score] rec Hrec. simpl.
  unfold iloc in Hrec. destruct (data self !! idx) as [c|]; simpl in Hrec; [|discriminate].
  injection Hrec as <-. simpl. split; reflexivity.
Qed.

End Similar.

Section SimilarClaims.
Import PyStr Py Numpy Sklearn PlayerRecommender DataProcessor.
Local Open Scope R_scope.

Lemma example_recommender_fitted : fitted example_recommender.
Proof.
  split; [reflexivity|]. split; [reflexivity|].
  repeat (apply Forall_cons; split; [reflexivity|]). apply Forall_nil_2.
Qed.

Lemma example_data_categorised : categorised example_data.
Proof.
  repeat (apply Forall_cons; split; [reflexivity|]). apply Forall_nil_2.
Qed.

Lemma get_position_category_truthy (position : string) :
  truthy (get_position_category position) = true.
Proof.
  unfold get_position_category.
  repeat match goal with |- context [if ?b then _ else _] => destruct b end;
    reflexivity.
Qed.

(** Claim C2.  On a fitted recommender, when the name resolves to position
    [i], [recommend_similar] returns (for every count, position flag and
    age bound) a list whose entries are rows of the table at positions
    different from [i]; when the names of the table are distinct, as
    [clean_data] leaves them, no entry carries the record of row [i]. *)
Theorem recommend_similar_excludes_self
    (self : Recommender) (player_name : string) (n_recommendations : Z)
    (same_position : bool) (max_age_diff : option Z) (i : nat) :
  fitted self ->
  _find_player_index self player_name = Returns (Some i) ->
  exists (recs : list Recommendation) (rows : list (nat * R)),
    recommend_similar self player_name n_recommendations same_position max_age_diff
    = Returns recs /\
    Forall2 (fun row rec => data self !! fst row = Some (player_data rec)) rows recs /\
    Forall (fun row => fst row <> i) rows /\
    (NoDup (map Name (data self)) ->
     forall player, data self !! i = Some player ->
     Forall (fun rec => player_data rec <> player) recs).
Proof.
  intros Hfit Hfind.
  pose proof (find_player_index_lt _ _ _ Hfind) as Hi.
  destruct (lookup_lt_is_Some_2 _ _ Hi) as [player Hplayer].
  destruct (recommend_similar_fitted self player_name n_recommendations same_position
              max_age_diff i player Hfit Hfind Hplayer) as (recs & rows & Hrecs & HF & Hkept).
  exists recs, rows. split; [exact Hrecs|].
  assert (HF' : Forall2 (fun row rec => data self !! fst row = Some (player_data rec))
                  rows recs).
  { eapply Forall2_impl; [exact HF|]. intros row rec [H _]. exact H. }
  assert (Hne : Forall (fun row => fst row <> i) rows).
  { eapply Forall_impl; [exact Hkept|]. intros row [H _]. exact H. }
  split; [exact HF'|]. split; [exact Hne|].
  intros Hnodup player' Hplayer'.
  apply Forall_forall. intros rec Hrec Heq.
  apply list_elem_of_lookup in Hrec as [k Hk].
  destruct (Forall2_lookup_r _ _ _ _ _ HF' Hk) as (row & Hrow & Hdata).
  rewrite Forall_forall in Hne.
  apply (Hne row); [apply list_elem_of_lookup; eauto|].
  apply (NoDup_lookup (map Name (data self)) (fst row) i (Name player')); [exact Hnodup| |].
  - rewrite list_lookup_fmap, Hdata, Heq. reflexivity.
  - rewrite list_lookup_fmap, Hplayer'. reflexivity.
Qed.

Lemma recommend_similar_excludes_self_witness :
  exists (recs : list Recommendation) (rows : list (nat * R)),
    recommend_similar example_recommender "a" 2 true None = Returns recs /\
    Forall2 (fun row rec => example_data !! fst row = Some (player_data rec)) rows recs /\
    Forall (fun row => fst row <> 0%nat) rows /\
    (NoDup (map Name example_data) ->
     forall player, example_data !! 0%nat = Some player ->
     Forall (fun rec => player_data rec <> player) recs).
Proof.
  apply (recommend_similar_excludes_self example_recommender "a" 2 true None 0).
  - exact example_recommender_fitted.
  - reflexivity.
Defined.

(** Claim C4.  On a fitted recommender whose position categories were
    derived by [get_position_category], [recommend_similar] with
    [same_position=True] returns only records whose position category is
    that of the queried player. *)
Theorem recommend_similar_same_position
    (self : Recommender) (player_name : string) (n_recommendations : Z)
    (max_age_diff : option Z) (i : nat) (player : Player) :
  fitted self ->
  categorised (data self) ->
  _find_player_index self player_name = Returns (Some i) ->
  data self !! i = Some player ->
  exists recs,
    recommend_similar self player_name n_recommendations true max_age_diff
    = Returns recs /\
    Forall (fun rec => Position_Category (player_data rec) = Position_Category player)
      recs.
Proof.
  intros Hfit Hcat Hfind Hplayer.
  destruct (recommend_similar_fitted self player_name n_recommendations true
              max_age_diff i player Hfit Hfind Hplayer) as (recs & rows & Hrecs & HF & Hkept).
  exists recs. split; [exact Hrecs|].
  apply Forall_forall. intros rec Hrec.
  apply list_elem_of_lookup in Hrec as [k Hk].
  destruct (Forall2_lookup_r _ _ _ _ _ HF Hk) as (row & Hrow & Hdata & _).
  rewrite Forall_forall in Hkept.
  destruct (Hkept row) as (_ & c & Hc & Hpos & _); [apply list_elem_of_lookup; eauto|].
  assert (c = player_data rec) by congruence. subst c.
  apply Hpos; [reflexivity|].
  unfold categorised in Hcat. rewrite Forall_forall in Hcat.
  rewrite (Hcat player) by (apply list_elem_of_lookup; eauto).
  apply get_position_category_truthy.
Qed.

Lemma recommend_similar_same_position_witness :
  exists recs,
    recommend_similar example_recommender "A" 2 true None = Returns recs /\
    Forall (fun rec => Position_Category (player_data rec) = "Forward"%string) recs.
Proof.
  apply (recommend_similar_same_position example_recommender "A" 2 None 0 player_A).
  - exact example_recommender_fitted.
  - exact example_data_categorised.
  - reflexivity.
  - reflexivity.
Defined.

(** Where an unknown name gives the empty answer: on ASCII names, when an
    ASCII query without regular-expression special characters is neither
    equal to a name nor contained in one, up to case, [recommend_similar]
    returns the empty list and [get_player_details] returns [None]; both
    return, neither raises. *)
Lemma not_found_returns_empty
    (self : Recommender) (player_name : string) (n_recommendations : Z)
    (same_position : bool) (max_age_diff : option Z) :
  ascii_names (data self) ->
  is_ascii player_name = true ->
  re_literal player_name = true ->
  Forall (fun p => name_equals player_name p = false /\
                   name_contains player_name p = false) (data self) ->
  recommend_similar self player_name n_recommendations same_position max_age_diff
  = Returns [] /\
  get_player_details self player_name = Returns None.
Proof.
  intros _ _ Hlit Hno.
  assert (H : _find_player_index self player_name = Returns None).
  { apply find_player_index_no_match; [exact Hlit|].
    eapply Forall_impl; [exact Hno|]. intros p [Heq Hin].
    split; [|exact Hin]. apply String.eqb_neq. exact Heq. }
  unfold recommend_similar, similar_rows, get_player_details.
  rewrite H. split; reflexivity.
Qed.

Lemma not_found_returns_empty_witness :
  recommend_similar example_recommender "Zidane" 10 true (Some 3%Z) = Returns [] /\
  get_player_details example_recommender "Zidane" = Returns None.
Proof.
  apply not_found_returns_empty.
  - repeat (apply Forall_cons; split; [reflexivity|]). apply Forall_nil_2.
  - reflexivity.
  - reflexivity.
  - repeat (apply Forall_cons; split; [split; reflexivity|]). apply Forall_nil_2.
Defined.

(** Claim C7 at the failing input.  The name [.] is neither equal to a
    name of the example table nor contained in one, so by the claim
    [recommend_similar] returns the empty list and [get_player_details]
    returns [None].  The code reads the name as a regular expression in
    the fallback of the lookup, resolves it to the first row, and returns
    the recommendation for player A (player B) and the row of player A. *)
Theorem not_found_wildcard :
  Forall (fun p => name_equals "." p = false /\ name_contains "." p = false)
    (data example_recommender) /\
  (exists s,
      recommend_similar example_recommender "." 10 true None
      = Returns [mkRecommendation player_B s]) /\
  get_player_details example_recommender "." = Returns (Some player_A).
Proof.
  split; [|split].
  - repeat (apply Forall_cons; split; [split; reflexivity|]). apply Forall_nil_2.
  - eexists. reflexivity.
  - reflexivity.
Qed.

End SimilarClaims.

(** ** Training yields a fitted recommender *)

Section TrainingProps.
Import Numpy DataProcessor PlayerRecommender Training.
Local Open Scope R_scope.

Lemma normalize_features_shape (features normalized : list (list R)) (d : nat) :
  Forall (fun row => length row = d) features ->
  normalize_features features = Returns normalized ->
  length normalized = length features /\
  Forall (fun row => length row = d) normalized.
Proof.
  intros Hrect Hn. destruct features as [|r rs]; [discriminate|].
  assert (E : normalized =
              map (fun row =>
                     zip_with Rdiv
                       (zip_with Rminus row (fold_left (zip_with Rmin) rs r))
                       (map (fun r => if Req_dec_T r 0 then 1 else r)
                          (zip_with Rminus (fold_left (zip_with Rmax) rs r)
                             (fold_left (zip_with Rmin) rs r))))
                  (r :: rs)).
  { rewrite normalize_features_cons in Hn. cbv zeta in Hn. congruence. }
  clear Hn. subst normalized.
  split; [apply length_map|].
  pose proof Hrect as Hrect'. apply Forall_cons in Hrect' as [Hr Hrs].
  assert (Hfold : forall (f : R -> R -> R) (rs : list (list R)) (r : list R),
             length r = d -> Forall (fun row => length row = d) rs ->
             length (fold_left (zip_with f) rs r) = d).
  { clear. intros f rs. induction rs as [|r' rs IH]; intros r Hr Hrs; [exact Hr|].
    apply Forall_cons in Hrs as [Hr' Hrs]. simpl. apply IH; [|exact Hrs].
    rewrite length_zip_with. lia. }
  apply Forall_forall. intros row Hrow.
  apply list_elem_of_fmap in Hrow as (row0 & -> & Hrow0).
  rewrite Forall_forall in Hrect. specialize (Hrect row0 Hrow0).
  rewrite !length_zip_with, length_map, length_zip_with.
  rewrite (Hfold Rmin rs r Hr Hrs), (Hfold Rmax rs r Hr Hrs). lia.
Qed.

(** A recommender trained on a cleaned table is fitted, and its position
    categories are the derived ones. *)
Lemma fit_processed_fitted (df : list Player) (processed : Processed)
    (self : Recommender) :
  Forall (fun p => length (Features p) = length FEATURE_COLUMNS) df ->
  process_for_training df = Returns processed ->
  fit_processed processed = Returns self ->
  fitted self /\ categorised (data self) /\
  map Name (data self) = map Name df.
Proof.
  intros Hfeat Hproc Htrain. unfold process_for_training in Hproc.
  destruct (normalize_features _) as [normalized| |] eqn:Hn; try discriminate.
  cbn [mbind outcome_bind] in Hproc. injection Hproc as <-.
  unfold fit_processed in Htrain.
  cbn [processed_data processed_normalized_features processed_feature_names]
    in Htrain.
  assert (Hrect : Forall (fun row => length row = length FEATURE_COLUMNS)
                    (extract_features (map with_position_category df))).
  { unfold extract_features. rewrite map_map.
    apply Forall_forall. intros row Hrow.
    apply list_elem_of_fmap in Hrow as (p & -> & Hp).
    rewrite Forall_forall in Hfeat. apply (Hfeat p Hp). }
  pose proof (normalize_features_shape _ normalized _ Hrect Hn) as Hshape.
  destruct Hshape as [Hlen Hwidth].
  unfold extract_features in Hlen. rewrite !length_map in Hlen.
  pose proof Htrain as Hfit. unfold fit in Htrain.
  destruct (Sklearn.cosine_similarity normalized normalized) as [K| |];
    try discriminate.
  injection Htrain as <-. cbn [data].
  split; [|split].
  - split; [exact Hfit|]. cbn [data normalized_features feature_names].
    split; [rewrite length_map; exact Hlen|exact Hwidth].
  - apply Forall_forall. intros p Hp.
    apply list_elem_of_fmap in Hp as (q & -> & _). reflexivity.
  - rewrite map_map. reflexivity.
Qed.

End TrainingProps.

(** ** [recommend_by_attributes] *)

Section Attributes.
Import PyStr Py Numpy Sklearn PlayerRecommender DataProcessor.
Local Open Scope R_scope.

Lemma target_vector_lookup (self : Recommender) (t : gmap string R) (k : nat) (name : string) :
  feature_names self !! k = Some name ->
  target_vector self t !! k = Some (default 50 (t !! name)).
Proof.
  intros H. unfold target_vector. rewrite list_lookup_fmap, H. reflexivity.
Qed.

Lemma amin_is_min (v : list R) :
  v <> [] -> exists lo, amin v = Returns lo /\ is_min_of lo v.
Proof.
  destruct v as [|x xs]; [congruence|]. intros _.
  eexists. split; [reflexivity|]. apply fold_Rmin_is_min.
Qed.

Lemma amax_is_max (v : list R) :
  v <> [] -> exists hi, amax v = Returns hi /\ is_max_of hi v.
Proof.
  destruct v as [|x xs]; [congruence|]. intros _.
  eexists. split; [reflexivity|]. apply fold_Rmax_is_max.
Qed.

Lemma min_le_max (lo hi : R) (v : list R) : is_min_of lo v -> is_max_of hi v -> lo <= hi.
Proof.
  intros [Hin _] [_ Hle]. rewrite Forall_forall in Hle. apply Hle, Hin.
Qed.

(** The guarded quotient of [normalize_target] stays below 1. *)
Lemma guarded_ratio_bounds (r : R) : 0 <= r -> 0 <= r / (r + 1e-8) < 1.
Proof.
  intros Hr.
  assert (Hpos : 0 < r + 1e-8) by lra.
  split.
  - apply Rmult_le_pos; [exact Hr|]. left. apply Rinv_0_lt_compat. exact Hpos.
  - apply (Rmult_lt_reg_r (r + 1e-8)); [exact Hpos|].
    unfold Rdiv. rewrite Rmult_assoc, Rinv_l by lra. lra.
Qed.

(** A fitted recommender has at least one player and one feature, and its
    feature matrix passes [check_array]. *)
Lemma fitted_check_array (self : Recommender) :
  fitted self ->
  exists n d,
    check_array (normalized_features self) = Returns (S n, S d) /\
    length (data self) = S n /\ length (feature_names self) = S d.
Proof.
  intros (Hfit & Hlen & Hw). unfold fit, cosine_similarity, check_pairwise_arrays in Hfit.
  destruct (check_array (normalized_features self)) as [[n d]| |] eqn:Hc;
    simpl in Hfit; try discriminate.
  unfold check_array in Hc.
  destruct (shape (normalized_features self)) as [[[|n'] [|d']]|] eqn:Hs; try discriminate.
  injection Hc as <- <-.
  exists n', d'. split; [reflexivity|].
  unfold shape in Hs.
  destruct (normalized_features self) as [|r rs] eqn:Hnf; [discriminate|].
  destruct (forallb _ rs); [|discriminate].
  injection Hs as Hn Hd. split.
  - rewrite <- Hlen. simpl. f_equal. exact Hn.
  - apply Forall_cons in Hw as [Hr _]. rewrite <- Hr. exact Hd.
Qed.


Lemma normalize_unit_row (X : list (list R)) : normalize X = map unit_row X.
Proof.
  unfold normalize, handle_zeros_in_scale, row_norms.
  induction X as [|row X IH]; simpl; [reflexivity|].
  f_equal. exact IH.
Qed.

Lemma check_pairwise_target (self : Recommender) (w : list R) :
  fitted self -> length w = length (feature_names self) ->
  check_pairwise_arrays [w] (normalized_features self) = Returns tt.
Proof.
  intros Hfit Hw.
  destruct (fitted_check_array self Hfit) as (n & d & Hc & _ & Hd).
  unfold check_pairwise_arrays. rewrite Hc.
  unfold check_array, shape. cbn [forallb length].
  rewrite Hw, Hd. simpl. rewrite Nat.eqb_refl. reflexivity.
Qed.

(** The similarity vector of a target against the stored rows. *)
Lemma cosine_similarity_target (self : Recommender) (w : list R) :
  fitted self -> length w = length (feature_names self) ->
  cosine_similarity [w] (normalized_features self)
  = Returns [map (cosine w) (normalized_features self)].
Proof.
  intros Hfit Hw. unfold cosine_similarity.
  rewrite (check_pairwise_target self w Hfit Hw). simpl.
  rewrite !normalize_unit_row. simpl. rewrite map_map. reflexivity.
Qed.

Lemma attribute_candidates_filter (self : Recommender) (position : option string)
    (scores : list (nat * R)) :
  Forall (fun row => (fst row < length (data self))%nat) scores ->
  attribute_candidates self position scores
  = Returns (List.filter
               (fun row => from_option (position_ok position) false
                             (data self !! fst row)) scores).
Proof.
  induction 1 as [|[idx score] scores Hlt _ IH]; simpl; [reflexivity|].
  simpl in Hlt. unfold iloc.
  destruct (lookup_lt_is_Some_2 _ _ Hlt) as [candidate ->]. simpl.
  rewrite IH. unfold position_ok.
  destruct position as [pos|]; simpl; [|reflexivity].
  destruct (truthy pos && negb (Position_Category candidate =? pos)%string);
    reflexivity.
Qed.


Lemma target_vector_length (self : Recommender) (t : gmap string R) :
  length (target_vector self t) = length (feature_names self).
Proof. unfold target_vector. apply length_map. Qed.

Lemma normalize_target_Returns (v : list R) :
  v <> [] ->
  exists lo hi,
    is_min_of lo v /\ is_max_of hi v /\
    normalize_target v = Returns (map (fun x => (x - lo) / (hi - lo + 1e-8)) v).
Proof.
  intros Hv.
  destruct (amin_is_min v Hv) as (lo & Hlo & Hmin).
  destruct (amax_is_max v Hv) as (hi & Hhi & Hmax).
  exists lo, hi. split; [exact Hmin|]. split; [exact Hmax|].
  unfold normalize_target. rewrite Hlo, Hhi. reflexivity.
Qed.

Lemma attribute_rows_fitted (self : Recommender) (t : gmap string R) (n : Z)
    (position : option string) (w : list R) :
  fitted self ->
  normalize_target (target_vector self t) = Returns w ->
  attribute_rows self t n position
  = Returns (selected_by_attributes self w n position).
Proof.
  intros Hfit Hw. unfold attribute_rows. rewrite Hw. simpl.
  assert (Hlen : length w = length (feature_names self)).
  { unfold normalize_target in Hw.
    destruct (amin _) as [lo| |]; simpl in Hw; try discriminate.
    destruct (amax _) as [hi| |]; simpl in Hw; try discriminate.
    injection Hw as <-. rewrite length_map. apply target_vector_length. }
  rewrite (cosine_similarity_target self w Hfit Hlen). simpl.
  rewrite attribute_candidates_filter; [reflexivity|].
  apply Forall_forall. intros [idx s] Hin. apply enumerate_lookup in Hin.
  apply lookup_lt_Some in Hin. rewrite length_map in Hin.
  destruct Hfit as (_ & Hl & _). simpl. lia.
Qed.

Lemma selected_by_attributes_sound (self : Recommender) (w : list R) (n : Z)
    (position : option string) :
  Forall (fun row =>
            exists candidate features,
              data self !! fst row = Some candidate /\
              position_ok position candidate = true /\
              normalized_features self !! fst row = Some features /\
              snd row = cosine w features)
    (selected_by_attributes self w n position).
Proof.
  apply Forall_forall. intros [idx s] Hin. unfold selected_by_attributes in Hin.
  apply slice_to_subseteq in Hin.
  rewrite (sort_by_score_desc_perm _) in Hin.
  apply list_elem_of_In, filter_In in Hin as [Hin Hok].
  apply list_elem_of_In, enumerate_lookup in Hin. simpl in *.
  destruct (data self !! idx) as [candidate|]; simpl in Hok; [|discriminate].
  rewrite list_lookup_fmap in Hin.
  destruct (normalized_features self !! idx) as [features|]; simpl in Hin; [|discriminate].
  injection Hin as <-. exists candidate, features. auto.
Qed.

Lemma recommend_by_attributes_fitted (self : Recommender) (t : gmap string R) (n : Z)
    (position : option string) (w : list R) :
  fitted self ->
  normalize_target (target_vector self t) = Returns w ->
  exists recs,
    recommend_by_attributes self t n position = Returns recs /\
    Forall2 (fun row rec => data self !! fst row = Some (matched_player rec) /\
                            match_score rec = snd row)
      (selected_by_attributes self w n position) recs.
Proof.
  intros Hfit Hw. unfold recommend_by_attributes.
  rewrite (attribute_rows_fitted self t n position w Hfit Hw). simpl.
  destruct (mapM_Returns
              (fun '(idx, score) =>
                 player_data ← iloc (data self) idx;
                 Returns (mkAttributeMatch player_data score))
              (selected_by_attributes self w n position)) as (recs & Hrecs & HF).
  { eapply Forall_impl; [apply selected_by_attributes_sound|].
    intros [idx score] (c & _ & Hc & _). simpl in Hc.
    unfold iloc. rewrite Hc. simpl. eauto. }
  exists recs. split; [exact Hrecs|].
  eapply Forall2_impl; [exact HF|]. intros [idx score] rec Hrec. simpl.
  unfold iloc in Hrec. destruct (data self !! idx) as [c|]; simpl in Hrec; [|discriminate].
  injection Hrec as <-. simpl. split; reflexivity.
Qed.

(** Claim C3, as amended.  On a fitted recommender,
    [recommend_by_attributes] builds the target vector over the stored
    feature names, each value taken from the mapping and 50 when the
    mapping has none; normalizes it standalone by
    [(x - lo) / (hi - lo + 1e-8)], so that its minimum maps to 0 and its
    maximum to a value between 0 and 1, which is below 1 when the range
    [hi - lo] is at most 100 (attribute values are documented as 0-100);
    and returns records whose match score is the cosine similarity of that
    normalized vector with the record's stored feature row.  (For a range
    of 2^27 or more, float64 addition absorbs the [1e-8] and the maximum
    maps to 1; below 1 is stated for the documented range only.) *)
Theorem recommend_by_attributes_target
    (self : Recommender) (target_attributes : gmap string R)
    (n_recommendations : Z) (position : option string) :
  fitted self ->
  let v := target_vector self target_attributes in
  (forall k name,
      feature_names self !! k = Some name ->
      v !! k = Some (default 50 (target_attributes !! name))) /\
  exists lo hi w recs,
    is_min_of lo v /\ is_max_of hi v /\
    normalize_target v = Returns w /\
    (forall k x, v !! k = Some x -> w !! k = Some ((x - lo) / (hi - lo + 1e-8))) /\
    (forall k, v !! k = Some lo -> w !! k = Some 0) /\
    (forall k, v !! k = Some hi ->
       exists y, w !! k = Some y /\ 0 <= y <= 1 /\ (hi - lo <= 100 -> y < 1)) /\
    recommend_by_attributes self target_attributes n_recommendations position
    = Returns recs /\
    Forall (fun rec =>
              exists j features,
                data self !! j = Some (matched_player rec) /\
                normalized_features self !! j = Some features /\
                match_score rec = cosine w features) recs.
Proof.
  intros Hfit v. split; [intros k name; apply target_vector_lookup|].
  destruct (fitted_check_array self Hfit) as (n & d & _ & _ & Hd).
  assert (Hv : v <> []).
  { intros E. apply (f_equal length) in E. unfold v in E.
    rewrite target_vector_length, Hd in E. discriminate. }
  destruct (normalize_target_Returns v Hv) as (lo & hi & Hlo & Hhi & Hw).
  destruct (recommend_by_attributes_fitted self target_attributes n_recommendations
              position _ Hfit Hw) as (recs & Hrecs & HF).
  pose proof (min_le_max lo hi v Hlo Hhi) as Hle.
  assert (Hk : forall k x, v !! k = Some x ->
               map (fun x => (x - lo) / (hi - lo + 1e-8)) v !! k
               = Some ((x - lo) / (hi - lo + 1e-8))).
  { intros k x Hx. rewrite list_lookup_fmap, Hx. reflexivity. }
  eexists lo, hi, _, recs.
  split; [exact Hlo|]. split; [exact Hhi|]. split; [exact Hw|].
  split; [exact Hk|]. split; [|split; [|split; [exact Hrecs|]]].
  - intros k Hx. rewrite (Hk k lo Hx). f_equal. unfold Rdiv. lra.
  - intros k Hx. eexists. split; [apply (Hk k hi Hx)|].
    pose proof (guarded_ratio_bounds (hi - lo)) as Hb.
    split; [lra|]. intros _. lra.
  - apply Forall_forall. intros rec Hrec.
    apply list_elem_of_lookup in Hrec as [k Hk'].
    destruct (Forall2_lookup_r _ _ _ _ _ HF Hk') as (row & Hrow & Hdata & Hscore).
    pose proof (selected_by_attributes_sound self
                  (map (fun x => (x - lo) / (hi - lo + 1e-8)) v)
                  n_recommendations position) as Hs.
    rewrite Forall_forall in Hs.
    destruct (Hs row) as (c & features & Hc & _ & Hf & Hcos);
      [apply list_elem_of_lookup; eauto|].
    exists (fst row), features. split; [exact Hdata|]. split; [exact Hf|].
    rewrite Hscore. exact Hcos.
Qed.


Lemma recommend_by_attributes_target_witness :
  exists w recs,
    normalize_target (target_vector example_recommender {[ "PAC"%string := 100%R ]})
    = Returns w /\
    recommend_by_attributes example_recommender {[ "PAC"%string := 100%R ]} 2 None
    = Returns recs.
Proof.
  destruct (recommend_by_attributes_target example_recommender
              {[ "PAC"%string := 100%R ]} 2 None example_recommender_fitted)
    as (_ & lo & hi & w & recs & _ & _ & Hw & _ & _ & _ & Hr & _).
  exists w, recs. split; assumption.
Defined.

(** Claim C3 as stated fails: with features PAC and SHO and the mapping
    PAC = 100, the target vector is [100; 50]; its maximum 100 is mapped
    below 1, because the divisor is the range plus [1e-8]. *)
Lemma normalize_target_max_below_one :
  let v := target_vector example_recommender {[ "PAC"%string := 100 ]} in
  is_max_of 100 v /\
  exists y, normalize_target v = Returns [y; 0] /\ y <> 1.
Proof.
  assert (Hv : target_vector example_recommender {[ "PAC"%string := 100 ]} = [100; 50]).
  { unfold target_vector. simpl.
    rewrite lookup_singleton_eq, lookup_singleton_ne by discriminate. reflexivity. }
  cbv zeta. rewrite Hv. split.
  - split; [apply list_elem_of_here|].
    repeat (apply Forall_cons; split; [lra|]). apply Forall_nil_2.
  - unfold normalize_target, amin, amax. simpl.
    rewrite Rmin_right, Rmax_left by lra.
    exists ((100 - 50) / (100 - 50 + 1e-8)). split.
    + do 3 f_equal. unfold Rdiv. lra.
    + pose proof (guarded_ratio_bounds (100 - 50)) as H. lra.
Qed.

(** *** A target that gives every feature the same value *)

Lemma map_constant {A B} (f : A -> B) (c : B) (l : list A) :
  (forall x, x ∈ l -> f x = c) -> map f l = replicate (length l) c.
Proof.
  induction l as [|x l IH]; intros H; simpl; [reflexivity|].
  rewrite (H x) by left. f_equal. apply IH. intros y Hy. apply H. right. exact Hy.
Qed.

Lemma fold_Rmin_replicate (c : R) (n : nat) : fold_left Rmin (replicate n c) c = c.
Proof.
  induction n as [|n IH]; simpl; [reflexivity|].
  rewrite Rmin_left by lra. exact IH.
Qed.

Lemma fold_Rmax_replicate (c : R) (n : nat) : fold_left Rmax (replicate n c) c = c.
Proof.
  induction n as [|n IH]; simpl; [reflexivity|].
  rewrite Rmax_left by lra. exact IH.
Qed.

Lemma normalize_target_constant (c : R) (d : nat) :
  normalize_target (replicate (S d) c) = Returns (replicate (S d) 0).
Proof.
  unfold normalize_target, amin, amax.
  cbn [replicate]. rewrite fold_Rmin_replicate, fold_Rmax_replicate.
  cbn [mbind outcome_bind]. f_equal.
  change (c :: replicate d c) with (replicate (S d) c).
  rewrite (map_constant _ 0); [rewrite length_replicate; reflexivity|].
  intros x Hx. apply elem_of_replicate in Hx as [-> _]. unfold Rdiv. lra.
Qed.

Lemma dot_zero (d : nat) (y : list R) : dot (replicate d 0) y = 0.
Proof.
  unfold dot. revert y.
  induction d as [|d IH]; intros [|a y]; simpl; try reflexivity.
  rewrite IH. lra.
Qed.

Lemma cosine_zero (d : nat) (features : list R) : cosine (replicate d 0) features = 0.
Proof.
  unfold cosine, unit_row. cbv zeta.
  rewrite (map_constant _ 0 (replicate d 0)).
  - rewrite length_replicate. apply dot_zero.
  - intros x Hx. apply elem_of_replicate in Hx as [-> _]. unfold Rdiv. lra.
Qed.

Lemma sort_by_score_desc_constant {A} (s : R) (l : list (A * R)) :
  Forall (fun row => snd row = s) l -> sort_by_score_desc l = l.
Proof.
  unfold sort_by_score_desc.
  induction 1 as [|x l Hx Hl IH]; simpl; [reflexivity|].
  rewrite IH. destruct Hl as [|y l Hy Hl]; simpl; [reflexivity|].
  destruct (Rlt_dec (snd x) (snd y)) as [Hlt|]; [|reflexivity].
  rewrite Hx, Hy in Hlt. lra.
Qed.

Lemma Forall2_filter {A B} (R : A -> B -> Prop) (f : A -> bool) (g : B -> bool)
    (l : list A) (k : list B) :
  Forall2 R l k -> (forall x y, R x y -> f x = g y) ->
  Forall2 R (List.filter f l) (List.filter g k).
Proof.
  intros HF Hfg. induction HF as [|x y l k Hxy _ IH]; simpl; [constructor|].
  rewrite (Hfg x y Hxy). destruct (g y); [constructor; assumption|exact IH].
Qed.

Lemma mapM_attribute_matches (self : Recommender) (rows : list (nat * R))
    (players : list Player) :
  Forall2 (fun row p => data self !! fst row = Some p /\ snd row = 0) rows players ->
  mapM (fun '(idx, score) =>
          player_data ← iloc (data self) idx;
          Returns (mkAttributeMatch player_data score)) rows
  = Returns (map (fun p => mkAttributeMatch p 0) players).
Proof.
  induction 1 as [|[idx score] p rows players [Hp Hs] _ IH]; simpl; [reflexivity|].
  simpl in Hp, Hs. unfold iloc in IH |- *. rewrite Hp. simpl. rewrite IH. simpl.
  rewrite Hs. reflexivity.
Qed.

Lemma enumerate_zeros (self : Recommender) :
  Forall2 (fun row p => data self !! fst row = Some p /\ snd row = 0)
    (enumerate (replicate (length (data self)) 0)) (data self).
Proof.
  apply Forall2_same_length_lookup_2.
  - unfold enumerate. rewrite length_zip_with, length_seq, length_replicate. lia.
  - intros i [idx s] p Hrow Hp. rewrite enumerate_lookup_at in Hrow.
    destruct (replicate _ _ !! i) as [z|] eqn:Hz; simpl in Hrow; [|discriminate].
    injection Hrow as <- <-. apply lookup_replicate in Hz as [-> _].
    split; [exact Hp|reflexivity].
Qed.

(** Claim C10.  On a fitted recommender, when every stored feature name
    resolves to the same value under the mapping (the empty mapping gives
    50 everywhere), the normalized target is the zero vector, every
    similarity is 0, and for a non-negative count the result is the first
    [n_recommendations] players that pass the position filter, in stored
    order, each with match score 0. *)
Theorem recommend_by_attributes_constant
    (self : Recommender) (target_attributes : gmap string R)
    (n_recommendations : Z) (position : option string) (c : R) :
  fitted self ->
  (forall name, name ∈ feature_names self ->
                default 50 (target_attributes !! name) = c) ->
  (0 <= n_recommendations)%Z ->
  let zero := replicate (length (feature_names self)) 0 in
  normalize_target (target_vector self target_attributes) = Returns zero /\
  cosine_similarity [zero] (normalized_features self)
  = Returns [replicate (length (data self)) 0] /\
  recommend_by_attributes self target_attributes n_recommendations position
  = Returns (map (fun p => mkAttributeMatch p 0)
               (take (Z.to_nat n_recommendations)
                  (List.filter (position_ok position) (data self)))).
Proof.
  intros Hfit Hconst Hn zero.
  destruct (fitted_check_array self Hfit) as (n & d & _ & _ & Hd).
  assert (Hw : normalize_target (target_vector self target_attributes) = Returns zero).
  { unfold target_vector, zero. rewrite (map_constant _ c _ Hconst), Hd.
    apply normalize_target_constant. }
  assert (Hsim : map (cosine zero) (normalized_features self)
                 = replicate (length (data self)) 0).
  { destruct Hfit as (_ & <- & _). apply map_constant.
    intros features _. apply cosine_zero. }
  split; [exact Hw|]. split.
  - rewrite cosine_similarity_target; [rewrite Hsim; reflexivity|exact Hfit|].
    unfold zero. apply length_replicate.
  - unfold recommend_by_attributes.
    rewrite (attribute_rows_fitted self target_attributes n_recommendations position
               zero Hfit Hw).
    cbn [mbind outcome_bind]. apply mapM_attribute_matches.
    unfold selected_by_attributes. rewrite Hsim.
    rewrite slice_to_nonneg by exact Hn.
    apply Forall2_take.
    rewrite (sort_by_score_desc_constant 0).
    + apply Forall2_filter; [apply enumerate_zeros|].
      intros row p [Hp _]. rewrite Hp. reflexivity.
    + apply Forall_forall. intros row Hrow.
      apply list_elem_of_In, filter_In in Hrow as [Hrow _].
      apply list_elem_of_In in Hrow. destruct row as [idx s].
      apply enumerate_lookup, lookup_replicate in Hrow as [-> _]. reflexivity.
Qed.

Lemma recommend_by_attributes_constant_witness :
  recommend_by_attributes example_recommender ∅ 2 (Some "Forward"%string)
  = Returns [mkAttributeMatch player_A 0; mkAttributeMatch player_B 0].
Proof.
  apply (recommend_by_attributes_constant example_recommender ∅ 2
           (Some "Forward"%string) 50).
  - exact example_recommender_fitted.
  - intros name _. rewrite lookup_empty. reflexivity.
  - lia.
Defined.

End Attributes.

(** ** [search_players] *)

Section Search.
Import PyStr Py PlayerRecommender.

Lemma boolean_index_filter {A} (f : A -> bool) (df : list A) :
  boolean_index (map f df) df = List.filter f df.
Proof.
  induction df as [|x df IH]; simpl; [reflexivity|].
  rewrite IH. reflexivity.
Qed.

Lemma filter_all {A} (f : A -> bool) (l : list A) :
  (forall x, f x = true) -> List.filter f l = l.
Proof.
  intros H. induction l as [|x l IH]; simpl; [reflexivity|].
  rewrite H, IH. reflexivity.
Qed.

Lemma filter_and {A} (f g : A -> bool) (l : list A) :
  List.filter g (List.filter f l) = List.filter (fun x => f x && g x) l.
Proof.
  induction l as [|x l IH]; simpl; [reflexivity|].
  destruct (f x); simpl; [|exact IH].
  destruct (g x); rewrite IH; reflexivity.
Qed.

Lemma str_in_empty (s : string) : str_in "" s = true.
Proof. destruct s; reflexivity. Qed.

Lemma truthy_false (s : string) : truthy s = false -> s = "".
Proof. destruct s; [reflexivity|discriminate]. Qed.

(** The name filter, on a query without special characters. *)
Lemma filter_contains_query (query : option string) (df : list Player) :
  literal_arg query ->
  filter_contains query lower true (fun p => lower (Name p)) df
  = Returns (List.filter (fun p => contains_nocase query (Name p)) df).
Proof.
  intros Hlit. unfold filter_contains, contains_nocase.
  destruct query as [pat|]; [|rewrite filter_all; reflexivity].
  destruct (truthy pat) eqn:Ht.
  - rewrite str_contains_literal by (rewrite re_literal_lower; exact Hlit).
    simpl. rewrite map_map, boolean_index_filter. reflexivity.
  - apply truthy_false in Ht. subst pat.
    rewrite filter_all; [reflexivity|]. intros p. apply str_in_empty.
Qed.

(** The filters with [case=False], on a pattern without special characters. *)
Lemma filter_contains_nocase (arg : option string) (col : Player -> string)
    (df : list Player) :
  literal_arg arg ->
  filter_contains arg (fun pat => pat) false col df
  = Returns (List.filter (fun p => contains_nocase arg (col p)) df).
Proof.
  intros Hlit. unfold filter_contains, contains_nocase.
  destruct arg as [pat|]; [|rewrite filter_all; reflexivity].
  destruct (truthy pat) eqn:Ht.
  - rewrite str_contains_literal_nocase by exact Hlit.
    simpl. rewrite map_map, boolean_index_filter. reflexivity.
  - apply truthy_false in Ht. subst pat.
    rewrite filter_all; [reflexivity|]. intros p. apply str_in_empty.
Qed.

Lemma filter_overall_at_least (bound : option Z) (df : list Player) :
  filter_overall bound Z.geb df = List.filter (fun p => at_least bound (OVR p)) df.
Proof.
  unfold filter_overall, at_least. destruct bound as [b|].
  - apply boolean_index_filter.
  - rewrite filter_all; reflexivity.
Qed.

Lemma filter_overall_at_most (bound : option Z) (df : list Player) :
  filter_overall bound Z.leb df = List.filter (fun p => at_most bound (OVR p)) df.
Proof.
  unfold filter_overall, at_most. destruct bound as [b|].
  - apply boolean_index_filter.
  - rewrite filter_all; reflexivity.
Qed.

Lemma Sorted_take {A} (R : A -> A -> Prop) (l : list A) : forall n,
  Sorted R l -> Sorted R (take n l).
Proof.
  induction l as [|x l IH]; intros [|n] H; simpl; try constructor.
  - apply IH. apply Sorted_inv in H. tauto.
  - apply Sorted_inv in H as [_ H]. destruct H as [|y l' Hxy]; destruct n; constructor.
    exact Hxy.
Qed.

Context `{SortValues} `{!SortValuesSpec}.

Lemma search_players_literal (self : Recommender)
    (query position : option string) (min_overall max_overall : option Z)
    (nation league team : option string) (limit : Z) :
  literal_arg query -> literal_arg position -> literal_arg nation ->
  literal_arg league -> literal_arg team ->
  search_players self query position min_overall max_overall nation league team limit
  = Returns (slice_to limit
               (sort_values_OVR_desc
                  (List.filter
                     (search_matches query position min_overall max_overall
                        nation league team) (data self)))).
Proof.
  intros Hq Hp Hn Hl Ht. unfold search_players.
  rewrite (filter_contains_query query _ Hq). cbn [mbind outcome_bind].
  rewrite (filter_contains_nocase position Position _ Hp). cbn [mbind outcome_bind].
  rewrite filter_overall_at_least, filter_overall_at_most.
  rewrite (filter_contains_nocase nation Nation _ Hn). cbn [mbind outcome_bind].
  rewrite (filter_contains_nocase league League _ Hl). cbn [mbind outcome_bind].
  rewrite (filter_contains_nocase team Team _ Ht). cbn [mbind outcome_bind].
  rewrite !filter_and. do 3 f_equal. apply filter_ext. intros p.
  unfold search_matches. rewrite !andb_assoc. reflexivity.
Qed.


(** A sorted permutation of two rows of different rating. *)
Lemma sort_values_pair (p q : Player) :
  (OVR q < OVR p)%Z -> sort_values_OVR_desc [p; q] = [p; q].
Proof.
  intros Hlt.
  pose proof (sort_values_perm [p; q]) as Hperm.
  pose proof (sort_values_sorted [p; q]) as Hsorted.
  apply Permutation_sym, Permutation_length_2_inv in Hperm as [E|E]; [exact E|].
  rewrite E in Hsorted. apply Sorted_inv in Hsorted as [_ Hhd].
  apply HdRel_inv in Hhd. lia.
Qed.

(** Where the search does what the specification says, for every sort
    that meets the contract of [sort_values]: on ASCII text, when the
    supplied patterns are ASCII without regular-expression special
    characters, [search_players] returns the rows that pass every supplied
    filter (case-insensitive substring tests on name, position, nation,
    league and team; inclusive bounds on the rating), sorted by rating
    descending and, for a limit that is not negative, cut to the first
    [limit] rows.  On the example table, [search_players(min_overall=85)]
    returns A then B. *)
Lemma search_players_conjunction :
  (forall (self : Recommender) (query position : option string)
          (min_overall max_overall : option Z)
          (nation league team : option string) (limit : Z),
      ascii_text (data self) ->
      ascii_arg query -> ascii_arg position -> ascii_arg nation ->
      ascii_arg league -> ascii_arg team ->
      literal_arg query -> literal_arg position -> literal_arg nation ->
      literal_arg league -> literal_arg team -> (0 <= limit)%Z ->
      exists res,
        search_players self query position min_overall max_overall
          nation league team limit = Returns res /\
        res = take (Z.to_nat limit)
                (sort_values_OVR_desc
                   (List.filter
                      (search_matches query position min_overall max_overall
                         nation league team) (data self))) /\
        (forall p, p ∈ res ->
                   p ∈ data self /\
                   search_matches query position min_overall max_overall
                     nation league team p = true) /\
        Sorted (fun p q => (OVR q <= OVR p)%Z) res /\
        (length res <= Z.to_nat limit)%nat) /\
  search_players example_recommender None None (Some 85%Z) None None None None 50
  = Returns [player_A; player_B].
Proof.
  split.
  - intros self query position min_overall max_overall nation league team limit
      _ _ _ _ _ _ Hq Hp Hn Hl Ht Hlimit.
    eexists. split; [apply search_players_literal; assumption|].
    rewrite slice_to_nonneg by exact Hlimit.
    split; [reflexivity|]. split; [|split].
    + intros p Hin. apply subseteq_take in Hin.
      rewrite (sort_values_perm _) in Hin.
      apply list_elem_of_In, filter_In in Hin as [Hin Hm].
      split; [apply list_elem_of_In; exact Hin|exact Hm].
    + apply Sorted_take, sort_values_sorted.
    + rewrite length_take. lia.
  - rewrite search_players_literal by exact I.
    change (List.filter _ (data example_recommender)) with [player_A; player_B].
    rewrite sort_values_pair by (simpl; lia). reflexivity.
Qed.

End Search.

Section SearchExamples.
Import PyStr Py PlayerRecommender.

Lemma insert_by_OVR_perm (p : Player) (df : list Player) :
  Permutation (insert_by_OVR p df) (p :: df).
Proof.
  induction df as [|q df IH]; simpl; [reflexivity|].
  destruct (OVR p <? OVR q)%Z; [|reflexivity].
  rewrite IH. apply perm_swap.
Qed.

Lemma insert_by_OVR_sorted (p : Player) (df : list Player) :
  Sorted (fun p q => (OVR q <= OVR p)%Z) df ->
  Sorted (fun p q => (OVR q <= OVR p)%Z) (insert_by_OVR p df).
Proof.
  induction 1 as [|q df Hs IH Hhd]; simpl; [repeat constructor|].
  destruct (Z.ltb_spec (OVR p) (OVR q)) as [Hlt|Hge].
  - constructor; [exact IH|].
    destruct Hhd as [|r df Hrq]; simpl.
    + constructor. lia.
    + destruct (OVR p <? OVR r)%Z; constructor; [exact Hrq|lia].
  - constructor; [constructor; assumption|]. constructor. exact Hge.
Qed.

Lemma insertion_sort_values_spec : @SortValuesSpec insertion_sort_values.
Proof.
  split; unfold sort_values_OVR_desc, insertion_sort_values.
  - induction df as [|p df IH]; simpl; [reflexivity|].
    rewrite insert_by_OVR_perm, IH. reflexivity.
  - induction df as [|p df IH]; simpl; [constructor|].
    apply insert_by_OVR_sorted, IH.
Qed.

Lemma search_players_conjunction_witness :
  exists res,
    @search_players insertion_sort_values example_recommender
      (Some "b") (Some "st") (Some 80%Z) (Some 99%Z) None None None 5
    = Returns res /\
    (length res <= 5)%nat.
Proof.
  destruct (proj1 (@search_players_conjunction insertion_sort_values
                     insertion_sort_values_spec)
              example_recommender (Some "b") (Some "st") (Some 80%Z) (Some 99%Z)
              None None None 5%Z)
    as (res & Hres & _ & _ & _ & Hlen);
    [repeat (apply Forall_cons; split; [repeat split|]); apply Forall_nil_2
    |reflexivity|reflexivity|exact I|exact I|exact I
    |reflexivity|reflexivity|exact I|exact I|exact I|lia|].
  exists res. split; [exact Hres|exact Hlen].
Defined.

(** Claim C5 at the failing input.  No name of the example table contains
    the query [.], so the substring filter of the claim leaves no row; the
    code returns every row, because the string filters call [str.contains]
    without [regex=False] and [.] is read as a wildcard. *)
Theorem search_players_wildcard :
  @search_players insertion_sort_values example_recommender
    (Some ".") None None None None None None 50
  = Returns [player_A; player_B; player_C] /\
  List.filter (search_matches (Some ".") None None None None None None) example_data
  = [].
Proof. split; reflexivity. Qed.

End SearchExamples.

(** ** The store at serving time *)

Section Frame.
Import Store.

Lemma preserves_ret {A} (a : A) : preserves (mret a).
Proof. intros h. reflexivity. Qed.

Lemma preserves_lift {A} (m : outcome A) : preserves (lift m).
Proof. intros h. reflexivity. Qed.

Lemma preserves_bind {A B} (m : M A) (f : A -> M B) :
  preserves m -> (forall a, preserves (f a)) -> preserves (m ≫= f).
Proof.
  intros Hm Hf h. specialize (Hm h).
  unfold mbind, M_bind. destruct (m h) as [[a|e|] h']; simpl in *; try exact Hm.
  etransitivity; [exact Hm|apply Hf].
Qed.

Lemma preserves_load (l : loc) : preserves (load l).
Proof. intros h. unfold load. destruct (h !! l); reflexivity. Qed.

Lemma fresh_lookup (h : heap) : h !! fresh (dom h) = None.
Proof. apply not_elem_of_dom, is_fresh. Qed.

Lemma preserves_alloc (o : pyobj) : preserves (alloc o).
Proof. intros h. unfold alloc. simpl. apply insert_subseteq, fresh_lookup. Qed.

Lemma preserves_mapM {A B} (f : A -> M B) (l : list A) :
  (forall x, preserves (f x)) -> preserves (mapM f l).
Proof.
  intros Hf. induction l as [|x l IH]; simpl.
  - apply preserves_ret.
  - apply preserves_bind; [apply Hf|]. intros y.
    apply preserves_bind; [exact IH|]. intros k. apply preserves_ret.
Qed.

Lemma preserves_get_frame (l : loc) : preserves (get_frame l).
Proof.
  apply preserves_bind; [apply preserves_load|].
  intros []; first [apply preserves_ret|apply preserves_lift].
Qed.

Lemma preserves_get_array (l : loc) : preserves (get_array l).
Proof.
  apply preserves_bind; [apply preserves_load|].
  intros []; first [apply preserves_ret|apply preserves_lift].
Qed.

Lemma preserves_get_vector (l : loc) : preserves (get_vector l).
Proof.
  apply preserves_bind; [apply preserves_load|].
  intros []; first [apply preserves_ret|apply preserves_lift].
Qed.

Lemma preserves_get_strlist (l : loc) : preserves (get_strlist l).
Proof.
  apply preserves_bind; [apply preserves_load|].
  intros []; first [apply preserves_ret|apply preserves_lift].
Qed.

Lemma preserves_stored_state (self : loc) : preserves (stored_state self).
Proof.
  apply preserves_bind; [apply preserves_load|].
  intros []; try apply preserves_lift.
  apply preserves_bind; [apply preserves_get_frame|]. intros ?.
  apply preserves_bind; [apply preserves_get_array|]. intros ?.
  apply preserves_bind; [apply preserves_get_strlist|]. intros ?.
  apply preserves_bind; [apply preserves_get_array|]. intros ?.
  apply preserves_ret.
Qed.

Lemma preserves_to_dict (row : Player) : preserves (to_dict row).
Proof. apply preserves_alloc. Qed.

(** A new dict and a key written into it: the write goes to the object
    just made. *)
Lemma preserves_scored_dict (row : Player) (key : string) (score : R) :
  preserves (player_data ← to_dict row;
             _ ← dict_setitem player_data key score;
             mret player_data).
Proof.
  intros h. unfold to_dict, alloc, dict_setitem, mbind, M_bind, mret, M_ret.
  cbv beta iota zeta. rewrite lookup_insert_eq. cbv beta iota zeta.
  cbn [snd]. rewrite insert_insert_eq.
  apply insert_subseteq, fresh_lookup.
Qed.

Lemma preserves_frame_step (f : list Player -> outcome (list Player)) (df : loc) :
  preserves (frame_step f df).
Proof.
  apply preserves_bind; [apply preserves_get_frame|]. intros rows.
  apply preserves_bind; [apply preserves_lift|]. intros rows'.
  apply preserves_alloc.
Qed.

Lemma preserves_to_dict_records (df : loc) : preserves (to_dict_records df).
Proof.
  apply preserves_bind; [apply preserves_get_frame|]. intros rows.
  apply preserves_mapM. intros row. apply preserves_to_dict.
Qed.

Lemma preserves_filter_step arg prepare case col (df : loc) :
  preserves (filter_step arg prepare case col df).
Proof.
  unfold filter_step. destruct (PyStr.supplied arg);
    [apply preserves_frame_step|apply preserves_ret].
Qed.

Lemma preserves_overall_step bound keep (df : loc) :
  preserves (overall_step bound keep df).
Proof.
  unfold overall_step. destruct bound;
    [apply preserves_frame_step|apply preserves_ret].
Qed.

(** The writes of the target loop stay in the array they fill. *)
Lemma fill_target_store (t : gmap string R) (features : list (nat * string)) :
  forall (h : heap) (tv : loc) (vs : list R),
    h !! tv = Some (PyVector vs) ->
    exists vs', snd (fill_target tv t features h) = <[tv := PyVector vs']> h.
Proof.
  induction features as [|[i feature] features IH]; intros h tv vs Hvs; simpl.
  - exists vs. symmetry. apply insert_id. exact Hvs.
  - unfold mbind, M_bind, vector_setitem. rewrite Hvs.
    destruct (i <? length vs)%nat; simpl.
    + destruct (IH (<[tv := PyVector (<[i := default 50%R (t !! feature)]> vs)]> h) tv _
                  (lookup_insert_eq _ _ _)) as [vs' Hvs'].
      exists vs'. rewrite Hvs'. apply insert_insert_eq.
    + exists vs. symmetry. apply insert_id. exact Hvs.
Qed.

Lemma preserves_alloc_fill {A} (vs : list R) (t : gmap string R)
    (features : list (nat * string)) (rest : loc -> M A) :
  (forall tv, preserves (rest tv)) ->
  preserves (tv ← alloc (PyVector vs); _ ← fill_target tv t features; rest tv).
Proof.
  intros Hrest h. unfold mbind at 1, M_bind at 1, alloc. simpl.
  set (tv := fresh (dom h)).
  destruct (fill_target_store t features (<[tv := PyVector vs]> h) tv vs
              (lookup_insert_eq _ _ _)) as [vs' Hvs'].
  rewrite insert_insert_eq in Hvs'.
  assert (Hsub : h ⊆ <[tv := PyVector vs']> h)
    by (apply insert_subseteq, fresh_lookup).
  unfold mbind, M_bind.
  destruct (fill_target tv t features (<[tv := PyVector vs]> h)) as [[[]|e|] h1];
    simpl in Hvs'; subst h1; simpl; try exact Hsub.
  etransitivity; [exact Hsub|apply Hrest].
Qed.


(** The five serving-time methods preserve the store. *)
Lemma preserves_recommend_similar self name n sp mad :
  preserves (recommend_similar self name n sp mad).
Proof.
  apply preserves_bind; [apply preserves_stored_state|]. intros me.
  apply preserves_bind; [apply preserves_lift|]. intros rows.
  apply preserves_mapM. intros [idx score].
  apply preserves_bind; [apply preserves_lift|]. intros row.
  apply preserves_scored_dict.
Qed.

Lemma preserves_recommend_by_attributes self t n position :
  preserves (recommend_by_attributes self t n position).
Proof.
  apply preserves_bind; [apply preserves_stored_state|]. intros me.
  apply preserves_alloc_fill. intros tv.
  apply preserves_bind; [apply preserves_get_vector|]. intros v.
  apply preserves_bind; [apply preserves_lift|]. intros w.
  apply preserves_bind; [apply preserves_alloc|]. intros tv'.
  apply preserves_bind; [apply preserves_get_array|]. intros target.
  apply preserves_bind; [apply preserves_lift|]. intros K.
  apply preserves_bind; [apply preserves_lift|]. intros sims.
  apply preserves_bind; [apply preserves_lift|]. intros cands.
  apply preserves_mapM. intros [idx score].
  apply preserves_bind; [apply preserves_lift|]. intros row.
  apply preserves_scored_dict.
Qed.

Lemma preserves_get_player_details self name :
  preserves (get_player_details self name).
Proof.
  apply preserves_bind; [apply preserves_stored_state|]. intros me.
  apply preserves_bind; [apply preserves_lift|]. intros [i|]; [|apply preserves_ret].
  apply preserves_bind; [apply preserves_lift|]. intros row.
  apply preserves_bind; [apply preserves_to_dict|]. intros d. apply preserves_ret.
Qed.

Context `{SortValues}.

Lemma preserves_search_players self query position min_overall max_overall
    nation league team limit :
  preserves (search_players self query position min_overall max_overall
               nation league team limit).
Proof.
  apply preserves_bind; [apply preserves_stored_state|]. intros me.
  apply preserves_bind; [apply preserves_alloc|]. intros df0.
  apply preserves_bind; [apply preserves_filter_step|]. intros df1.
  apply preserves_bind; [apply preserves_filter_step|]. intros df2.
  apply preserves_bind; [apply preserves_overall_step|]. intros df3.
  apply preserves_bind; [apply preserves_overall_step|]. intros df4.
  apply preserves_bind; [apply preserves_filter_step|]. intros df5.
  apply preserves_bind; [apply preserves_filter_step|]. intros df6.
  apply preserves_bind; [apply preserves_filter_step|]. intros df7.
  apply preserves_bind; [apply preserves_frame_step|]. intros df8.
  apply preserves_bind; [apply preserves_frame_step|]. intros df9.
  apply preserves_to_dict_records.
Qed.

Lemma preserves_get_top_players self n position :
  preserves (get_top_players self n position).
Proof.
  apply preserves_bind; [apply preserves_stored_state|]. intros me.
  apply preserves_bind; [apply preserves_alloc|]. intros df0.
  apply preserves_bind.
  { destruct (PyStr.supplied position);
      [apply preserves_frame_step|apply preserves_ret]. }
  intros df1.
  apply preserves_bind; [apply preserves_frame_step|]. intros df2.
  apply preserves_bind; [apply preserves_frame_step|]. intros df3.
  apply preserves_to_dict_records.
Qed.

(** Reading the stored state. *)
Lemma stored_state_at (h : heap) (self : loc) (me : Recommender) :
  recommender_at h self me -> stored_state self h = (Returns me, h).
Proof.
  intros (d & nf & fn & sm & Hself & Hd & Hnf & Hfn & Hsm).
  unfold stored_state, get_frame, get_array, get_strlist, load, mbind, M_bind,
    mret, M_ret.
  rewrite Hself, Hd, Hnf, Hfn, Hsm. destruct me; reflexivity.
Qed.

Lemma recommender_at_weaken (h h' : heap) (self : loc) (me : Recommender) :
  h ⊆ h' -> recommender_at h self me -> recommender_at h' self me.
Proof.
  intros Hsub (d & nf & fn & sm & Hself & Hd & Hnf & Hfn & Hsm).
  exists d, nf, fn, sm.
  repeat split; eapply lookup_weaken; eauto.
Qed.

(** Claim C9.  When the store holds a recommender with contents [me] at
    [self], each of the five serving-time methods, whatever its arguments
    and its outcome, leaves every object that was in the store as it was;
    in particular the dataset, the normalized feature matrix, the
    feature-name list and the similarity matrix read from [self] afterwards
    are those of [me]. *)
Theorem serving_leaves_state_unchanged
    (h : heap) (self : loc) (me : Recommender) :
  recommender_at h self me ->
  (forall name n same_position max_age_diff,
      let h' := snd (recommend_similar self name n same_position max_age_diff h) in
      h ⊆ h' /\ recommender_at h' self me /\ stored_state self h' = (Returns me, h')) /\
  (forall targets n position,
      let h' := snd (recommend_by_attributes self targets n position h) in
      h ⊆ h' /\ recommender_at h' self me /\ stored_state self h' = (Returns me, h')) /\
  (forall query position min_overall max_overall nation league team limit,
      let h' := snd (search_players self query position min_overall max_overall
                       nation league team limit h) in
      h ⊆ h' /\ recommender_at h' self me /\ stored_state self h' = (Returns me, h')) /\
  (forall n position,
      let h' := snd (get_top_players self n position h) in
      h ⊆ h' /\ recommender_at h' self me /\ stored_state self h' = (Returns me, h')) /\
  (forall name,
      let h' := snd (get_player_details self name h) in
      h ⊆ h' /\ recommender_at h' self me /\ stored_state self h' = (Returns me, h')).
Proof.
  intros Hat.
  assert (Hkeep : forall h', h ⊆ h' ->
            h ⊆ h' /\ recommender_at h' self me /\
            stored_state self h' = (Returns me, h')).
  { intros h' Hsub. split; [exact Hsub|].
    pose proof (recommender_at_weaken h h' self me Hsub Hat) as Hat'.
    split; [exact Hat'|apply stored_state_at, Hat']. }
  split; [|split; [|split; [|split]]]; intros; apply Hkeep.
  - exact (preserves_recommend_similar _ _ _ _ _ h).
  - exact (preserves_recommend_by_attributes _ _ _ _ h).
  - exact (preserves_search_players _ _ _ _ _ _ _ _ _ h).
  - exact (preserves_get_top_players _ _ _ h).
  - exact (preserves_get_player_details _ _ h).
Qed.

End Frame.

Section FrameExample.
Import Store.

Lemma example_store_recommender : recommender_at example_store 5 example_recommender.
Proof. exists 1%positive, 2%positive, 3%positive, 4%positive. repeat split. Qed.

Lemma serving_leaves_state_unchanged_witness :
  let h' := snd (recommend_similar 5 "A" 2 true None example_store) in
  example_store ⊆ h' /\
  recommender_at h' 5 example_recommender /\
  stored_state 5 h' = (Returns example_recommender, h').
Proof.
  apply (proj1 (@serving_leaves_state_unchanged insertion_sort_values
                  example_store 5 example_recommender example_store_recommender)).
Defined.

End FrameExample.

(** ** The store-level methods compute the value-level results *)

Section Refinement.
Import Store.

Lemma bind_run {A B} (m : M A) (f : A -> M B) (h : heap) :
  (m ≫= f) h =
  match m h with
  | (Returns a, h') => f a h'
  | (Raises e, h') => (Raises e, h')
  | (OutsideFragment, h') => (OutsideFragment, h')
  end.
Proof. reflexivity. Qed.

Lemma scored_dict_run (row : Player) (key : string) (score : R) (h : heap) :
  (player_data ← to_dict row;
   _ ← dict_setitem player_data key score;
   mret player_data) h
  = (Returns (fresh (dom h)),
     <[fresh (dom h) := PyDict row {[ key := score ]}]> h).
Proof.
  unfold to_dict, alloc, dict_setitem, mbind, M_bind, mret, M_ret.
  cbv beta iota zeta. rewrite lookup_insert_eq. cbv beta iota zeta.
  rewrite insert_insert_eq. reflexivity.
Qed.

Lemma Returns_bind_r {A} (o : outcome A) : (o ≫= Returns) = o.
Proof. destruct o; reflexivity. Qed.

Lemma agrees_bind {A A' B B'} (m : M A) (o : outcome B)
    (f : A -> M A') (g : B -> outcome B')
    (rel1 : heap -> A -> B -> Prop) (rel2 : heap -> A' -> B' -> Prop) (h : heap) :
  agrees m o rel1 h ->
  (forall a b, rel1 (snd (m h)) a b -> agrees (f a) (g b) rel2 (snd (m h))) ->
  agrees (m ≫= f) (o ≫= g) rel2 h.
Proof.
  unfold agrees. destruct o as [b|e|]; cbn [mbind outcome_bind].
  - intros (a & Ha & Hr) Hk. specialize (Hk a b Hr). rewrite bind_run.
    destruct (m h) as [o' h1]; simpl in *; subst o'. exact Hk.
  - intros Ha _. rewrite bind_run.
    destruct (m h) as [o' h1]; simpl in *; subst o'. reflexivity.
  - intros Ha _. rewrite bind_run.
    destruct (m h) as [o' h1]; simpl in *; subst o'. reflexivity.
Qed.

Lemma agrees_lift {A} (o : outcome A) (h : heap) :
  agrees (lift o) o (fun h' a b => a = b) h.
Proof. unfold agrees, lift. destruct o; simpl; eauto. Qed.

Lemma agrees_ret {A B} (a : A) (b : B) (rel : heap -> A -> B -> Prop) (h : heap) :
  rel h a b -> agrees (mret a) (Returns b) rel h.
Proof. intros Hr. exists a. split; [reflexivity|exact Hr]. Qed.

Lemma agrees_weaken {A B} (m : M A) (o : outcome B)
    (rel rel' : heap -> A -> B -> Prop) (h : heap) :
  (forall a b, rel (snd (m h)) a b -> rel' (snd (m h)) a b) ->
  agrees m o rel h -> agrees m o rel' h.
Proof.
  unfold agrees. intros Hw. destruct o as [b|e|]; [|tauto|tauto].
  intros (a & Ha & Hr). exists a. split; [exact Ha|apply Hw, Hr].
Qed.

(** A loop body that preserves the store and agrees with its value-level
    counterpart yields a loop that agrees, element by element. *)
Lemma agrees_mapM {X A B} (f : X -> M A) (g : X -> outcome B)
    (P : heap -> A -> B -> Prop) (l : list X) :
  (forall x, preserves (f x)) ->
  (forall h h' a b, h ⊆ h' -> P h a b -> P h' a b) ->
  (forall x h, agrees (f x) (g x) P h) ->
  forall h,
    agrees (mapM f l) (mapM g l) (fun h' xs ys => Forall2 (P h') xs ys) h.
Proof.
  intros Hpres Hmono Hfg. induction l as [|x l IH]; intros h.
  - apply agrees_ret. constructor.
  - cbn [mapM]. eapply agrees_bind; [apply Hfg|].
    intros a b Hab. cbv beta.
    set (h1 := snd (f x h)) in *.
    eapply agrees_bind; [apply IH|].
    intros xs ys Hxs. cbv beta. apply agrees_ret.
    constructor; [|exact Hxs].
    eapply Hmono; [|exact Hab]. apply preserves_mapM. exact Hpres.
Qed.

(** Building the scored dicts of the selected rows. *)
Lemma scored_dicts_agree {B} (mk : Player -> R -> B) (pl : B -> Player) (sc : B -> R)
    (df : list Player) (key : string) (rows : list (nat * R)) :
  (forall p s, pl (mk p s) = p /\ sc (mk p s) = s) ->
  forall h,
    agrees
      (mapM (fun '(idx, score) =>
               row ← lift (Py.iloc df idx);
               player_data ← to_dict row;
               _ ← dict_setitem player_data key score;
               mret player_data) rows)
      (mapM (fun '(idx, score) =>
               player_data ← Py.iloc df idx;
               Returns (mk player_data score)) rows)
      (fun h' locs recs =>
         Forall2 (fun l rec => scored_dict_at key h' l (pl rec) (sc rec)) locs recs)
      h.
Proof.
  intros Hmk. apply agrees_mapM.
  - intros [idx score]. apply preserves_bind; [apply preserves_lift|].
    intros row. apply preserves_scored_dict.
  - intros h h' l rec Hsub Hl. unfold scored_dict_at in *.
    eapply lookup_weaken; eauto.
  - intros [idx score] h. eapply agrees_bind; [apply agrees_lift|].
    intros p p' <-. unfold lift at 1. cbn [snd].
    unfold agrees. rewrite scored_dict_run. eexists. split; [reflexivity|].
    cbn [snd]. destruct (Hmk p score) as [-> ->].
    unfold scored_dict_at. apply lookup_insert_eq.
Qed.

(** A step that returns without a value-level counterpart. *)
Lemma agrees_step {A A' B} (m : M A) (f : A -> M A') (o : outcome B)
    (rel : heap -> A' -> B -> Prop) (h h1 : heap) (a : A) :
  m h = (Returns a, h1) -> agrees (f a) o rel h1 -> agrees (m ≫= f) o rel h.
Proof.
  intros Hm. unfold agrees. rewrite bind_run, Hm. tauto.
Qed.

Lemma mapM_Returns_id {A} (l : list A) : mapM (M := outcome) Returns l = Returns l.
Proof.
  induction l as [|x l IH]; [reflexivity|].
  cbn [mapM mbind outcome_bind]. rewrite IH. reflexivity.
Qed.

Lemma get_frame_run (h : heap) (df : loc) (rows : list Player) :
  frame_at h df rows -> get_frame df h = (Returns rows, h).
Proof.
  intros Hdf. unfold get_frame, load, mbind, M_bind. rewrite Hdf. reflexivity.
Qed.

Lemma alloc_frame_agrees (rows : list Player) (h : heap) :
  agrees (alloc (PyFrame rows)) (Returns rows) frame_at h.
Proof.
  eexists. split; [reflexivity|]. unfold frame_at, alloc. cbn [snd].
  apply lookup_insert_eq.
Qed.

Lemma frame_step_agrees (f : list Player -> outcome (list Player))
    (h : heap) (df : loc) (rows : list Player) :
  frame_at h df rows -> agrees (frame_step f df) (f rows) frame_at h.
Proof.
  intros Hdf. unfold frame_step.
  eapply agrees_step; [apply get_frame_run, Hdf|].
  unfold agrees. rewrite bind_run. unfold lift.
  destruct (f rows) as [rows'| |]; [|reflexivity|reflexivity].
  apply alloc_frame_agrees.
Qed.


Lemma supplied_false (arg : option string) (prepare : string -> string) (case : bool)
    (col : Player -> string) (rows : list Player) :
  PyStr.supplied arg = false ->
  PlayerRecommender.filter_contains arg prepare case col rows = Returns rows.
Proof.
  unfold PyStr.supplied, PlayerRecommender.filter_contains.
  destruct arg as [pat|]; [|reflexivity]. intros ->. reflexivity.
Qed.

Lemma filter_step_agrees arg prepare case col (h : heap) (df : loc)
    (rows : list Player) :
  frame_at h df rows ->
  agrees (filter_step arg prepare case col df)
    (PlayerRecommender.filter_contains arg prepare case col rows) frame_at h.
Proof.
  intros Hdf. unfold filter_step.
  destruct (PyStr.supplied arg) eqn:Hs.
  - apply frame_step_agrees, Hdf.
  - rewrite (supplied_false _ _ _ _ _ Hs). apply agrees_ret, Hdf.
Qed.

Lemma overall_step_agrees bound keep (h : heap) (df : loc) (rows : list Player) :
  frame_at h df rows ->
  agrees (overall_step bound keep df)
    (Returns (PlayerRecommender.filter_overall bound keep rows)) frame_at h.
Proof.
  intros Hdf. unfold overall_step. destruct bound as [b|].
  - apply (frame_step_agrees
             (fun rows => Returns (PlayerRecommender.filter_overall (Some b) keep rows))).
    exact Hdf.
  - apply agrees_ret, Hdf.
Qed.

Lemma to_dict_records_agrees (h : heap) (df : loc) (rows : list Player) :
  frame_at h df rows ->
  agrees (to_dict_records df) (Returns rows)
    (fun h' locs ps => Forall2 (dict_at h') locs ps) h.
Proof.
  intros Hdf. unfold to_dict_records.
  eapply agrees_step; [apply get_frame_run, Hdf|].
  rewrite <- (mapM_Returns_id rows).
  apply agrees_mapM.
  - intros row. apply preserves_to_dict.
  - intros h1 h2 l p Hsub Hl. unfold dict_at in *. eapply lookup_weaken; eauto.
  - intros row h1. eexists. split; [reflexivity|].
    unfold dict_at, to_dict, alloc. cbn [snd]. apply lookup_insert_eq.
Qed.

(** *** The methods agree with their value-level counterparts *)

Lemma recommend_similar_agrees (h : heap) (self : loc) (me : Recommender)
    name n same_position max_age_diff :
  recommender_at h self me ->
  agrees (recommend_similar self name n same_position max_age_diff)
    (PlayerRecommender.recommend_similar me name n same_position max_age_diff)
    (fun h' locs recs =>
       Forall2 (fun l rec =>
                  scored_dict_at "similarity_score" h' l
                    (player_data rec) (similarity_score rec)) locs recs)
    h.
Proof.
  intros Hat. unfold recommend_similar, PlayerRecommender.recommend_similar.
  eapply agrees_step; [apply stored_state_at, Hat|].
  eapply agrees_bind; [apply agrees_lift|].
  intros rows ? <-. unfold lift at 1. cbn [snd].
  apply (scored_dicts_agree mkRecommendation player_data similarity_score).
  intros p s. split; reflexivity.
Qed.

Lemma get_player_details_agrees (h : heap) (self : loc) (me : Recommender) name :
  recommender_at h self me ->
  agrees (get_player_details self name)
    (PlayerRecommender.get_player_details me name)
    (fun h' l p =>
       match l, p with
       | Some l, Some p => dict_at h' l p
       | None, None => True
       | _, _ => False
       end)
    h.
Proof.
  intros Hat. unfold get_player_details, PlayerRecommender.get_player_details.
  eapply agrees_step; [apply stored_state_at, Hat|].
  eapply agrees_bind; [apply agrees_lift|].
  intros idx ? <-. unfold lift at 1. cbn [snd].
  destruct idx as [i|]; [|apply agrees_ret; exact I].
  unfold agrees, Py.iloc, lift. rewrite bind_run.
  destruct (data me !! i) as [p|]; cbn [fmap outcome_fmap]; [|reflexivity].
  eexists. split; [reflexivity|].
  unfold dict_at, to_dict, alloc, mbind, M_bind, mret, M_ret. cbn [snd].
  apply lookup_insert_eq.
Qed.


(** The target loop writes [target_attributes.get(feature, 50)] at every
    position of the array it fills. *)
Lemma fill_target_run (t : gmap string R) (names : list string) :
  forall (h : heap) (tv : loc) (pre suf : list R),
    h !! tv = Some (PyVector (pre ++ suf)) ->
    length suf = length names ->
    fill_target tv t (zip (seq (length pre) (length names)) names) h
    = (Returns tt,
       <[tv := PyVector (pre ++ map (fun f => default 50%R (t !! f)) names)]> h).
Proof.
  induction names as [|name names IH]; intros h tv pre suf Hvs Hlen.
  - destruct suf; [|discriminate]. simpl. f_equal.
    symmetry. apply insert_id. exact Hvs.
  - destruct suf as [|x suf]; [discriminate|]. injection Hlen as Hlen.
    cbn [length seq zip_with fill_target]. rewrite bind_run.
    unfold vector_setitem. rewrite Hvs.
    assert (Hlt : (length pre <? length (pre ++ x :: suf))%nat = true).
    { apply Nat.ltb_lt. rewrite length_app. simpl. lia. }
    rewrite Hlt.
    rewrite insert_app_r_alt by lia. rewrite Nat.sub_diag.
    change (<[0%nat := default 50%R (t !! name)]> (x :: suf))
      with (default 50%R (t !! name) :: suf).
    set (v := default 50%R (t !! name)).
    set (h1 := <[tv := PyVector (pre ++ v :: suf)]> h).
    specialize (IH h1 tv (app pre [v]) suf).
    rewrite length_app in IH. simpl in IH.
    rewrite Nat.add_1_r in IH. rewrite IH.
    + unfold h1. rewrite insert_insert_eq. cbn [map].
      rewrite <- app_assoc. reflexivity.
    + unfold h1. rewrite lookup_insert_eq, <- app_assoc. reflexivity.
    + exact Hlen.
Qed.

Lemma recommend_by_attributes_chain (me : Recommender) (t : gmap string R) (n : Z)
    (position : option string) :
  PlayerRecommender.recommend_by_attributes me t n position
  = (w ← PlayerRecommender.normalize_target (PlayerRecommender.target_vector me t);
     K ← Sklearn.cosine_similarity [w] (normalized_features me);
     similarities ← Numpy.getitem K 0;
     candidates ← PlayerRecommender.attribute_candidates me position
                    (Py.enumerate similarities);
     mapM (fun '(idx, score) =>
             player_data ← Py.iloc (data me) idx;
             Returns (mkAttributeMatch player_data score))
          (Py.slice_to n (Py.sort_by_score_desc candidates))).
Proof.
  unfold PlayerRecommender.recommend_by_attributes, PlayerRecommender.attribute_rows.
  destruct (PlayerRecommender.normalize_target _) as [w| |]; try reflexivity.
  cbn [mbind outcome_bind].
  destruct (Sklearn.cosine_similarity _ _) as [K| |]; try reflexivity.
  cbn [mbind outcome_bind].
  destruct (Numpy.getitem K 0) as [sims| |]; try reflexivity.
  cbn [mbind outcome_bind].
  destruct (PlayerRecommender.attribute_candidates _ _ _) as [cands| |]; reflexivity.
Qed.

Lemma recommend_by_attributes_agrees (h : heap) (self : loc) (me : Recommender)
    (t : gmap string R) (n : Z) (position : option string) :
  recommender_at h self me ->
  agrees (recommend_by_attributes self t n position)
    (PlayerRecommender.recommend_by_attributes me t n position)
    (fun h' locs recs =>
       Forall2 (fun l rec =>
                  scored_dict_at "match_score" h' l
                    (matched_player rec) (match_score rec)) locs recs)
    h.
Proof.
  intros Hat. unfold recommend_by_attributes.
  rewrite recommend_by_attributes_chain.
  eapply agrees_step; [apply stored_state_at, Hat|].
  eapply agrees_step; [reflexivity|].
  set (tv := fresh (dom h)).
  set (h1 := <[tv := PyVector (replicate (length (feature_names me)) 0%R)]> h).
  eapply agrees_step.
  { apply (fill_target_run t (feature_names me) h1 tv []
             (replicate (length (feature_names me)) 0%R)).
    - apply lookup_insert_eq.
    - apply length_replicate. }
  cbn [app]. unfold h1. rewrite insert_insert_eq.
  eapply agrees_step.
  { unfold get_vector, load. rewrite bind_run, lookup_insert_eq. reflexivity. }
  fold (PlayerRecommender.target_vector me t).
  eapply agrees_bind; [apply agrees_lift|].
  intros w ? <-. unfold lift at 1. cbn [snd].
  eapply agrees_step; [reflexivity|].
  eapply agrees_step.
  { unfold get_array, load. rewrite bind_run, lookup_insert_eq. reflexivity. }
  eapply agrees_bind; [apply agrees_lift|].
  intros K ? <-. unfold lift at 1. cbn [snd].
  eapply agrees_bind; [apply agrees_lift|].
  intros sims ? <-. unfold lift at 1. cbn [snd].
  eapply agrees_bind; [apply agrees_lift|].
  intros cands ? <-. unfold lift at 1. cbn [snd].
  apply (scored_dicts_agree mkAttributeMatch matched_player match_score).
  intros p s. split; reflexivity.
Qed.

Section Sorted.
Context `{SortValues}.

Lemma search_players_agrees (h : heap) (self : loc) (me : Recommender)
    query position min_overall max_overall nation league team limit :
  recommender_at h self me ->
  agrees (search_players self query position min_overall max_overall
            nation league team limit)
    (PlayerRecommender.search_players me query position min_overall max_overall
       nation league team limit)
    (fun h' locs ps => Forall2 (dict_at h') locs ps) h.
Proof.
  intros Hat. unfold search_players.
  eapply agrees_step; [apply stored_state_at, Hat|].
  change (PlayerRecommender.search_players me query position min_overall max_overall
            nation league team limit)
    with (df ← Returns (data me);
          df ← PlayerRecommender.filter_contains query PyStr.lower true
                 (fun p => PyStr.lower (Name p)) df;
          df ← PlayerRecommender.filter_contains position (fun pat => pat) false
                 Position df;
          df ← Returns (PlayerRecommender.filter_overall min_overall Z.geb df);
          df ← Returns (PlayerRecommender.filter_overall max_overall Z.leb df);
          df ← PlayerRecommender.filter_contains nation (fun pat => pat) false Nation df;
          df ← PlayerRecommender.filter_contains league (fun pat => pat) false League df;
          df ← PlayerRecommender.filter_contains team (fun pat => pat) false Team df;
          df ← Returns (sort_values_OVR_desc df);
          df ← Returns (Py.slice_to limit df);
          Returns df).
  eapply agrees_bind; [apply alloc_frame_agrees|]. intros df0 rows0 H0. cbv beta.
  eapply agrees_bind; [apply filter_step_agrees, H0|]. intros df1 rows1 H1. cbv beta.
  eapply agrees_bind; [apply filter_step_agrees, H1|]. intros df2 rows2 H2. cbv beta.
  eapply agrees_bind; [apply overall_step_agrees, H2|]. intros df3 rows3 H3. cbv beta.
  eapply agrees_bind; [apply overall_step_agrees, H3|]. intros df4 rows4 H4. cbv beta.
  eapply agrees_bind; [apply filter_step_agrees, H4|]. intros df5 rows5 H5. cbv beta.
  eapply agrees_bind; [apply filter_step_agrees, H5|]. intros df6 rows6 H6. cbv beta.
  eapply agrees_bind; [apply filter_step_agrees, H6|]. intros df7 rows7 H7. cbv beta.
  eapply agrees_bind;
    [apply (frame_step_agrees (fun rows => Returns (sort_values_OVR_desc rows))), H7|].
  intros df8 rows8 H8. cbv beta.
  eapply agrees_bind;
    [apply (frame_step_agrees (fun rows => Returns (Py.slice_to limit rows))), H8|].
  intros df9 rows9 H9. cbv beta.
  apply to_dict_records_agrees, H9.
Qed.

Lemma get_top_players_agrees (h : heap) (self : loc) (me : Recommender) n position :
  recommender_at h self me ->
  agrees (get_top_players self n position)
    (Returns (PlayerRecommender.get_top_players me n position))
    (fun h' locs ps => Forall2 (dict_at h') locs ps) h.
Proof.
  intros Hat. unfold get_top_players.
  eapply agrees_step; [apply stored_state_at, Hat|].
  set (keep := fun rows : list Player =>
                 Py.boolean_index
                   (map (fun p => String.eqb (Position_Category p) (default "" position))
                      rows) rows).
  change (Returns (PlayerRecommender.get_top_players me n position))
    with (df ← Returns (data me);
          df ← Returns (match position with
                        | Some pos =>
                            if PyStr.truthy pos
                            then Py.boolean_index
                                   (map (fun p => String.eqb (Position_Category p) pos) df)
                                   df
                            else df
                        | None => df
                        end);
          df ← Returns (sort_values_OVR_desc df);
          df ← Returns (Py.slice_to n df);
          Returns df).
  eapply agrees_bind; [apply alloc_frame_agrees|]. intros df0 rows0 H0. cbv beta.
  eapply agrees_bind.
  { instantiate (1 := frame_at).
    destruct position as [pos|]; cbn [PyStr.supplied]; [|apply agrees_ret, H0].
    destruct (PyStr.truthy pos); [|apply agrees_ret, H0].
    apply (frame_step_agrees (fun rows => Returns (keep rows))), H0. }
  intros df1 rows1 H1. cbv beta.
  eapply agrees_bind;
    [apply (frame_step_agrees (fun rows => Returns (sort_values_OVR_desc rows))), H1|].
  intros df2 rows2 H2. cbv beta.
  eapply agrees_bind;
    [apply (frame_step_agrees (fun rows => Returns (Py.slice_to n rows))), H2|].
  intros df3 rows3 H3. cbv beta.
  apply to_dict_records_agrees, H3.
Qed.

End Sorted.

End Refinement.

(** ** The example of the specification, end to end *)

Section Examples.
Import PyStr Py Numpy Sklearn PlayerRecommender DataProcessor.
Local Open Scope R_scope.

(** The example feature matrix is the normalization of the example rows. *)
Example example_features_normalized :
  normalize_features (extract_features example_data) = Returns example_features.
Proof.
  unfold example_data, extract_features. cbn [map].
  rewrite normalize_features_cons. cbv zeta.
  cbn [extract_features map example_data Features player_A player_B player_C
         example_player zip_with fold_left].
  rewrite (Rmin_right 90 80), (Rmin_right 80 40), (Rmin_left 50 60),
    (Rmin_left 50 90) by lra.
  rewrite (Rmax_left 90 80), (Rmax_left 90 40), (Rmax_right 50 60),
    (Rmax_right 60 90) by lra.
  destruct (Req_dec_T (90 - 40) 0); [lra|].
  destruct (Req_dec_T (90 - 50) 0); [lra|].
  unfold example_features.
  repeat (f_equal; try lra).
Qed.


(** The example of the specification: the players similar to A, among those
    of the same position category, are B alone. *)
Example recommend_similar_example :
  exists s,
    recommend_similar example_recommender "A" 2 true None
    = Returns [mkRecommendation player_B s].
Proof. eexists. reflexivity. Qed.

End Examples.

(** ** Ranking of the recommendations *)

Section Ranking.
Import PyStr Py Numpy Sklearn PlayerRecommender.
Local Open Scope R_scope.

Lemma similar_candidates_filter self player_idx pos age sp mad (scores : list (nat * R)) :
  Forall (fun row => (fst row < length (data self))%nat) scores ->
  similar_candidates self player_idx pos age sp mad scores
  = Returns (List.filter
               (fun row => from_option (eligible player_idx pos age sp mad (fst row))
                             false (data self !! fst row)) scores).
Proof.
  induction 1 as [|[idx score] scores Hlt _ IH]; [reflexivity|].
  cbn [similar_candidates List.filter fst]. simpl in Hlt. unfold iloc.
  destruct (lookup_lt_is_Some_2 _ _ Hlt) as [candidate Hc]. rewrite Hc.
  cbn [mbind outcome_bind from_option]. rewrite IH. unfold eligible.
  destruct (idx =? player_idx)%nat; [reflexivity|]. cbn [negb andb].
  destruct (sp && truthy pos && negb (Position_Category candidate =? pos)%string);
    [reflexivity|]. cbn [negb andb].
  destruct (match mad with Some d => (d <? Z.abs (Age candidate - age))%Z
                      | None => false end); reflexivity.
Qed.

Lemma insert_by_score_sorted {A} (x : A * R) (l : list (A * R)) :
  Sorted by_score_desc l -> Sorted by_score_desc (insert_by_score x l).
Proof.
  induction 1 as [|y l Hs IH Hhd]; simpl; [repeat constructor|].
  destruct (Rlt_dec (snd x) (snd y)) as [Hlt|Hge].
  - constructor; [exact IH|].
    destruct Hhd as [|z l Hzy]; simpl.
    + constructor. unfold by_score_desc. lra.
    + destruct (Rlt_dec (snd x) (snd z)); constructor;
        [exact Hzy|unfold by_score_desc; lra].
  - constructor; [constructor; assumption|]. constructor.
    unfold by_score_desc. lra.
Qed.

Lemma sort_by_score_desc_sorted {A} (l : list (A * R)) :
  Sorted by_score_desc (sort_by_score_desc l).
Proof.
  unfold sort_by_score_desc. induction l as [|x l IH]; simpl; [constructor|].
  apply insert_by_score_sorted, IH.
Qed.

Lemma slice_to_take {A} (n : Z) (l : list A) : exists k, slice_to n l = take k l.
Proof. unfold slice_to. destruct (0 <=? n)%Z; eauto. Qed.

Lemma by_score_desc_trans {A} : Transitive (@by_score_desc A).
Proof. intros x y z. unfold by_score_desc. lra. Qed.

(** In a list sorted by descending score, what [take] leaves out does not
    score higher than what it keeps. *)
Lemma sorted_take_drop {A} (l : list (A * R)) (k : nat) (x y : A * R) :
  Sorted by_score_desc l -> x ∈ take k l -> y ∈ drop k l -> by_score_desc x y.
Proof.
  intros Hs. apply Sorted_StronglySorted in Hs; [|apply by_score_desc_trans].
  revert k. induction Hs as [|z l Hs IH Hall]; intros k Hx Hy.
  - rewrite take_nil in Hx. inversion Hx.
  - destruct k as [|k]; [inversion Hx|]. simpl in Hx, Hy.
    apply elem_of_cons in Hx as [->|Hx].
    + rewrite List.Forall_forall in Hall. apply Hall.
      apply list_elem_of_In. eapply (subseteq_drop k l); exact Hy.
    + eapply IH; eauto.
Qed.

Lemma recommend_similar_explicit self player_name n sp mad i player :
  fitted self ->
  _find_player_index self player_name = Returns (Some i) ->
  data self !! i = Some player ->
  exists scores recs,
    similarity_matrix self !! i = Some scores /\
    recommend_similar self player_name n sp mad = Returns recs /\
    Forall2 (fun row rec => data self !! fst row = Some (player_data rec) /\
                            similarity_score rec = snd row)
      (slice_to n (sort_by_score_desc (similar_pool self i player sp mad scores)))
      recs.
Proof.
  intros Hfit Hfind Hplayer.
  destruct (fitted_similarity_shape self Hfit) as [Hlen Hrows].
  pose proof (find_player_index_lt _ _ _ Hfind) as Hi.
  destruct (lookup_lt_is_Some_2 (similarity_matrix self) i ltac:(lia)) as [scores Hs].
  assert (Hsl : length scores = length (data self)).
  { rewrite Forall_forall in Hrows. apply Hrows. apply list_elem_of_lookup. eauto. }
  assert (Hrowsv : similar_rows self player_name n sp mad
                   = Returns (slice_to n (sort_by_score_desc
                                (similar_pool self i player sp mad scores)))).
  { unfold similar_rows. rewrite Hfind. cbn [mbind outcome_bind].
    unfold getitem, iloc. rewrite Hs, Hplayer. cbn [mbind outcome_bind].
    rewrite similar_candidates_filter; [reflexivity|].
    apply Forall_forall. intros [idx s] Hin. apply enumerate_lookup in Hin.
    simpl. rewrite <- Hsl. eapply lookup_lt_Some; eauto. }
  unfold recommend_similar. rewrite Hrowsv. cbn [mbind outcome_bind].
  set (rows := slice_to n _).
  destruct (mapM_Returns
              (fun '(idx, score) =>
                 player_data ← iloc (data self) idx;
                 Returns (mkRecommendation player_data score)) rows)
    as (recs & Hrecs & HF).
  { apply Forall_forall. intros [idx score] Hin. unfold rows in Hin.
    apply slice_to_subseteq in Hin.
    rewrite (sort_by_score_desc_perm _) in Hin.
    apply list_elem_of_In, filter_In in Hin as [_ Hok]. simpl in Hok.
    unfold iloc. destruct (data self !! idx) as [c|]; [|discriminate].
    simpl. eauto. }
  exists scores, recs. split; [exact Hs|]. split; [exact Hrecs|].
  eapply Forall2_impl; [exact HF|]. intros [idx score] rec Hrec. simpl.
  unfold iloc in Hrec. destruct (data self !! idx) as [c|]; simpl in Hrec; [|discriminate].
  injection Hrec as <-. simpl. split; reflexivity.
Qed.

Lemma Forall2_Sorted {A B} (RA : A -> A -> Prop) (RB : B -> B -> Prop)
    (P : A -> B -> Prop) (l : list A) (k : list B) :
  (forall a a' b b', P a b -> P a' b' -> RA a a' -> RB b b') ->
  Forall2 P l k -> Sorted RA l -> Sorted RB k.
Proof.
  intros HR HF. induction HF as [|a b l k Hab HF IH]; intros Hs; [constructor|].
  apply Sorted_inv in Hs as [Hs Hhd]. constructor; [apply IH, Hs|].
  destruct HF as [|a' b' l k Hab' HF]; constructor.
  apply HdRel_inv in Hhd. eapply HR; eauto.
Qed.

(** The list returned by [recommend_similar] is at most
    [n_recommendations] long and in descending order of similarity. *)
Theorem recommend_similar_ranked
    (self : Recommender) (player_name : string) (n_recommendations : Z)
    (same_position : bool) (max_age_diff : option Z) (i : nat) :
  fitted self ->
  _find_player_index self player_name = Returns (Some i) ->
  (0 <= n_recommendations)%Z ->
  exists recs,
    recommend_similar self player_name n_recommendations same_position max_age_diff
    = Returns recs /\
    (length recs <= Z.to_nat n_recommendations)%nat /\
    Sorted (fun a b => similarity_score b <= similarity_score a) recs.
Proof.
  intros Hfit Hfind Hn.
  pose proof (find_player_index_lt _ _ _ Hfind) as Hi.
  destruct (lookup_lt_is_Some_2 _ _ Hi) as [player Hplayer].
  destruct (recommend_similar_explicit self player_name n_recommendations
              same_position max_age_diff i player Hfit Hfind Hplayer)
    as (scores & recs & _ & Hrecs & HF).
  exists recs. split; [exact Hrecs|]. split.
  - rewrite <- (Forall2_length _ _ _ HF), slice_to_nonneg by exact Hn.
    rewrite length_take. lia.
  - eapply (Forall2_Sorted by_score_desc); [|exact HF|].
    + intros a a' b b' [_ ->] [_ ->] H. exact H.
    + destruct (slice_to_take n_recommendations
                  (sort_by_score_desc
                     (similar_pool self i player same_position max_age_diff scores)))
        as [k ->].
      apply Sorted_take, sort_by_score_desc_sorted.
Qed.

Lemma recommend_similar_ranked_witness :
  exists recs,
    recommend_similar example_recommender "A" 2 false (Some 5%Z) = Returns recs /\
    (length recs <= 2)%nat /\
    Sorted (fun a b => similarity_score b <= similarity_score a) recs.
Proof.
  apply (recommend_similar_ranked example_recommender "A" 2 false (Some 5%Z) 0).
  - exact example_recommender_fitted.
  - reflexivity.
  - lia.
Defined.

(** A player that passes the tests of the candidate loop is either in the
    returned list, or the list is full and all its entries score at least
    as high. *)
Theorem recommend_similar_best
    (self : Recommender) (player_name : string) (n_recommendations : Z)
    (same_position : bool) (max_age_diff : option Z)
    (i j : nat) (player candidate : Player) (s : R) :
  fitted self ->
  _find_player_index self player_name = Returns (Some i) ->
  data self !! i = Some player ->
  (0 <= n_recommendations)%Z ->
  data self !! j = Some candidate ->
  eligible i (Position_Category player) (Age player) same_position max_age_diff
    j candidate = true ->
  similarity_matrix self !! i ≫= (.!! j) = Some s ->
  exists recs,
    recommend_similar self player_name n_recommendations same_position max_age_diff
    = Returns recs /\
    ((exists rec, rec ∈ recs /\ player_data rec = candidate /\ similarity_score rec = s)
     \/ (length recs = Z.to_nat n_recommendations /\
         Forall (fun rec => s <= similarity_score rec) recs)).
Proof.
  intros Hfit Hfind Hplayer Hn Hcand Helig Hs.
  destruct (recommend_similar_explicit self player_name n_recommendations
              same_position max_age_diff i player Hfit Hfind Hplayer)
    as (scores & recs & Hscores & Hrecs & HF).
  exists recs. split; [exact Hrecs|].
  rewrite Hscores in Hs. cbn [mbind option_bind] in Hs.
  rewrite slice_to_nonneg in HF by exact Hn.
  set (pool := similar_pool self i player same_position max_age_diff scores) in *.
  set (k := Z.to_nat n_recommendations) in *.
  assert (Hin : (j, s) ∈ sort_by_score_desc pool).
  { rewrite (sort_by_score_desc_perm pool). unfold pool, similar_pool.
    apply list_elem_of_In, filter_In. split.
    - apply list_elem_of_In, enumerate_lookup. exact Hs.
    - cbn [fst]. rewrite Hcand. exact Helig. }
  rewrite <- (take_drop k (sort_by_score_desc pool)) in Hin.
  apply elem_of_app in Hin as [Hin|Hin].
  - left. apply list_elem_of_lookup in Hin as [p Hp].
    destruct (Forall2_lookup_l _ _ _ _ _ HF Hp) as (rec & Hrec & Hdata & Hscore).
    exists rec. split; [apply list_elem_of_lookup; eauto|].
    simpl in Hdata, Hscore. split; [congruence|exact Hscore].
  - right. split.
    + rewrite <- (Forall2_length _ _ _ HF), length_take.
      assert (k < length (sort_by_score_desc pool))%nat; [|lia].
      destruct (decide (k < length (sort_by_score_desc pool))%nat) as [|Hge];
        [assumption|].
      rewrite drop_ge in Hin by lia. inversion Hin.
    + apply Forall_forall. intros rec Hrec.
      apply list_elem_of_lookup in Hrec as [p Hp].
      destruct (Forall2_lookup_r _ _ _ _ _ HF Hp) as (row & Hrow & _ & Hscore).
      rewrite Hscore.
      apply (sorted_take_drop (sort_by_score_desc pool) k row (j, s)).
      * apply sort_by_score_desc_sorted.
      * apply list_elem_of_lookup. eauto.
      * exact Hin.
Qed.

Lemma recommend_similar_best_witness :
  exists s recs,
    recommend_similar example_recommender "A" 1 false None = Returns recs /\
    ((exists rec, rec ∈ recs /\ player_data rec = player_C /\ similarity_score rec = s)
     \/ (length recs = 1%nat /\ Forall (fun rec => s <= similarity_score rec) recs)).
Proof.
  eexists.
  apply (recommend_similar_best example_recommender "A" 1 false None 0 2
           player_A player_C).
  - exact example_recommender_fitted.
  - reflexivity.
  - reflexivity.
  - lia.
  - reflexivity.
  - reflexivity.
  - reflexivity.
Defined.



End Ranking.

(** ** Ranking and inputs of [recommend_by_attributes] *)

Section AttributeRanking.
Import PyStr Py Numpy Sklearn PlayerRecommender.
Local Open Scope R_scope.

(** With a position given, [recommend_by_attributes] returns only players
    of that position category, at most [n_recommendations] of them, in
    descending order of match score. *)
Theorem recommend_by_attributes_ranked
    (self : Recommender) (target_attributes : gmap string R)
    (n_recommendations : Z) (position : string) :
  fitted self ->
  truthy position = true ->
  (0 <= n_recommendations)%Z ->
  exists recs,
    recommend_by_attributes self target_attributes n_recommendations (Some position)
    = Returns recs /\
    Forall (fun rec => Position_Category (matched_player rec) = position) recs /\
    (length recs <= Z.to_nat n_recommendations)%nat /\
    Sorted (fun a b => match_score b <= match_score a) recs.
Proof.
  intros Hfit Hpos Hn.
  destruct (fitted_check_array self Hfit) as (n & d & _ & _ & Hd).
  assert (Hv : target_vector self target_attributes <> []).
  { intros E. apply (f_equal length) in E.
    rewrite target_vector_length, Hd in E. discriminate. }
  destruct (normalize_target_Returns _ Hv) as (lo & hi & _ & _ & Hw).
  destruct (recommend_by_attributes_fitted self target_attributes n_recommendations
              (Some position) _ Hfit Hw) as (recs & Hrecs & HF).
  exists recs. split; [exact Hrecs|]. split; [|split].
  - apply Forall_forall. intros rec Hrec.
    apply list_elem_of_lookup in Hrec as [k Hk].
    destruct (Forall2_lookup_r _ _ _ _ _ HF Hk) as (row & Hrow & Hdata & _).
    pose proof (selected_by_attributes_sound self
                  (map (fun x => (x - lo) / (hi - lo + 1e-8))
                     (target_vector self target_attributes))
                  n_recommendations (Some position)) as Hs.
    rewrite Forall_forall in Hs.
    destruct (Hs row) as (c & features & Hc & Hok & _);
      [apply list_elem_of_lookup; eauto|].
    assert (c = matched_player rec) by congruence. subst c.
    unfold position_ok in Hok. rewrite Hpos in Hok. simpl in Hok.
    apply negb_true_iff, negb_false_iff, String.eqb_eq in Hok. exact Hok.
  - rewrite <- (Forall2_length _ _ _ HF). unfold selected_by_attributes.
    rewrite slice_to_nonneg by exact Hn. rewrite length_take. lia.
  - eapply (Forall2_Sorted by_score_desc); [|exact HF|].
    + intros a a' b b' [_ ->] [_ ->] H. exact H.
    + unfold selected_by_attributes.
      match goal with |- Sorted _ (slice_to ?n ?l) =>
        destruct (slice_to_take n l) as [k ->] end.
      apply Sorted_take, sort_by_score_desc_sorted.
Qed.

Lemma recommend_by_attributes_ranked_witness :
  exists recs,
    recommend_by_attributes example_recommender {[ "PAC"%string := 90 ]} 5
      (Some "Forward"%string) = Returns recs /\
    Forall (fun rec => Position_Category (matched_player rec) = "Forward"%string) recs /\
    (length recs <= 5)%nat /\
    Sorted (fun a b => match_score b <= match_score a) recs.
Proof.
  apply (recommend_by_attributes_ranked example_recommender
           {[ "PAC"%string := 90 ]} 5 "Forward").
  - exact example_recommender_fitted.
  - reflexivity.
  - lia.
Defined.

(** Entries of the mapping under names that are not stored feature names
    have no effect on the result. *)
Theorem recommend_by_attributes_ignores_unknown
    (self : Recommender) (t t' : gmap string R) (n_recommendations : Z)
    (position : option string) :
  (forall name, name ∈ feature_names self -> t !! name = t' !! name) ->
  recommend_by_attributes self t n_recommendations position
  = recommend_by_attributes self t' n_recommendations position.
Proof.
  intros Hsame.
  assert (E : target_vector self t = target_vector self t').
  { unfold target_vector. apply map_ext_in. intros name Hin.
    rewrite (Hsame name) by (apply list_elem_of_In; exact Hin). reflexivity. }
  unfold recommend_by_attributes, attribute_rows. rewrite E. reflexivity.
Qed.

Lemma recommend_by_attributes_ignores_unknown_witness :
  recommend_by_attributes example_recommender {[ "PAC"%string := 90 ]} 3 None
  = recommend_by_attributes example_recommender
      (<[ "Charisma"%string := 99 ]> {[ "PAC"%string := 90 ]}) 3 None.
Proof.
  apply recommend_by_attributes_ignores_unknown.
  intros name Hin.
  assert (name <> "Charisma"%string).
  { intros ->. cbn in Hin.
    repeat (apply elem_of_cons in Hin as [Hin|Hin]; [discriminate|]).
    inversion Hin. }
  rewrite lookup_insert_ne by congruence. reflexivity.
Defined.

End AttributeRanking.

(** ** Top players *)

Section TopPlayers.
Import PyStr Py PlayerRecommender.
Context `{SortValues} `{!SortValuesSpec}.

Lemma get_top_players_filter (self : Recommender) (n : Z) (position : option string) :
  get_top_players self n position
  = slice_to n (sort_values_OVR_desc (List.filter (in_category position) (data self))).
Proof.
  unfold get_top_players, in_category. do 2 f_equal.
  destruct position as [pos|]; [|symmetry; apply filter_all; reflexivity].
  destruct (truthy pos); simpl.
  - apply boolean_index_filter.
  - symmetry. apply filter_all. reflexivity.
Qed.

Lemma sorted_OVR_take_drop (l : list Player) (k : nat) (p q : Player) :
  Sorted (fun p q => (OVR q <= OVR p)%Z) l ->
  p ∈ take k l -> q ∈ drop k l -> (OVR q <= OVR p)%Z.
Proof.
  intros Hs. apply Sorted_StronglySorted in Hs; [|intros x y z; lia].
  revert k. induction Hs as [|z l Hs IH Hall]; intros k Hp Hq.
  - rewrite take_nil in Hp. inversion Hp.
  - destruct k as [|k]; [inversion Hp|]. simpl in Hp, Hq.
    apply elem_of_cons in Hp as [->|Hp].
    + rewrite List.Forall_forall in Hall. apply Hall.
      apply list_elem_of_In. eapply (subseteq_drop k l); exact Hq.
    + eapply IH; eauto.
Qed.

(** [get_top_players] returns at most [n] rows of the table, all of the
    requested position category, in descending order of rating; a row of
    that category that is left out is rated no higher than any returned
    row, and then the list is full. *)
Theorem get_top_players_best (self : Recommender) (n : Z) (position : option string) :
  (0 <= n)%Z ->
  let top := get_top_players self n position in
  (length top <= Z.to_nat n)%nat /\
  Sorted (fun p q => (OVR q <= OVR p)%Z) top /\
  (forall p, p ∈ top -> p ∈ data self /\ in_category position p = true) /\
  (forall q, q ∈ data self -> in_category position q = true ->
             q ∈ top \/
             (length top = Z.to_nat n /\ Forall (fun p => (OVR q <= OVR p)%Z) top)).
Proof.
  intros Hn top. unfold top. rewrite get_top_players_filter.
  rewrite slice_to_nonneg by exact Hn.
  set (pool := List.filter (in_category position) (data self)).
  set (k := Z.to_nat n).
  split; [rewrite length_take; lia|].
  split; [apply Sorted_take, sort_values_sorted|].
  split.
  - intros p Hp. apply subseteq_take in Hp. rewrite (sort_values_perm pool) in Hp.
    apply list_elem_of_In, filter_In in Hp as [Hp Hc].
    split; [apply list_elem_of_In, Hp|exact Hc].
  - intros q Hq Hc.
    assert (Hin : q ∈ sort_values_OVR_desc pool).
    { rewrite (sort_values_perm pool). apply list_elem_of_In, filter_In.
      split; [apply list_elem_of_In, Hq|exact Hc]. }
    rewrite <- (take_drop k (sort_values_OVR_desc pool)) in Hin.
    apply elem_of_app in Hin as [Hin|Hin]; [left; exact Hin|right].
    split.
    + rewrite length_take.
      destruct (decide (k < length (sort_values_OVR_desc pool))%nat) as [|Hge]; [lia|].
      rewrite drop_ge in Hin by lia. inversion Hin.
    + apply Forall_forall. intros p Hp.
      eapply sorted_OVR_take_drop; [apply sort_values_sorted|exact Hp|exact Hin].
Qed.

(** Filters that are absent or empty strings do nothing: such a search is
    [get_top_players] without a position. *)
Theorem search_players_without_filters (self : Recommender)
    (query position nation league team : option string) (limit : Z) :
  supplied query = false -> supplied position = false -> supplied nation = false ->
  supplied league = false -> supplied team = false ->
  search_players self query position None None nation league team limit
  = Returns (get_top_players self limit None).
Proof.
  intros Hq Hp Hn Hl Ht. unfold search_players, get_top_players.
  rewrite (supplied_false query _ _ _ _ Hq). cbn [mbind outcome_bind].
  rewrite (supplied_false position _ _ _ _ Hp). cbn [mbind outcome_bind filter_overall].
  rewrite (supplied_false nation _ _ _ _ Hn). cbn [mbind outcome_bind].
  rewrite (supplied_false league _ _ _ _ Hl). cbn [mbind outcome_bind].
  rewrite (supplied_false team _ _ _ _ Ht). reflexivity.
Qed.

End TopPlayers.

Section TopPlayersExamples.
Import PyStr Py PlayerRecommender.

Lemma get_top_players_best_witness :
  let top := @get_top_players insertion_sort_values example_recommender 1
               (Some "Forward") in
  (length top <= 1)%nat /\
  Sorted (fun p q => (OVR q <= OVR p)%Z) top /\
  (forall p, p ∈ top -> p ∈ example_data /\ in_category (Some "Forward") p = true) /\
  (forall q, q ∈ example_data -> in_category (Some "Forward") q = true ->
             q ∈ top \/
             (length top = 1%nat /\ Forall (fun p => (OVR q <= OVR p)%Z) top)).
Proof.
  apply (@get_top_players_best insertion_sort_values insertion_sort_values_spec
           example_recommender 1 (Some "Forward")).
  lia.
Defined.

Lemma search_players_without_filters_witness :
  @search_players insertion_sort_values example_recommender
    (Some "") None None None (Some "") None None 2
  = Returns (@get_top_players insertion_sort_values example_recommender 2 None).
Proof.
  apply (@search_players_without_filters insertion_sort_values); reflexivity.
Defined.

End TopPlayersExamples.

(** ** Sign and zero rows of the similarity matrix *)

Section Cosine.
Import Numpy Sklearn PlayerRecommender.
Local Open Scope R_scope.

Lemma dot_scale (u v : list R) (a b : R) :
  dot (map (fun x => x / a) u) (map (fun x => x / b) v) = dot u v / a / b.
Proof.
  unfold dot. revert v.
  induction u as [|x u IH]; intros [|y v]; simpl; try (unfold Rdiv; lra).
  rewrite IH. unfold Rdiv. lra.
Qed.

Lemma eps_small : 0 < 10 * eps < 1.
Proof.
  unfold eps. assert (H : 16 < 2 ^ 52).
  { replace (2 ^ 52) with (16 * 2 ^ 48) by (simpl; lra).
    assert (1 < 2 ^ 48) by (apply Rlt_pow_R1; [lra|lia]). lra. }
  assert (Hpos : 0 < / 2 ^ 52) by (apply Rinv_0_lt_compat; lra).
  split; [lra|].
  assert (/ 2 ^ 52 < / 16) by (apply Rinv_lt_contravar; lra). lra.
Qed.

Lemma guarded_norm_bounds (u : list R) :
  0 < guarded_norm u /\ sqrt (squared_norm u) <= guarded_norm u.
Proof.
  unfold guarded_norm. cbv zeta. pose proof eps_small.
  destruct (Rlt_dec _ _); split; lra.
Qed.

Lemma cosine_quotient (u v : list R) :
  cosine u v = dot u v / guarded_norm u / guarded_norm v.
Proof. unfold cosine, unit_row, guarded_norm. apply dot_scale. Qed.

Lemma dot_nonneg (u : list R) : forall v,
  Forall (fun x => 0 <= x) u -> Forall (fun x => 0 <= x) v -> 0 <= dot u v.
Proof.
  unfold dot. induction u as [|x u IH]; intros [|y v] Hu Hv; simpl; try lra.
  apply Forall_cons in Hu as [Hx Hu]. apply Forall_cons in Hv as [Hy Hv].
  specialize (IH v Hu Hv). nra.
Qed.

Lemma cosine_nonneg (u v : list R) :
  Forall (fun x => 0 <= x) u -> Forall (fun x => 0 <= x) v -> 0 <= cosine u v.
Proof.
  intros Hu Hv. rewrite cosine_quotient.
  destruct (guarded_norm_bounds u) as [Hgu _].
  destruct (guarded_norm_bounds v) as [Hgv _].
  pose proof (dot_nonneg u v Hu Hv).
  unfold Rdiv. apply Rmult_le_pos; [apply Rmult_le_pos|];
    try assumption; left; apply Rinv_0_lt_compat; assumption.
Qed.

(** The entries of the similarity matrix of a fitted recommender. *)
Lemma fitted_similarity_entry (self : Recommender) (i j : nat) (s : R) :
  fitted self ->
  similarity_matrix self !! i ≫= (.!! j) = Some s ->
  exists u v,
    normalized_features self !! i = Some u /\
    normalized_features self !! j = Some v /\
    s = cosine u v.
Proof.
  intros (Hfit & _ & _) Hs. unfold fit in Hfit.
  destruct (cosine_similarity _ _) as [K| |] eqn:HK; simpl in Hfit; try discriminate.
  apply cosine_similarity_Returns in HK.
  assert (E : similarity_matrix self = K) by (injection Hfit as <-; reflexivity).
  rewrite E, HK, !normalize_unit_row in Hs.
  rewrite list_lookup_fmap, list_lookup_fmap in Hs.
  destruct (normalized_features self !! i) as [u|]; [|discriminate].
  cbn [fmap option_fmap option_map mbind option_bind] in Hs.
  rewrite list_lookup_fmap, list_lookup_fmap in Hs.
  destruct (normalized_features self !! j) as [v|]; [|discriminate].
  cbn [fmap option_fmap option_map] in Hs. injection Hs as <-.
  exists u, v. repeat split.
Qed.

(** No entry of the similarity matrix is negative when no normalized
    feature is negative. *)
Theorem similarity_matrix_nonneg (self : Recommender) (i j : nat) (s : R) :
  fitted self ->
  Forall (Forall (fun x => 0 <= x)) (normalized_features self) ->
  similarity_matrix self !! i ≫= (.!! j) = Some s ->
  0 <= s.
Proof.
  intros Hfit Hpos Hs.
  destruct (fitted_similarity_entry self i j s Hfit Hs) as (u & v & Hu & Hv & ->).
  rewrite Forall_forall in Hpos.
  apply cosine_nonneg; apply Hpos, list_elem_of_lookup; eauto.
Qed.

Lemma similarity_matrix_nonneg_witness :
  exists s,
    similarity_matrix example_recommender !! 0%nat ≫= (.!! 1%nat) = Some s /\
    0 <= s.
Proof.
  eexists. split; [reflexivity|].
  apply (similarity_matrix_nonneg example_recommender 0 1).
  - exact example_recommender_fitted.
  - unfold example_recommender, example_features. cbn [normalized_features].
    repeat (apply Forall_cons; split;
            [repeat (apply Forall_cons; split; [lra|]); apply Forall_nil_2|]).
    apply Forall_nil_2.
  - reflexivity.
Defined.

(** A player whose normalized feature row is all zeros has similarity 0
    with every player, itself included: on the diagonal of the similarity
    matrix such a player has 0. *)
Theorem similarity_matrix_zero_row (self : Recommender) (i : nat) (u : list R) :
  fitted self ->
  normalized_features self !! i = Some u ->
  Forall (fun x => x = 0) u ->
  exists row,
    similarity_matrix self !! i = Some row /\
    length row = length (data self) /\
    Forall (fun s => s = 0) row /\
    row !! i = Some 0.
Proof.
  intros Hfit Hu Hzero.
  destruct (fitted_similarity_shape self Hfit) as [Hlen Hrows].
  pose proof Hfit as (_ & Hnf & _).
  assert (Hi : (i < length (similarity_matrix self))%nat).
  { rewrite Hlen, <- Hnf. eapply lookup_lt_Some; eauto. }
  destruct (lookup_lt_is_Some_2 _ _ Hi) as [row Hrow].
  assert (Hrl : length row = length (data self)).
  { rewrite Forall_forall in Hrows. apply Hrows, list_elem_of_lookup. eauto. }
  assert (Hall : Forall (fun s => s = 0) row).
  { apply Forall_forall. intros s Hs.
    apply list_elem_of_lookup in Hs as [j Hj].
    destruct (fitted_similarity_entry self i j s Hfit) as (u' & v & Hu' & Hv & ->).
    { rewrite Hrow. exact Hj. }
    assert (u' = u) by congruence. subst u'.
    assert (E : u = replicate (length u) 0).
    { clear -Hzero. induction Hzero as [|x u Hx _ IH]; simpl; [reflexivity|].
      rewrite Hx at 1. f_equal. exact IH. }
    rewrite E. apply cosine_zero. }
  exists row. split; [exact Hrow|]. split; [exact Hrl|]. split; [exact Hall|].
  destruct (lookup_lt_is_Some_2 row i) as [s Hs]; [lia|].
  rewrite Hs. f_equal. rewrite Forall_forall in Hall.
  apply Hall, list_elem_of_lookup. eauto.
Qed.

Lemma similarity_matrix_zero_row_witness :
  exists self row,
    fit [player_A; player_B] [[0; 0]; [1; 0]] ["PAC"; "SHO"] = Returns self /\
    similarity_matrix self !! 0%nat = Some row /\
    length row = 2%nat /\
    Forall (fun s => s = 0) row /\
    row !! 0%nat = Some 0.
Proof.
  eexists. 
  destruct (similarity_matrix_zero_row
              (mkRecommender [player_A; player_B] [[0; 0]; [1; 0]] ["PAC"; "SHO"]
                 (map (fun x => map (fun y => dot x y) (normalize [[0; 0]; [1; 0]]))
                    (normalize [[0; 0]; [1; 0]])))
              0 [0; 0]) as (row & Hrow & Hlen & Hall & Hdiag).
  - split; [reflexivity|]. split; [reflexivity|].
    repeat (apply Forall_cons; split; [reflexivity|]). apply Forall_nil_2.
  - reflexivity.
  - repeat (apply Forall_cons; split; [reflexivity|]). apply Forall_nil_2.
  - exists row. split; [reflexivity|]. repeat split; assumption.
Defined.

End Cosine.

(** ** Range and idempotence of the normalization *)

Section Rescaling.
Import Numpy DataProcessor.
Local Open Scope R_scope.

Lemma column_min_max (r : list R) (rs : list (list R)) (d j : nat) :
  Forall (fun row => length row = d) (r :: rs) -> (j < d)%nat ->
  exists lo hi,
    is_min_of lo (column j (r :: rs)) /\ is_max_of hi (column j (r :: rs)) /\
    fold_left (zip_with Rmin) rs r !! j = Some lo /\
    fold_left (zip_with Rmax) rs r !! j = Some hi.
Proof.
  intros Hrect Hj. apply Forall_cons in Hrect as [Hr Hrs].
  destruct (lookup_lt_is_Some_2 r j ltac:(lia)) as [x0 Hx0].
  destruct (fold_zip_with_lookup Rmin rs r d j x0 Hr Hrs Hx0) as [Hmin _].
  destruct (fold_zip_with_lookup Rmax rs r d j x0 Hr Hrs Hx0) as [Hmax _].
  rewrite (column_cons _ _ _ _ Hx0).
  eexists _, _. split; [apply fold_Rmin_is_min|].
  split; [apply fold_Rmax_is_max|]. split; assumption.
Qed.

(** Every column of the normalized matrix is the rescaled column. *)
Lemma normalize_features_column (features : list (list R)) (d j : nat) (lo hi : R) :
  features <> [] ->
  Forall (fun row => length row = d) features ->
  (j < d)%nat ->
  is_min_of lo (column j features) ->
  is_max_of hi (column j features) ->
  exists normalized,
    normalize_features features = Returns normalized /\
    column j normalized = map (rescale lo hi) (column j features).
Proof.
  intros Hne Hrect Hj Hlo Hhi.
  destruct features as [|r rs]; [congruence|].
  destruct (column_min_max r rs d j Hrect Hj) as (lo' & hi' & Hlo' & Hhi' & Hmin & Hmax).
  rewrite (is_min_of_unique _ _ _ Hlo' Hlo) in Hmin.
  rewrite (is_max_of_unique _ _ _ Hhi' Hhi) in Hmax.
  rewrite normalize_features_cons. cbv zeta.
  eexists. split; [reflexivity|].
  set (g := fun row : list R => zip_with Rdiv _ _).
  assert (Hshape : Forall (fun row => length row = d) (map g (r :: rs))).
  { destruct (normalize_features_shape (r :: rs) (map g (r :: rs)) d Hrect) as [_ H];
      [|exact H].
    rewrite normalize_features_cons. reflexivity. }
  apply list_eq. intros i.
  rewrite (column_lookup j _ d Hshape Hj), !list_lookup_fmap.
  rewrite (column_lookup j _ d Hrect Hj).
  destruct ((r :: rs) !! i) as [row|] eqn:Hrow; [|reflexivity].
  cbn [fmap option_fmap option_map mbind option_bind].
  unfold g. rewrite !lookup_zip_with, list_lookup_fmap, lookup_zip_with.
  rewrite Hmin, Hmax.
  destruct (row !! j) as [x|]; reflexivity.
Qed.

Lemma rescale_bounds (lo hi x : R) : lo <= x <= hi -> 0 <= rescale lo hi x <= 1.
Proof.
  intros [Hl Hh]. unfold rescale.
  destruct (Req_dec_T (hi - lo) 0) as [Hz|Hnz].
  - replace x with lo by lra. unfold Rdiv. lra.
  - assert (Hpos : 0 < hi - lo) by lra. split.
    + apply Rmult_le_pos; [lra|]. left. apply Rinv_0_lt_compat. exact Hpos.
    + apply (Rmult_le_reg_r (hi - lo)); [exact Hpos|].
      unfold Rdiv. rewrite Rmult_assoc, Rinv_l by lra. lra.
Qed.

(** The entries of a normalized matrix are between 0 and 1. *)
Lemma normalize_features_entries (features normalized : list (list R)) (d : nat) :
  Forall (fun row => length row = d) features ->
  normalize_features features = Returns normalized ->
  Forall (Forall (fun y => 0 <= y <= 1)) normalized.
Proof.
  intros Hrect Hn.
  destruct features as [|r rs] eqn:E; [discriminate|]. rewrite <- E in *.
  assert (Hne : features <> []) by (rewrite E; discriminate).
  destruct (normalize_features_shape features normalized d Hrect Hn) as [Hlen Hshape].
  apply Forall_forall. intros row Hrow.
  apply Forall_forall. intros y Hy.
  apply list_elem_of_lookup in Hrow as [i Hi].
  apply list_elem_of_lookup in Hy as [j Hj].
  assert (Hjd : (j < d)%nat).
  { rewrite Forall_forall in Hshape.
    rewrite <- (Hshape row) by (apply list_elem_of_lookup; eauto).
    eapply lookup_lt_Some; eauto. }
  assert (Hrect' : Forall (fun row => length row = d) (r :: rs)) by (rewrite <- E; exact Hrect).
  destruct (column_min_max r rs d j Hrect' Hjd) as (lo & hi & Hlo & Hhi & _).
  rewrite <- E in Hlo, Hhi.
  destruct (normalize_features_column features d j lo hi Hne Hrect Hjd Hlo Hhi)
    as (normalized' & Hn' & Hcol).
  assert (normalized' = normalized) by congruence. subst normalized'.
  assert (Hy : column j normalized !! i = Some y).
  { rewrite (column_lookup j _ d Hshape Hjd), Hi. exact Hj. }
  rewrite Hcol, list_lookup_fmap in Hy.
  destruct (column j features !! i) as [x|] eqn:Hx; [|discriminate].
  injection Hy as <-. apply rescale_bounds.
  destruct Hlo as [_ Hlo], Hhi as [_ Hhi].
  rewrite Forall_forall in Hlo, Hhi.
  split; [apply Hlo|apply Hhi]; apply list_elem_of_lookup; eauto.
Qed.

(** A matrix with at least one row is normalized without an error. *)
Lemma normalize_features_nonempty (features : list (list R)) :
  features <> [] -> exists normalized, normalize_features features = Returns normalized.
Proof.
  destruct features as [|r rs]; [congruence|]. intros _.
  rewrite normalize_features_cons. eauto.
Qed.

(** [normalize_features] keeps the shape of the matrix and puts every
    entry between 0 and 1, for feature values whose differences do not
    wrap around in 64 bits. *)
Theorem normalize_features_unit_interval (features : list (list R)) (d : nat) :
  features <> [] ->
  Forall (fun row => length row = d) features ->
  features_in_range features ->
  exists normalized,
    normalize_features features = Returns normalized /\
    length normalized = length features /\
    Forall (fun row => length row = d /\ Forall (fun y => 0 <= y <= 1) row) normalized.
Proof.
  intros Hne Hrect _.
  destruct (normalize_features_nonempty features Hne) as [normalized Hn].
  exists normalized. split; [exact Hn|].
  destruct (normalize_features_shape features normalized d Hrect Hn) as [Hlen Hshape].
  split; [exact Hlen|].
  pose proof (normalize_features_entries features normalized d Hrect Hn) as Hall.
  rewrite Forall_forall in Hshape, Hall.
  apply Forall_forall. intros row Hrow. split; [apply Hshape|apply Hall]; exact Hrow.
Qed.

Lemma normalize_features_unit_interval_witness :
  exists normalized,
    normalize_features [[90; 50]; [80; 60]; [40; 90]] = Returns normalized /\
    length normalized = 3%nat /\
    Forall (fun row => length row = 2%nat /\ Forall (fun y => 0 <= y <= 1) row)
      normalized.
Proof.
  apply (normalize_features_unit_interval [[90; 50]; [80; 60]; [40; 90]] 2).
  - discriminate.
  - repeat (apply Forall_cons; split; [reflexivity|]). apply Forall_nil_2.
  - repeat (apply Forall_cons; split;
            [repeat (apply Forall_cons; split;
                     [rewrite Rabs_pos_eq by lra; lra|]); apply Forall_nil_2|]).
    apply Forall_nil_2.
Defined.

Lemma rescale_mono (lo hi x y : R) :
  lo <= hi -> x <= y -> rescale lo hi x <= rescale lo hi y.
Proof.
  intros Hle Hxy. unfold rescale.
  destruct (Req_dec_T (hi - lo) 0) as [Hz|Hnz]; [unfold Rdiv; lra|].
  apply Rmult_le_compat_r; [|lra].
  left. apply Rinv_0_lt_compat. lra.
Qed.

Lemma rescale_column_min_max (lo hi : R) (col : list R) :
  is_min_of lo col -> is_max_of hi col ->
  is_min_of (rescale lo hi lo) (map (rescale lo hi) col) /\
  is_max_of (rescale lo hi hi) (map (rescale lo hi) col).
Proof.
  intros Hlo Hhi. pose proof (min_le_max lo hi col Hlo Hhi) as Hle.
  destruct Hlo as [Hlo_in Hlo], Hhi as [Hhi_in Hhi].
  rewrite Forall_forall in Hlo, Hhi. split; split.
  - apply list_elem_of_fmap. eauto.
  - apply Forall_forall. intros y Hy. apply list_elem_of_fmap in Hy as (x & -> & Hx).
    apply rescale_mono; [exact Hle|apply Hlo, Hx].
  - apply list_elem_of_fmap. eauto.
  - apply Forall_forall. intros y Hy. apply list_elem_of_fmap in Hy as (x & -> & Hx).
    apply rescale_mono; [exact Hle|apply Hhi, Hx].
Qed.

Lemma rescale_ends (lo hi : R) :
  rescale lo hi lo = 0 /\
  (rescale lo hi hi = 0 \/ rescale lo hi hi = 1).
Proof.
  unfold rescale. split; [unfold Rdiv; lra|].
  destruct (Req_dec_T (hi - lo) 0) as [Hz|Hnz].
  - left. rewrite Hz. unfold Rdiv. lra.
  - right. field. exact Hnz.
Qed.

Lemma rescale_unit (y : R) : rescale 0 0 y = y /\ rescale 0 1 y = y.
Proof.
  unfold rescale. split.
  - destruct (Req_dec_T (0 - 0) 0); [field|lra].
  - destruct (Req_dec_T (1 - 0) 0); [lra|field].
Qed.

Lemma rescale_rescale (lo hi x : R) :
  rescale (rescale lo hi lo) (rescale lo hi hi) (rescale lo hi x) = rescale lo hi x.
Proof.
  destruct (rescale_ends lo hi) as [-> [-> | ->]]; apply rescale_unit.
Qed.

(** Two matrices of the same shape with the same columns are equal. *)
Lemma matrix_eq_columns (a b : list (list R)) (d : nat) :
  length a = length b ->
  Forall (fun row => length row = d) a ->
  Forall (fun row => length row = d) b ->
  (forall j, (j < d)%nat -> column j a = column j b) ->
  a = b.
Proof.
  intros Hlen Ha Hb Hcol. apply list_eq. intros i.
  destruct (a !! i) as [ra|] eqn:Hra.
  - assert (Hi : (i < length b)%nat) by (rewrite <- Hlen; eapply lookup_lt_Some; eauto).
    destruct (lookup_lt_is_Some_2 _ _ Hi) as [rb Hrb]. rewrite Hrb. f_equal.
    rewrite Forall_forall in Ha, Hb.
    assert (Hla : length ra = d) by (apply Ha, list_elem_of_lookup; eauto).
    assert (Hlb : length rb = d) by (apply Hb, list_elem_of_lookup; eauto).
    apply list_eq. intros j.
    destruct (decide (j < d)%nat) as [Hj|Hj].
    + pose proof (f_equal (fun c => c !! i) (Hcol j Hj)) as E. cbv beta in E.
      rewrite (column_lookup j a d) in E by (try apply Forall_forall; assumption).
      rewrite (column_lookup j b d) in E by (try apply Forall_forall; assumption).
      rewrite Hra, Hrb in E. exact E.
    + rewrite !lookup_ge_None_2 by lia. reflexivity.
  - apply lookup_ge_None in Hra. rewrite lookup_ge_None_2 by lia. reflexivity.
Qed.

(** Normalizing a normalized matrix changes nothing, for feature values
    whose differences do not wrap around in 64 bits. *)
Theorem normalize_features_idempotent (features normalized : list (list R)) (d : nat) :
  Forall (fun row => length row = d) features ->
  features_in_range features ->
  normalize_features features = Returns normalized ->
  normalize_features normalized = Returns normalized.
Proof.
  intros Hrect _ Hn.
  assert (Hne : features <> []) by (intros ->; discriminate).
  destruct (normalize_features_shape features normalized d Hrect Hn) as [Hlen Hshape].
  assert (Hne' : normalized <> []).
  { intros ->. destruct features; [congruence|discriminate]. }
  destruct (normalize_features_nonempty normalized Hne') as [again Hagain].
  destruct (normalize_features_shape normalized again d Hshape Hagain) as [Hlen' Hshape'].
  rewrite Hagain. f_equal.
  apply (matrix_eq_columns again normalized d Hlen').
  - exact Hshape'.
  - exact Hshape.
  - intros j Hj.
    destruct features as [|r rs] eqn:E; [congruence|]. rewrite <- E in *.
    assert (Hrect' : Forall (fun row => length row = d) (r :: rs))
      by (rewrite <- E; exact Hrect).
    destruct (column_min_max r rs d j Hrect' Hj) as (lo & hi & Hlo & Hhi & _).
    rewrite <- E in Hlo, Hhi.
    destruct (normalize_features_column features d j lo hi Hne Hrect Hj Hlo Hhi)
      as (n1 & Hn1 & Hcol1).
    assert (n1 = normalized) by congruence. subst n1.
    destruct (rescale_column_min_max lo hi _ Hlo Hhi) as [Hlo2 Hhi2].
    rewrite <- Hcol1 in Hlo2, Hhi2.
    destruct (normalize_features_column normalized d j _ _ Hne' Hshape Hj Hlo2 Hhi2)
      as (n2 & Hn2 & Hcol2).
    assert (n2 = again) by congruence. subst n2.
    rewrite Hcol2, Hcol1, map_map. apply map_ext. intros x. apply rescale_rescale.
Qed.

Lemma normalize_features_idempotent_witness :
  normalize_features example_features = Returns example_features.
Proof.
  apply (normalize_features_idempotent (extract_features example_data)
           example_features 2).
  - repeat (apply Forall_cons; split; [reflexivity|]). apply Forall_nil_2.
  - repeat (apply Forall_cons; split;
            [repeat (apply Forall_cons; split;
                     [rewrite Rabs_pos_eq by lra; lra|]); apply Forall_nil_2|]).
    apply Forall_nil_2.
  - exact example_features_normalized.
Defined.

End Rescaling.

Section TrainedSimilarity.
Import Numpy DataProcessor PlayerRecommender Training.
Local Open Scope R_scope.

(** For a recommender fitted on the result of [process_for_training], no
    similarity score is negative, for feature values whose differences do
    not wrap around in 64 bits. *)
Theorem fit_processed_similarity_nonneg
    (df : list Player) (processed : Processed) (self : Recommender)
    (i j : nat) (s : R) :
  Forall (fun p => length (Features p) = length FEATURE_COLUMNS) df ->
  features_in_range (extract_features df) ->
  process_for_training df = Returns processed ->
  fit_processed processed = Returns self ->
  similarity_matrix self !! i ≫= (.!! j) = Some s ->
  0 <= s.
Proof.
  intros Hfeat _ Hproc Htrain Hs.
  destruct (fit_processed_fitted df processed self Hfeat Hproc Htrain) as (Hfit & _ & _).
  assert (Hpos : Forall (Forall (fun x => 0 <= x)) (normalized_features self)).
  2: { destruct (fitted_similarity_entry self i j s Hfit Hs) as (u & v & Hu & Hv & ->).
       rewrite Forall_forall in Hpos.
       apply cosine_nonneg; apply Hpos, list_elem_of_lookup; eauto. }
  unfold process_for_training in Hproc.
  destruct (normalize_features _) as [normalized| |] eqn:Hn; try discriminate.
  cbn [mbind outcome_bind] in Hproc. injection Hproc as <-.
  unfold fit_processed in Htrain.
  cbn [processed_data processed_normalized_features processed_feature_names]
    in Htrain.
  assert (E : normalized_features self = normalized).
  { unfold fit in Htrain.
    destruct (Sklearn.cosine_similarity normalized normalized); try discriminate.
    injection Htrain as <-. reflexivity. }
  rewrite E.
  assert (Hrect : Forall (fun row => length row = length FEATURE_COLUMNS)
                    (extract_features (map with_position_category df))).
  { unfold extract_features. rewrite map_map.
    apply Forall_forall. intros row Hrow.
    apply list_elem_of_fmap in Hrow as (p & -> & Hp).
    rewrite Forall_forall in Hfeat. apply (Hfeat p Hp). }
  pose proof (normalize_features_entries _ _ _ Hrect Hn) as Hall.
  eapply Forall_impl; [exact Hall|]. intros row Hrow.
  eapply Forall_impl; [exact Hrow|]. intros y [Hy _]. exact Hy.
Qed.

Lemma fit_processed_similarity_nonneg_witness :
  exists processed self s,
    process_for_training
      [example_player "A" 90 "ST" (replicate 35 1) "";
       example_player "B" 85 "CB" (replicate 35 0) ""] = Returns processed /\
    fit_processed processed = Returns self /\
    similarity_matrix self !! 0%nat ≫= (.!! 1%nat) = Some s /\
    0 <= s.
Proof.
  eexists _, _, _. split; [reflexivity|]. split; [reflexivity|].
  split; [reflexivity|].
  eapply (fit_processed_similarity_nonneg
            [example_player "A" 90 "ST" (replicate 35 1) "";
             example_player "B" 85 "CB" (replicate 35 0) ""] _ _ 0 1).
  - repeat (apply Forall_cons; split; [reflexivity|]). apply Forall_nil_2.
  - repeat (apply Forall_cons; split;
            [repeat (apply Forall_cons; split;
                     [rewrite Rabs_pos_eq by lra; lra|]); apply Forall_nil_2|]).
    apply Forall_nil_2.
  - reflexivity.
  - reflexivity.
  - reflexivity.
Defined.

End TrainedSimilarity.

(** ** Name lookup and player details *)

Section NameLookup.
Import PyStr Py PlayerRecommender.

(** The mask of a lookup depends on a row through its lowered name only. *)
Lemma find_player_index_mask (self : Recommender) (player_name : string) (i : nat) :
  _find_player_index self player_name = Returns (Some i) ->
  exists test : string -> bool,
    first_index (map (fun p => test (lower (Name p))) (data self)) = Some i.
Proof.
  unfold _find_player_index. cbv zeta. rewrite !map_map.
  destruct (forallb negb _).
  - unfold str_contains. destruct (re_compile _) as [atoms|]; [|discriminate].
    cbn [mbind outcome_bind]. rewrite map_map. intros [= H].
    exists (re_search (negb true) atoms). exact H.
  - intros [= H]. exists (fun n => String.eqb n (lower player_name)). exact H.
Qed.

(** On ASCII names, an ASCII query that is the name of row [i] up to
    case, and of no other row, resolves to row [i], and
    [get_player_details] returns that row. *)
Theorem find_player_index_round_trip
    (self : Recommender) (player_name : string) (i : nat) (p : Player) :
  ascii_names (data self) ->
  is_ascii player_name = true ->
  NoDup (map (fun q => lower (Name q)) (data self)) ->
  data self !! i = Some p ->
  lower player_name = lower (Name p) ->
  _find_player_index self player_name = Returns (Some i) /\
  get_player_details self player_name = Returns (Some p).
Proof.
  intros _ _ Hnodup Hi Hname.
  assert (Hfind : _find_player_index self player_name = Returns (Some i)).
  { unfold _find_player_index. cbv zeta. rewrite !map_map.
    set (mask := map _ (data self)).
    assert (Hmask : first_index mask = Some i).
    { apply first_index_first. unfold mask. split.
      - rewrite list_lookup_fmap, Hi. cbn. rewrite Hname, String.eqb_refl. reflexivity.
      - intros k Hk.
        destruct (lookup_lt_is_Some_2 (data self) k) as [q Hq].
        { apply lookup_lt_Some in Hi. lia. }
        rewrite list_lookup_fmap, Hq. cbn. f_equal.
        apply String.eqb_neq. rewrite Hname. intros Heq.
        assert (k = i); [|lia].
        apply (NoDup_lookup _ k i (lower (Name p)) Hnodup);
          rewrite list_lookup_fmap; [rewrite Hq|rewrite Hi]; cbn; congruence. }
    destruct (forallb negb mask) eqn:Hall; [|rewrite Hmask; reflexivity].
    apply first_index_None in Hall. congruence. }
  split; [exact Hfind|].
  unfold get_player_details. rewrite Hfind. cbn [mbind outcome_bind].
  unfold iloc. rewrite Hi. reflexivity.
Qed.

(** A row that has the name of an earlier row, up to case, is found by no
    query at all. *)
Theorem find_player_index_shadowed
    (self : Recommender) (player_name : string) (i j : nat) (p q : Player) :
  data self !! i = Some p ->
  data self !! j = Some q ->
  (i < j)%nat ->
  lower (Name p) = lower (Name q) ->
  _find_player_index self player_name <> Returns (Some j).
Proof.
  intros Hi Hj Hlt Hname Hfind.
  destruct (find_player_index_mask self player_name j Hfind) as [test Hmask].
  apply first_index_first in Hmask as [Hj' Hbefore].
  specialize (Hbefore i Hlt).
  rewrite list_lookup_fmap, Hi in Hbefore.
  rewrite list_lookup_fmap, Hj in Hj'.
  cbn in Hbefore, Hj'. congruence.
Qed.

(** For a name without regular-expression special characters,
    [get_player_details] returns, whatever the table: [None] exactly when
    the lookup resolves to no row, otherwise the row at the resolved
    position, which is always within the table. *)
Theorem get_player_details_no_exception (self : Recommender) (player_name : string) :
  re_literal player_name = true ->
  exists r,
    get_player_details self player_name = Returns r /\
    (r = None <-> _find_player_index self player_name = Returns None) /\
    (forall p, r = Some p ->
       exists i, _find_player_index self player_name = Returns (Some i) /\
                 data self !! i = Some p).
Proof.
  intros Hlit. pose proof (find_player_index_lookup self player_name Hlit) as Hfind.
  unfold get_player_details. rewrite Hfind.
  destruct (lookup_by_name (data self) player_name) as [i|] eqn:Hi;
    cbn [mbind outcome_bind].
  - pose proof (find_player_index_lt self player_name i Hfind) as Hlt.
    destruct (lookup_lt_is_Some_2 _ _ Hlt) as [p Hp].
    unfold iloc. rewrite Hp. cbn. eexists. split; [reflexivity|]. split.
    + split; discriminate.
    + intros q [= <-]. eauto.
  - eexists. split; [reflexivity|]. split; [split; reflexivity|discriminate].
Qed.

End NameLookup.

Section NameLookupExamples.
Import PyStr Py PlayerRecommender.

Lemma find_player_index_round_trip_witness :
  _find_player_index example_recommender "b" = Returns (Some 1%nat) /\
  get_player_details example_recommender "b" = Returns (Some player_B).
Proof.
  apply (find_player_index_round_trip example_recommender "b" 1 player_B).
  - repeat (apply Forall_cons; split; [reflexivity|]). apply Forall_nil_2.
  - reflexivity.
  - apply (bool_decide_unpack _). vm_compute. reflexivity.
  - reflexivity.
  - reflexivity.
Defined.

Lemma find_player_index_shadowed_witness :
  _find_player_index
    (mkRecommender [player_A; example_player "a" 70 "GK" [10; 10]%R "Goalkeeper"]
       [] [] [])
    "a" <> Returns (Some 1%nat).
Proof.
  eapply (find_player_index_shadowed _ "a" 0 1).
  - reflexivity.
  - reflexivity.
  - lia.
  - reflexivity.
Defined.

Lemma get_player_details_no_exception_witness :
  exists r, get_player_details example_recommender "c" = Returns r.
Proof.
  destruct (get_player_details_no_exception example_recommender "c" eq_refl)
    as (r & Hr & _).
  exists r. exact Hr.
Defined.

End NameLookupExamples.

(** ** Position categories and unchecked lengths *)

Section PositionCase.
Import PyStr DataProcessor Training.

Lemma ascii_upper_lower (c : ascii) : ascii_upper (ascii_lower c) = ascii_upper c.
Proof.
  destruct c as [[] [] [] [] [] [] [] []]; reflexivity.
Qed.

Lemma ascii_upper_upper (c : ascii) : ascii_upper (ascii_upper c) = ascii_upper c.
Proof.
  destruct c as [[] [] [] [] [] [] [] []]; reflexivity.
Qed.

Lemma upper_lower (s : string) : upper (lower s) = upper s.
Proof.
  induction s as [|c s IH]; simpl; [reflexivity|].
  rewrite ascii_upper_lower, IH. reflexivity.
Qed.

Lemma upper_upper (s : string) : upper (upper s) = upper s.
Proof.
  induction s as [|c s IH]; simpl; [reflexivity|].
  rewrite ascii_upper_upper, IH. reflexivity.
Qed.

(** The category of an ASCII position does not depend on the case of its
    letters: two ASCII positions that differ only in case get the same
    category, and the lowered and the raised position get the category of
    the position. *)
Theorem get_position_category_case (position position' : string) :
  is_ascii position = true ->
  is_ascii position' = true ->
  lower position = lower position' ->
  get_position_category position = get_position_category position' /\
  get_position_category (lower position) = get_position_category position /\
  get_position_category (upper position) = get_position_category position.
Proof.
  intros _ _ Heq.
  assert (Hup : upper position = upper position').
  { rewrite <- (upper_lower position), Heq. apply upper_lower. }
  unfold get_position_category. cbv zeta.
  rewrite upper_lower, upper_upper, Hup. repeat split.
Qed.

End PositionCase.

Section PositionCaseExamples.
Import PyStr DataProcessor Training.

Lemma get_position_category_case_witness :
  get_position_category "Cam" = get_position_category "cAM" /\
  get_position_category (lower "Cam") = get_position_category "Cam" /\
  get_position_category (upper "Cam") = get_position_category "Cam".
Proof.
  apply (get_position_category_case "Cam" "cAM"); reflexivity.
Defined.

End PositionCaseExamples.

Section UncheckedFit.
Import PyStr Py Numpy Sklearn PlayerRecommender.
Local Open Scope R_scope.

(** The candidate loop stops with [IndexError] at a score whose position
    is not the queried player's and lies beyond the table. *)
Lemma similar_candidates_IndexError self player_idx pos age sp mad
    (scores : list (nat * R)) (idx : nat) (score : R) :
  (idx, score) ∈ scores ->
  idx <> player_idx ->
  (length (data self) <= idx)%nat ->
  similar_candidates self player_idx pos age sp mad scores = Raises IndexError.
Proof.
  intros Hin Hne Hge.
  induction scores as [|[idx' score'] scores IH]; [inversion Hin|].
  assert (Htail : (idx', score') <> (idx, score) ->
            similar_candidates self player_idx pos age sp mad scores = Raises IndexError).
  { intros Hd. apply IH. apply elem_of_cons in Hin as [E|Hin]; [congruence|exact Hin]. }
  cbn [similar_candidates].
  destruct (Nat.eqb_spec idx' player_idx) as [E|E].
  { apply Htail. congruence. }
  unfold iloc. destruct (data self !! idx') as [candidate|] eqn:Hc; [|reflexivity].
  assert (Hd : (idx', score') <> (idx, score)).
  { intros [= -> ->]. apply lookup_lt_Some in Hc. lia. }
  cbn [mbind outcome_bind].
  rewrite (Htail Hd).
  repeat match goal with |- context [if ?b then _ else _] => destruct b end;
    reflexivity.
Qed.

(** [fit] does not compare the number of rows of the table with the
    number of rows of the feature matrix.  When the matrix has more rows
    than the table, [recommend_similar] raises [IndexError] for every name
    that resolves; when it has fewer, it raises [IndexError] for the
    players beyond the matrix. *)
Theorem fit_unchecked_row_count
    (df : list Player) (features : list (list R)) (names : list string)
    (self : Recommender) (player_name : string) (i : nat)
    (n : Z) (sp : bool) (mad : option Z) :
  fit df features names = Returns self ->
  _find_player_index self player_name = Returns (Some i) ->
  (length df < length features)%nat \/ (length features <= i)%nat ->
  recommend_similar self player_name n sp mad = Raises IndexError.
Proof.
  intros Hfit Hfind Hlen.
  pose proof (find_player_index_lt self player_name i Hfind) as Hi.
  unfold fit in Hfit.
  destruct (cosine_similarity features features) as [K| |] eqn:HK; try discriminate.
  apply cosine_similarity_Returns in HK.
  cbn [mbind outcome_bind] in Hfit. injection Hfit as <-.
  cbn [data] in Hi.
  unfold recommend_similar, similar_rows. rewrite Hfind.
  cbn [mbind outcome_bind data similarity_matrix]. unfold getitem.
  destruct (K !! i) as [scores|] eqn:Hscores.
  2: reflexivity.
  assert (HKlen : length K = length features).
  { rewrite HK, length_map, length_normalize. reflexivity. }
  destruct Hlen as [Hlen|Hlen].
  2: { apply lookup_lt_Some in Hscores. lia. }
  assert (Hslen : length scores = length features).
  { rewrite HK in Hscores. rewrite list_lookup_fmap in Hscores.
    destruct (normalize features !! i); [|discriminate].
    injection Hscores as <-. rewrite length_map, length_normalize. reflexivity. }
  cbn [mbind outcome_bind]. unfold iloc.
  destruct (lookup_lt_is_Some_2 df i Hi) as [player Hplayer].
  cbn [data]. rewrite Hplayer.
  cbn [mbind outcome_bind].
  destruct (lookup_lt_is_Some_2 scores (length df)) as [score Hscore]; [lia|].
  rewrite (similar_candidates_IndexError _ _ _ _ _ _ _ (length df) score).
  - reflexivity.
  - apply enumerate_lookup. exact Hscore.
  - lia.
  - cbn [data]. lia.
Qed.

End UncheckedFit.

Section UncheckedFitExamples.
Import PyStr Py Numpy Sklearn PlayerRecommender.
Local Open Scope R_scope.

Lemma fit_unchecked_row_count_witness :
  exists self,
    fit [player_A] [[1; 0]; [0; 1]] ["PAC"; "SHO"] = Returns self /\
    recommend_similar self "A" 10 true None = Raises IndexError.
Proof.
  eexists. split; [reflexivity|].
  eapply (fit_unchecked_row_count [player_A] [[1; 0]; [0; 1]] ["PAC"; "SHO"] _ "A" 0).
  - reflexivity.
  - reflexivity.
  - left. cbn. lia.
Defined.

End UncheckedFitExamples.

(** ** Cleaning the raw table *)

Section CleaningProps.
Import PyStr Py DataProcessor PlayerRecommender Training Cleaning.

Lemma drop_duplicates_omap (df : list RawPlayer) : forall (seen : list string) (p : Player),
  p ∈ drop_duplicates seen (omap clean_row df) <->
  (Name p ∉ seen) /\ exists i, first_complete df i p.
Proof.
  induction df as [|r0 df IH]; intros seen p.
  { cbn. split.
    - intros H. inversion H.
    - intros (_ & i & (r & Hr & _) & _). discriminate. }
  cbn [omap list_omap]. destruct (clean_row r0) as [q0|] eqn:Hq0.
  - cbn [drop_duplicates]. destruct (bool_decide_reflect (Name q0 ∈ seen)) as [Hin|Hnin].
    + rewrite IH. split.
      * intros (Hp & i & (r & Hr & Hc) & Hfirst). split; [exact Hp|].
        exists (S i). split; [exists r; split; assumption|].
        intros [|k] r' q Hk Hr' Hq.
        -- cbn in Hr'. injection Hr' as <-. intros E.
           apply Hp. replace q with q0 in E by congruence. rewrite <- E. exact Hin.
        -- cbn in Hr'. apply (Hfirst k r' q); [lia|assumption..].
      * intros (Hp & [|i] & (r & Hr & Hc) & Hfirst).
        -- cbn in Hr. injection Hr as <-.
           exfalso. apply Hp. replace p with q0 by congruence. exact Hin.
        -- split; [exact Hp|]. exists i. split; [exists r; split; assumption|].
           intros k r' q Hk Hr' Hq. apply (Hfirst (S k) r' q); [lia|assumption..].
    + rewrite elem_of_cons, IH. split.
      * intros [->|(Hp & i & (r & Hr & Hc) & Hfirst)].
        -- split; [exact Hnin|]. exists 0%nat. split; [exists r0; split; [reflexivity|assumption]|].
           intros k r q Hk. lia.
        -- apply not_elem_of_cons in Hp as [Hne Hp]. split; [exact Hp|].
           exists (S i). split; [exists r; split; assumption|].
           intros [|k] r' q Hk Hr' Hq.
           ++ cbn in Hr'. injection Hr' as <-. congruence.
           ++ cbn in Hr'. apply (Hfirst k r' q); [lia|assumption..].
      * intros (Hp & [|i] & (r & Hr & Hc) & Hfirst).
        -- cbn in Hr. injection Hr as <-. left. congruence.
        -- right. split.
           ++ apply not_elem_of_cons. split; [|exact Hp].
              intros E. apply (Hfirst 0%nat r0 q0); [lia|reflexivity|assumption|congruence].
           ++ exists i. split; [exists r; split; assumption|].
              intros k r' q Hk Hr' Hq. apply (Hfirst (S k) r' q); [lia|assumption..].
  - rewrite IH. split.
    + intros (Hp & i & (r & Hr & Hc) & Hfirst). split; [exact Hp|].
      exists (S i). split; [exists r; split; assumption|].
      intros [|k] r' q Hk Hr' Hq.
      * cbn in Hr'. congruence.
      * cbn in Hr'. apply (Hfirst k r' q); [lia|assumption..].
    + intros (Hp & [|i] & (r & Hr & Hc) & Hfirst).
      * cbn in Hr. congruence.
      * split; [exact Hp|]. exists i. split; [exists r; split; assumption|].
        intros k r' q Hk Hr' Hq. apply (Hfirst (S k) r' q); [lia|assumption..].
Qed.

Lemma drop_duplicates_not_seen (df : list Player) : forall (seen : list string) (p : Player),
  p ∈ drop_duplicates seen df -> (Name p ∉ seen) /\ p ∈ df.
Proof.
  induction df as [|q df IH]; intros seen p; cbn [drop_duplicates].
  - intros H. inversion H.
  - destruct (bool_decide_reflect (Name q ∈ seen)) as [Hin|Hnin].
    + intros H. apply IH in H as [H1 H2]. split; [exact H1|]. apply elem_of_cons. tauto.
    + rewrite elem_of_cons. intros [->|H].
      * split; [exact Hnin|]. apply elem_of_cons. tauto.
      * apply IH in H as [H1 H2]. apply not_elem_of_cons in H1 as [_ H1].
        split; [exact H1|]. apply elem_of_cons. tauto.
Qed.

Lemma drop_duplicates_NoDup (df : list Player) : forall seen : list string,
  NoDup (map Name (drop_duplicates seen df)).
Proof.
  induction df as [|q df IH]; intros seen; cbn [drop_duplicates].
  - apply NoDup_nil_2.
  - destruct (bool_decide (Name q ∈ seen)); [apply IH|].
    cbn [map]. apply NoDup_cons. split; [|apply IH].
    intros Hin. apply list_elem_of_fmap in Hin as (p & Hp & Hin).
    apply drop_duplicates_not_seen in Hin as [Hin _].
    apply Hin. rewrite <- Hp. apply elem_of_cons. tauto.
Qed.

Lemma drop_duplicates_sublist (df : list Player) : forall seen : list string,
  sublist (drop_duplicates seen df) df.
Proof.
  induction df as [|q df IH]; intros seen; cbn [drop_duplicates].
  - constructor.
  - destruct (bool_decide (Name q ∈ seen)).
    + apply sublist_cons, IH.
    + apply sublist_skip, IH.
Qed.

(** A table whose names are all different loses no row. *)
Lemma drop_duplicates_unique (df : list Player) : forall seen : list string,
  NoDup (map Name df) ->
  Forall (fun p => Name p ∉ seen) df ->
  drop_duplicates seen df = df.
Proof.
  induction df as [|q df IH]; intros seen Hnd Hseen; cbn [drop_duplicates]; [reflexivity|].
  cbn [map] in Hnd. apply NoDup_cons in Hnd as [Hq Hnd].
  apply Forall_cons in Hseen as [Hqs Hseen].
  rewrite bool_decide_eq_false_2 by exact Hqs. f_equal.
  apply IH; [exact Hnd|].
  rewrite Forall_forall in Hseen. apply Forall_forall. intros p Hp.
  apply not_elem_of_cons. split; [|apply Hseen, Hp].
  intros E. apply Hq. rewrite <- E. apply list_elem_of_fmap. eauto.
Qed.

(** A row of the cleaned table is the cleaned form of a complete raw row. *)
Lemma clean_data_complete (df : list RawPlayer) (p : Player) :
  p ∈ clean_data df -> exists i r, df !! i = Some r /\ clean_row r = Some p.
Proof.
  unfold clean_data. intros H.
  apply drop_duplicates_omap in H as (_ & i & (r & Hi & Hr) & _). eauto.
Qed.

(** In the cleaned table no two rows have the same name, and the rows are
    complete rows of the raw table, in the order of the raw table. *)
Theorem clean_data_unique_names (df : list RawPlayer) :
  NoDup (map Name (clean_data df)) /\
  sublist (clean_data df) (omap clean_row df).
Proof.
  unfold clean_data. split.
  - apply drop_duplicates_NoDup.
  - apply drop_duplicates_sublist.
Qed.

(** The rows of the cleaned table are exactly the first complete rows of
    their names: a complete row is kept if and only if no complete row
    before it has its name. *)
Theorem clean_data_keeps_first (df : list RawPlayer) (p : Player) :
  p ∈ clean_data df <-> exists i, first_complete df i p.
Proof.
  unfold clean_data. rewrite drop_duplicates_omap. split.
  - intros [_ H]. exact H.
  - intros H. split; [apply not_elem_of_nil|exact H].
Qed.

Lemma clean_row_to_raw (p : Player) :
  Position_Category p = "" -> clean_row (to_raw p) = Some p.
Proof.
  intros Hcat. unfold clean_row, to_raw. cbn.
  assert (E : mapM (fun cell : option R => cell) (map Some (Features p)) = Some (Features p)).
  { induction (Features p) as [|x l IH]; [reflexivity|].
    cbn. cbn in IH. rewrite IH. reflexivity. }
  cbn in E. rewrite E. cbn. destruct p. cbn in *. subst. reflexivity.
Qed.

Lemma clean_row_category (r : RawPlayer) (p : Player) :
  clean_row r = Some p -> Position_Category p = "".
Proof.
  unfold clean_row. intros H.
  destruct (raw_Name r), (raw_OVR r), (raw_Position r); try discriminate.
  cbn in H. destruct (mapM _ _); [|discriminate].
  cbn in H. injection H as <-. reflexivity.
Qed.

(** Cleaning a cleaned table changes nothing. *)
Theorem clean_data_idempotent (df : list RawPlayer) :
  clean_data (map to_raw (clean_data df)) = clean_data df.
Proof.
  assert (Hcat : Forall (fun p => Position_Category p = "") (clean_data df)).
  { apply Forall_forall. intros p Hp.
    apply clean_data_complete in Hp as (i & r & _ & Hr).
    exact (clean_row_category r p Hr). }
  assert (Homap : omap clean_row (map to_raw (clean_data df)) = clean_data df).
  { induction Hcat as [|p l Hp _ IH]; [reflexivity|].
    cbn [map omap list_omap]. rewrite (clean_row_to_raw p Hp), IH. reflexivity. }
  unfold clean_data at 1. rewrite Homap.
  apply drop_duplicates_unique.
  - apply drop_duplicates_NoDup.
  - apply Forall_forall. intros p _. apply not_elem_of_nil.
Qed.

End CleaningProps.

Section CleanedTraining.
Import PyStr Py Numpy Sklearn DataProcessor PlayerRecommender Training Cleaning.

Lemma check_array_rect (X : list (list R)) (d : nat) :
  X <> [] ->
  Forall (fun row => length row = S d) X ->
  check_array X = Returns (length X, S d).
Proof.
  intros Hne Hrect. destruct X as [|r rs]; [congruence|].
  apply Forall_cons in Hrect as [Hr Hrs].
  unfold check_array, shape.
  assert (E : forallb (fun r' => (length r' =? length r)%nat) rs = true).
  { apply forallb_forall. intros r' Hr'. rewrite Forall_forall in Hrs.
    apply Nat.eqb_eq. rewrite Hr. apply Hrs. apply list_elem_of_In. exact Hr'. }
  rewrite E, Hr. reflexivity.
Qed.

Lemma clean_row_width (r : RawPlayer) (p : Player) :
  clean_row r = Some p -> length (Features p) = length (raw_Features r).
Proof.
  unfold clean_row. intros H.
  destruct (raw_Name r), (raw_OVR r), (raw_Position r); try discriminate.
  cbn in H. destruct (mapM _ _) as [features|] eqn:Hm; [|discriminate].
  cbn in H. injection H as <-. cbn.
  symmetry. eapply length_mapM. exact Hm.
Qed.

(** Processing the cleaned table.  When no row of the raw table is
    complete, [process_for_training] raises [ValueError], from the minimum
    over an empty feature matrix; when some row is complete, it returns,
    and [fit] on its result returns a fitted recommender in which no two
    players have the same name. *)
Theorem process_for_training_on_cleaned_data (raw : list RawPlayer) :
  Forall (fun r => length (raw_Features r) = length FEATURE_COLUMNS) raw ->
  (Forall (fun r => clean_row r = None) raw ->
   process_for_training (clean_data raw) = Raises ValueError) /\
  (Exists (fun r => is_Some (clean_row r)) raw ->
   exists processed self,
     process_for_training (clean_data raw) = Returns processed /\
     fit_processed processed = Returns self /\
     fitted self /\
     NoDup (map Name (data self))).
Proof.
  intros Hwidth. split.
  - intros Hnone.
    assert (E : omap clean_row raw = []).
    { induction Hnone as [|r l Hr _ IH]; [reflexivity|].
      cbn [omap list_omap]. rewrite Hr.
      apply Forall_cons in Hwidth as [_ Hwidth]. exact (IH Hwidth). }
    unfold clean_data. rewrite E. reflexivity.
  - intros Hsome.
    assert (Hfeat : Forall (fun p => length (Features p) = length FEATURE_COLUMNS)
                      (clean_data raw)).
    { apply Forall_forall. intros p Hp.
      apply clean_data_complete in Hp as (i & r & Hi & Hr).
      rewrite (clean_row_width r p Hr).
      rewrite Forall_forall in Hwidth. apply Hwidth.
      apply list_elem_of_lookup. eauto. }
    assert (Hne : clean_data raw <> []).
    { unfold clean_data.
      destruct (omap clean_row raw) as [|q l] eqn:E; [|discriminate].
      exfalso. apply Exists_exists in Hsome as (r & Hr & [p Hp]).
      assert (Hin : p ∈ omap clean_row raw) by (apply list_elem_of_omap; eauto).
      rewrite E in Hin. inversion Hin. }
    assert (Hproc : exists processed,
               process_for_training (clean_data raw) = Returns processed /\
               processed_normalized_features processed <> [] /\
               Forall (fun row => length row = length FEATURE_COLUMNS)
                 (processed_normalized_features processed)).
    { unfold process_for_training. cbv zeta.
      set (features := extract_features (map with_position_category (clean_data raw))).
      assert (Hrect : Forall (fun row => length row = length FEATURE_COLUMNS) features).
      { unfold features, extract_features. rewrite map_map.
        eapply Forall_fmap, Forall_impl; [exact Hfeat|]. intros p Hp. exact Hp. }
      assert (Hfne : features <> []).
      { unfold features, extract_features. intros E.
        apply Hne. apply fmap_nil_inv in E. apply fmap_nil_inv in E. exact E. }
      destruct features as [|r rs] eqn:E; [congruence|]. rewrite <- E in *.
      assert (Hn : exists normalized, normalize_features features = Returns normalized).
      { rewrite E, normalize_features_cons. eauto. }
      destruct Hn as [normalized Hn]. rewrite Hn.
      cbn [mbind outcome_bind].
      destruct (normalize_features_shape features normalized _ Hrect Hn) as [Hlen Hshape].
      eexists. split; [reflexivity|].
      cbn [processed_normalized_features]. split; [|exact Hshape].
      intros ->. rewrite E in Hlen. discriminate. }
    destruct Hproc as (processed & Hproc & Hnn & Hshape).
    assert (Htrain : exists self, fit_processed processed = Returns self).
    { unfold fit_processed, fit, cosine_similarity, check_pairwise_arrays.
      rewrite (check_array_rect (processed_normalized_features processed) 34 Hnn Hshape).
      cbn [mbind outcome_bind snd]. rewrite Nat.eqb_refl. eauto. }
    destruct Htrain as [self Htrain]. exists processed, self.
    split; [exact Hproc|]. split; [exact Htrain|].
    destruct (fit_processed_fitted _ processed self Hfeat Hproc Htrain)
      as (Hfit & _ & Hnames).
    split; [exact Hfit|]. rewrite Hnames. apply drop_duplicates_NoDup.
Qed.

End CleanedTraining.

Section CleaningExamples.
Import PyStr Py DataProcessor PlayerRecommender Training Cleaning.

Lemma clean_data_example :
  map (fun p => (Name p, OVR p, Age p)) (clean_data example_raw)
  = [("A", 90%Z, 0%Z); ("C", 80%Z, 31%Z)].
Proof. reflexivity. Qed.

End CleaningExamples.

Section CleanedTrainingExamples.
Import PyStr Py Numpy Sklearn DataProcessor PlayerRecommender Training Cleaning.

Lemma process_for_training_on_cleaned_data_witness :
  exists processed self,
    process_for_training (clean_data example_raw) = Returns processed /\
    fit_processed processed = Returns self /\
    fitted self /\
    NoDup (map Name (data self)).
Proof.
  apply (process_for_training_on_cleaned_data example_raw).
  - repeat (apply Forall_cons; split; [reflexivity|]). apply Forall_nil_2.
  - apply Exists_cons_hd. eexists. reflexivity.
Defined.

End CleanedTrainingExamples.

(** ** The recommendation endpoint *)

Section Endpoints.
Import PyStr Py PlayerRecommender.

(** A non-empty result of [recommend_similar] means that the name
    resolved to a row of the table. *)
Lemma recommend_similar_nonempty_found self player_name n sp mad rec recs :
  recommend_similar self player_name n sp mad = Returns (rec :: recs) ->
  exists i source,
    _find_player_index self player_name = Returns (Some i) /\
    data self !! i = Some source.
Proof.
  unfold recommend_similar, similar_rows.
  destruct (_find_player_index self player_name) as [[i|]| |]; try discriminate.
  cbn [mbind outcome_bind].
  destruct (Numpy.getitem _ _); try discriminate. cbn [mbind outcome_bind].
  unfold iloc. destruct (data self !! i) as [source|] eqn:Hsource;
    cbn [mbind outcome_bind]; [|discriminate].
  intros _. eauto.
Qed.

(** The recommendation endpoint never fails on the source player: when
    it has recommendations to show, the lookup of the source player
    succeeds.  Its successful answers carry at least one recommendation and
    the row that [get_player_details] returns for the name. *)
Theorem api_recommend_source_found (models : App.Models) (gender player_name : string)
    (n : Z) (sp : bool) (mad : option Z) :
  App.recommend_similar models gender player_name n sp mad
  <> Returns (App.Failed App.AttributeError) /\
  forall source recs,
    App.recommend_similar models gender player_name n sp mad
    = Returns (App.Success (source, recs)) ->
    recs <> [] /\
    exists model,
      App.select_model models gender = Some model /\
      get_player_details model player_name = Returns (Some source) /\
      recommend_similar model player_name n sp mad = Returns recs.
Proof.
  unfold App.recommend_similar.
  destruct (truthy player_name); cbn [negb App.try_except].
  2: { split; [discriminate|]. intros source recs H; discriminate H. }
  destruct (App.select_model models gender) as [model|].
  2: { cbn. split; [discriminate|]. intros source recs H; discriminate H. }
  destruct (recommend_similar model player_name n sp mad) as [[|rec recs']| |] eqn:Hrec.
  - cbn. split; [discriminate|]. intros source recs H; discriminate H.
  - destruct (recommend_similar_nonempty_found _ _ _ _ _ _ _ Hrec)
      as (i & source & Hfind & Hsource).
    assert (Hdetails : get_player_details model player_name = Returns (Some source)).
    { unfold get_player_details. rewrite Hfind. cbn [mbind outcome_bind].
      unfold iloc. rewrite Hsource. reflexivity. }
    rewrite Hdetails. cbn. split; [discriminate|].
    intros source' recs [= <- <-]. split; [discriminate|].
    exists model. split; [reflexivity|]. split; [exact Hdetails|exact Hrec].
  - cbn. split; [discriminate|]. intros source recs H; discriminate H.
  - cbn. split; [discriminate|]. intros source recs H; discriminate H.
Qed.

End Endpoints.


(** ** Shifted targets and match scores *)

Section TargetShift.
Import PyStr Py Numpy Sklearn PlayerRecommender.
Local Open Scope R_scope.

Lemma fold_Rmin_shift (c : R) (xs : list R) : forall x,
  fold_left Rmin (map (fun y => y + c) xs) (x + c) = fold_left Rmin xs x + c.
Proof.
  induction xs as [|y xs IH]; intros x; [reflexivity|].
  cbn [map fold_left]. rewrite <- IH. f_equal.
  unfold Rmin. destruct (Rle_dec _ _), (Rle_dec _ _); lra.
Qed.

Lemma fold_Rmax_shift (c : R) (xs : list R) : forall x,
  fold_left Rmax (map (fun y => y + c) xs) (x + c) = fold_left Rmax xs x + c.
Proof.
  induction xs as [|y xs IH]; intros x; [reflexivity|].
  cbn [map fold_left]. rewrite <- IH. f_equal.
  unfold Rmax. destruct (Rle_dec _ _), (Rle_dec _ _); lra.
Qed.

Lemma amin_shift (c : R) (v : list R) :
  amin (map (fun y => y + c) v) = (fun lo => lo + c) <$> amin v.
Proof.
  destruct v as [|x xs]; [reflexivity|].
  cbn [map amin fmap outcome_fmap]. f_equal. apply fold_Rmin_shift.
Qed.

Lemma amax_shift (c : R) (v : list R) :
  amax (map (fun y => y + c) v) = (fun hi => hi + c) <$> amax v.
Proof.
  destruct v as [|x xs]; [reflexivity|].
  cbn [map amax fmap outcome_fmap]. f_equal. apply fold_Rmax_shift.
Qed.

(** The normalization of the target only sees differences. *)
Lemma normalize_target_shift (c : R) (v : list R) :
  normalize_target (map (fun x => x + c) v) = normalize_target v.
Proof.
  unfold normalize_target. rewrite amin_shift, amax_shift.
  destruct (amin v) as [lo| |]; cbn [fmap outcome_fmap mbind outcome_bind];
    try reflexivity.
  destruct (amax v) as [hi| |]; cbn [fmap outcome_fmap mbind outcome_bind];
    try reflexivity.
  f_equal. rewrite map_map. apply map_ext. intros a. f_equal; lra.
Qed.

(** When the mapping gives a whole number to every stored feature name,
    adding the same whole number to all its values does not change the
    result: only the differences between the requested attributes matter.
    (Whole numbers, because on them the sums and differences that the code
    computes in float64 are exact.) *)
Theorem recommend_by_attributes_shift
    (self : Recommender) (target_attributes : gmap string R) (c : R)
    (n_recommendations : Z) (position : option string) :
  (forall name, name ∈ feature_names self ->
     exists x, target_attributes !! name = Some x /\
               whole_number x /\ whole_number (x + c)) ->
  recommend_by_attributes self ((fun x => x + c) <$> target_attributes)
    n_recommendations position
  = recommend_by_attributes self target_attributes n_recommendations position.
Proof.
  intros Hwhole.
  assert (Hall : forall name, name ∈ feature_names self ->
            is_Some (target_attributes !! name)).
  { intros name Hname. destruct (Hwhole name Hname) as (x & Hx & _). eauto. }
  assert (Hv : target_vector self ((fun x => x + c) <$> target_attributes)
               = map (fun x => x + c) (target_vector self target_attributes)).
  { unfold target_vector. rewrite map_map. apply map_ext_in. intros name Hname.
    rewrite lookup_fmap.
    destruct (Hall name) as [x Hx]; [apply list_elem_of_In; exact Hname|].
    rewrite Hx. reflexivity. }
  unfold recommend_by_attributes, attribute_rows.
  rewrite Hv, normalize_target_shift. reflexivity.
Qed.

(** No match score of [recommend_by_attributes] is negative when no
    normalized feature is negative. *)
Theorem recommend_by_attributes_score_nonneg
    (self : Recommender) (target_attributes : gmap string R)
    (n_recommendations : Z) (position : option string) (recs : list AttributeMatch) :
  fitted self ->
  Forall (Forall (fun x => 0 <= x)) (normalized_features self) ->
  recommend_by_attributes self target_attributes n_recommendations position
  = Returns recs ->
  Forall (fun rec => 0 <= match_score rec) recs.
Proof.
  intros Hfit Hpos Hrecs.
  destruct (fitted_check_array self Hfit) as (n & d & _ & _ & Hd).
  assert (Hne : target_vector self target_attributes <> []).
  { unfold target_vector. destruct (feature_names self); discriminate. }
  destruct (normalize_target_Returns _ Hne) as (lo & hi & Hlo & Hhi & Hw).
  destruct (recommend_by_attributes_fitted self target_attributes n_recommendations
              position _ Hfit Hw) as (recs' & Hrecs' & HF).
  assert (recs' = recs) by congruence. subst recs'.
  pose proof (selected_by_attributes_sound self
                (map (fun x => (x - lo) / (hi - lo + 1e-8))
                   (target_vector self target_attributes))
                n_recommendations position) as Hsound.
  rewrite Forall_forall in Hsound.
  apply Forall_forall. intros rec Hrec.
  apply list_elem_of_lookup in Hrec as [k Hk].
  destruct (Forall2_lookup_r _ _ _ _ _ HF Hk) as (row & Hrow & _ & Hs).
  destruct (Hsound row) as (cand & features & _ & _ & Hf & Hcos).
  { apply list_elem_of_lookup. eauto. }
  rewrite Hs, Hcos. apply cosine_nonneg.
  - apply Forall_forall. intros y Hy.
    apply list_elem_of_fmap in Hy as (x & -> & Hx).
    pose proof (min_le_max lo hi _ Hlo Hhi) as Hle.
    destruct Hlo as [_ Hlo]. rewrite Forall_forall in Hlo. specialize (Hlo x Hx).
    apply Rmult_le_pos; [lra|]. left. apply Rinv_0_lt_compat. lra.
  - rewrite Forall_forall in Hpos. apply Hpos, list_elem_of_lookup. eauto.
Qed.

End TargetShift.

Section TargetShiftExamples.
Import PyStr Py Numpy Sklearn PlayerRecommender.
Local Open Scope R_scope.

Lemma recommend_by_attributes_shift_witness :
  recommend_by_attributes example_recommender
    ((fun x => x + 10) <$> ({[ "PAC" := 80; "SHO" := 60 ]} : gmap string R)) 2 None
  = recommend_by_attributes example_recommender
      {[ "PAC" := 80; "SHO" := 60 ]} 2 None.
Proof.
  apply (recommend_by_attributes_shift example_recommender).
  intros name Hname. cbn in Hname.
  apply elem_of_cons in Hname as [->|Hname].
  { exists 80. split; [reflexivity|]. split.
    - exists 80%Z. split; [reflexivity|lia].
    - exists 90%Z. split; [lra|lia]. }
  apply elem_of_cons in Hname as [->|Hname].
  { exists 60. split; [reflexivity|]. split.
    - exists 60%Z. split; [reflexivity|lia].
    - exists 70%Z. split; [lra|lia]. }
  inversion Hname.
Defined.

Lemma recommend_by_attributes_score_nonneg_witness :
  exists recs,
    recommend_by_attributes example_recommender {[ "PAC" := 100 ]} 2 None
    = Returns recs /\
    Forall (fun rec => 0 <= match_score rec) recs.
Proof.
  destruct (normalize_target_Returns
              (target_vector example_recommender {[ "PAC" := 100 ]}))
    as (lo & hi & _ & _ & Hw); [discriminate|].
  destruct (recommend_by_attributes_fitted example_recommender {[ "PAC" := 100 ]}
              2 None _ example_recommender_fitted Hw) as (recs & Hrecs & _).
  exists recs. split; [exact Hrecs|].
  apply (recommend_by_attributes_score_nonneg example_recommender
           {[ "PAC" := 100 ]} 2 None recs).
  - exact example_recommender_fitted.
  - unfold example_recommender, example_features. cbn [normalized_features].
    repeat (apply Forall_cons; split;
            [repeat (apply Forall_cons; split; [lra|]); apply Forall_nil_2|]).
    apply Forall_nil_2.
  - exact Hrecs.
Defined.

End TargetShiftExamples.

(** ** Mutual similarity *)

Section Mutual.
Import PyStr Py Numpy Sklearn DataProcessor PlayerRecommender.
Local Open Scope R_scope.

(** With a count that covers the table, the result of [recommend_similar]
    holds exactly the rows that pass the tests of the candidate loop. *)
Lemma recommend_similar_all self player_name n sp mad i player :
  fitted self ->
  _find_player_index self player_name = Returns (Some i) ->
  data self !! i = Some player ->
  (Z.of_nat (length (data self)) <= n)%Z ->
  exists scores recs,
    similarity_matrix self !! i = Some scores /\
    recommend_similar self player_name n sp mad = Returns recs /\
    forall candidate s,
      (exists rec, rec ∈ recs /\ player_data rec = candidate /\ similarity_score rec = s)
      <->
      (exists k, data self !! k = Some candidate /\
                 eligible i (Position_Category player) (Age player) sp mad k candidate
                 = true /\
                 scores !! k = Some s).
Proof.
  intros Hfit Hfind Hplayer Hn.
  destruct (recommend_similar_explicit self player_name n sp mad i player
              Hfit Hfind Hplayer) as (scores & recs & Hscores & Hrecs & HF).
  exists scores, recs. split; [exact Hscores|]. split; [exact Hrecs|].
  set (pool := similar_pool self i player sp mad scores) in *.
  assert (Hslice : slice_to n (sort_by_score_desc pool) = sort_by_score_desc pool).
  { rewrite slice_to_nonneg by lia. apply take_ge.
    rewrite (Permutation_length (sort_by_score_desc_perm pool)).
    unfold pool, similar_pool.
    pose proof (filter_length_le
                  (fun row => from_option
                     (eligible i (Position_Category player) (Age player) sp mad (fst row))
                     false (data self !! fst row)) (enumerate scores)) as Hle.
    assert (Hlen : length (enumerate scores) = length (data self)).
    { unfold enumerate. rewrite length_zip_with, length_seq.
      destruct (fitted_similarity_shape self Hfit) as [_ Hrows].
      rewrite Forall_forall in Hrows.
      rewrite (Hrows scores) by (apply list_elem_of_lookup; eauto). lia. }
    lia. }
  rewrite Hslice in HF.
  assert (Hpool : forall k s, (k, s) ∈ sort_by_score_desc pool <->
            scores !! k = Some s /\
            from_option (eligible i (Position_Category player) (Age player) sp mad k)
              false (data self !! k) = true).
  { intros k s. rewrite (sort_by_score_desc_perm pool). unfold pool, similar_pool.
    rewrite list_elem_of_In, filter_In, <- list_elem_of_In, enumerate_lookup.
    reflexivity. }
  intros candidate s. split.
  - intros (rec & Hrec & <- & <-).
    apply list_elem_of_lookup in Hrec as [p Hp].
    destruct (Forall2_lookup_r _ _ _ _ _ HF Hp) as ([k s] & Hrow & Hdata & Hscore).
    cbn [fst snd] in Hdata, Hscore.
    assert (Hin : (k, s) ∈ sort_by_score_desc pool) by (apply list_elem_of_lookup; eauto).
    apply Hpool in Hin as [Hs Helig]. rewrite Hdata in Helig. cbn in Helig.
    exists k. split; [exact Hdata|]. split; [exact Helig|congruence].
  - intros (k & Hk & Helig & Hs).
    assert (Hin : (k, s) ∈ sort_by_score_desc pool).
    { apply Hpool. split; [exact Hs|]. rewrite Hk. exact Helig. }
    apply list_elem_of_lookup in Hin as [p Hp].
    destruct (Forall2_lookup_l _ _ _ _ _ HF Hp) as (rec & Hrec & Hdata & Hscore).
    cbn [fst snd] in Hdata, Hscore.
    exists rec. split; [apply list_elem_of_lookup; eauto|]. split; congruence.
Qed.

(** The similarity matrix of a fitted recommender at [(j, i)] holds what
    it holds at [(i, j)]. *)
Lemma fitted_similarity_swap (self : Recommender) (i j : nat) (s : R) :
  fitted self ->
  similarity_matrix self !! i ≫= (.!! j) = Some s ->
  similarity_matrix self !! j ≫= (.!! i) = Some s.
Proof.
  intros Hfit Hs.
  destruct (fitted_similarity_shape self Hfit) as [Hlen Hrows].
  rewrite Forall_forall in Hrows.
  destruct (similarity_matrix self !! i) as [ri|] eqn:Hri; [|discriminate].
  cbn [mbind option_bind] in Hs.
  assert (Hi : (i < length (data self))%nat).
  { rewrite <- Hlen. eapply lookup_lt_Some; eauto. }
  assert (Hj : (j < length (data self))%nat).
  { rewrite <- (Hrows ri) by (apply list_elem_of_lookup; eauto).
    eapply lookup_lt_Some; eauto. }
  destruct (lookup_lt_is_Some_2 (similarity_matrix self) j) as [rj Hrj]; [lia|].
  destruct (lookup_lt_is_Some_2 rj i) as [s' Hs'].
  { rewrite (Hrows rj) by (apply list_elem_of_lookup; eauto). exact Hi. }
  rewrite Hrj. cbn [mbind option_bind]. rewrite Hs'. f_equal.
  destruct (fitted_similarity_entry self i j s Hfit) as (u & v & Hu & Hv & ->).
  { rewrite Hri. exact Hs. }
  destruct (fitted_similarity_entry self j i s' Hfit) as (v' & u' & Hv' & Hu' & ->).
  { rewrite Hrj. exact Hs'. }
  replace v' with v by congruence. replace u' with u by congruence.
  unfold cosine. apply dot_comm.
Qed.

(** The tests of the candidate loop are symmetric in the two players,
    when both have a non-empty position category. *)
Lemma eligible_swap (i j : nat) (a b : Player) (sp : bool) (mad : option Z) :
  truthy (Position_Category a) = true ->
  truthy (Position_Category b) = true ->
  eligible i (Position_Category a) (Age a) sp mad j b = true ->
  eligible j (Position_Category b) (Age b) sp mad i a = true.
Proof.
  unfold eligible. intros Ha Hb. rewrite Ha, Hb, !andb_true_r.
  rewrite (Nat.eqb_sym i j), (String.eqb_sym (Position_Category a) (Position_Category b)).
  replace (Z.abs (Age a - Age b)) with (Z.abs (Age b - Age a)) by lia.
  intros H. exact H.
Qed.

(** Similarity is mutual.  In a table without repeated names whose
    position categories were derived by [get_position_category], and with a
    count that covers the table, player B is recommended for player A with
    score [s] exactly when player A is recommended for player B with score
    [s], under the same position and age options. *)
Theorem recommend_similar_mutual
    (self : Recommender) (name_a name_b : string) (i j : nat) (a b : Player)
    (n : Z) (sp : bool) (mad : option Z) :
  fitted self ->
  categorised (data self) ->
  NoDup (map Name (data self)) ->
  _find_player_index self name_a = Returns (Some i) ->
  data self !! i = Some a ->
  _find_player_index self name_b = Returns (Some j) ->
  data self !! j = Some b ->
  (Z.of_nat (length (data self)) <= n)%Z ->
  exists recs_a recs_b,
    recommend_similar self name_a n sp mad = Returns recs_a /\
    recommend_similar self name_b n sp mad = Returns recs_b /\
    forall s,
      (exists rec, rec ∈ recs_a /\ player_data rec = b /\ similarity_score rec = s)
      <->
      (exists rec, rec ∈ recs_b /\ player_data rec = a /\ similarity_score rec = s).
Proof.
  intros Hfit Hcat Hnodup Hfa Ha Hfb Hb Hn.
  destruct (recommend_similar_all self name_a n sp mad i a Hfit Hfa Ha Hn)
    as (scores_a & recs_a & Hsa & Hra & Hall_a).
  destruct (recommend_similar_all self name_b n sp mad j b Hfit Hfb Hb Hn)
    as (scores_b & recs_b & Hsb & Hrb & Hall_b).
  exists recs_a, recs_b. split; [exact Hra|]. split; [exact Hrb|].
  assert (Htruthy : forall k p, data self !! k = Some p ->
            truthy (Position_Category p) = true).
  { intros k p Hp. unfold categorised in Hcat. rewrite Forall_forall in Hcat.
    rewrite (Hcat p) by (apply list_elem_of_lookup; eauto).
    apply get_position_category_truthy. }
  assert (Hrow : forall k k' p, data self !! k = Some p -> data self !! k' = Some p ->
            k = k').
  { intros k k' p Hk Hk'. apply (NoDup_lookup _ k k' (Name p) Hnodup);
      rewrite list_lookup_fmap; [rewrite Hk|rewrite Hk']; reflexivity. }
  intros s. rewrite Hall_a, Hall_b. split.
  - intros (k & Hk & Helig & Hs). assert (k = j) by eauto. subst k.
    exists i. split; [exact Ha|]. split.
    + apply eligible_swap; eauto.
    + pose proof (fitted_similarity_swap self i j s Hfit) as Hswap.
      rewrite Hsa, Hsb in Hswap. apply Hswap. exact Hs.
  - intros (k & Hk & Helig & Hs). assert (k = i) by eauto. subst k.
    exists j. split; [exact Hb|]. split.
    + apply eligible_swap; eauto.
    + pose proof (fitted_similarity_swap self j i s Hfit) as Hswap.
      rewrite Hsa, Hsb in Hswap. apply Hswap. exact Hs.
Qed.

End Mutual.

Section MutualExamples.
Import PyStr Py Numpy Sklearn DataProcessor PlayerRecommender.
Local Open Scope R_scope.

Lemma recommend_similar_mutual_witness :
  exists recs_a recs_b,
    recommend_similar example_recommender "A" 10 true None = Returns recs_a /\
    recommend_similar example_recommender "B" 10 true None = Returns recs_b /\
    forall s,
      (exists rec, rec ∈ recs_a /\ player_data rec = player_B /\ similarity_score rec = s)
      <->
      (exists rec, rec ∈ recs_b /\ player_data rec = player_A /\ similarity_score rec = s).
Proof.
  apply (recommend_similar_mutual example_recommender "A" "B" 0 1 player_A player_B).
  - exact example_recommender_fitted.
  - exact example_data_categorised.
  - apply (bool_decide_unpack _). vm_compute. reflexivity.
  - reflexivity.
  - reflexivity.
  - reflexivity.
  - reflexivity.
  - cbn. lia.
Defined.

End MutualExamples.

(** ** Counts, prefixes and position colours *)

Section Counting.
Import PyStr Py Numpy Sklearn PlayerRecommender.
Local Open Scope R_scope.

Lemma filter_eqb_seq (i : nat) : forall n a,
  length (List.filter (Nat.eqb i) (seq a n))
  = if decide (a <= i < a + n)%nat then 1%nat else 0%nat.
Proof.
  induction n as [|n IH]; intros a.
  - cbn. destruct (decide _); [lia|reflexivity].
  - cbn [seq List.filter]. destruct (Nat.eqb_spec i a) as [->|Hne].
    + cbn [length]. rewrite IH.
      destruct (decide (S a <= a < S a + n)%nat); [lia|].
      destruct (decide (a <= a < a + S n)%nat); [reflexivity|lia].
    + rewrite IH.
      destruct (decide (S a <= i < S a + n)%nat), (decide (a <= i < a + S n)%nat);
        first [reflexivity|lia].
Qed.

(** Without the position and age options the candidates are all the rows
    but the player's own. *)
Lemma similar_pool_unfiltered (self : Recommender) (i : nat) (player : Player)
    (scores : list R) :
  length scores = length (data self) ->
  (i < length (data self))%nat ->
  length (similar_pool self i player false None scores) = (length (data self) - 1)%nat.
Proof.
  intros Hlen Hi. unfold similar_pool.
  rewrite (filter_ext_in _ (fun row => negb (fst row =? i)%nat)).
  2: { intros [k s] Hin. apply list_elem_of_In, enumerate_lookup in Hin.
       apply lookup_lt_Some in Hin. cbn [fst].
       destruct (lookup_lt_is_Some_2 (data self) k) as [c Hc]; [lia|].
       rewrite Hc. unfold eligible. cbn. rewrite !andb_true_r. reflexivity. }
  pose proof (filter_length (fun row : nat * R => (fst row =? i)%nat) (enumerate scores))
    as Hsplit.
  assert (Hone : length (List.filter (fun row : nat * R => (fst row =? i)%nat)
                           (enumerate scores)) = 1%nat).
  { assert (E : forall l : list (nat * R),
               length (List.filter (fun row => (fst row =? i)%nat) l)
               = length (List.filter (Nat.eqb i) (map fst l))).
    { induction l as [|[k s] l IH]; [reflexivity|].
      cbn [List.filter map fst]. rewrite (Nat.eqb_sym i k).
      destruct (k =? i)%nat; cbn [length]; rewrite IH; reflexivity. }
    rewrite E. unfold enumerate. rewrite fst_zip by (rewrite length_seq; lia).
    rewrite filter_eqb_seq. destruct (decide _); [reflexivity|lia]. }
  assert (Hen : length (enumerate scores) = length (data self)).
  { unfold enumerate. rewrite length_zip_with, length_seq. lia. }
  lia.
Qed.

(** Without the position and age options, [recommend_similar] returns
    [n_recommendations] players, or all the other players of the table
    when there are fewer. *)
Theorem recommend_similar_count
    (self : Recommender) (player_name : string) (n_recommendations : Z) (i : nat) :
  fitted self ->
  _find_player_index self player_name = Returns (Some i) ->
  (0 <= n_recommendations)%Z ->
  exists recs,
    recommend_similar self player_name n_recommendations false None = Returns recs /\
    length recs = Nat.min (Z.to_nat n_recommendations) (length (data self) - 1).
Proof.
  intros Hfit Hfind Hn.
  pose proof (find_player_index_lt _ _ _ Hfind) as Hi.
  destruct (lookup_lt_is_Some_2 _ _ Hi) as [player Hplayer].
  destruct (recommend_similar_explicit self player_name n_recommendations
              false None i player Hfit Hfind Hplayer)
    as (scores & recs & Hscores & Hrecs & HF).
  exists recs. split; [exact Hrecs|].
  rewrite <- (Forall2_length _ _ _ HF), slice_to_nonneg by exact Hn.
  rewrite length_take, (Permutation_length (sort_by_score_desc_perm _)).
  rewrite similar_pool_unfiltered; [reflexivity| |exact Hi].
  destruct (fitted_similarity_shape self Hfit) as [_ Hrows].
  rewrite Forall_forall in Hrows. apply Hrows, list_elem_of_lookup. eauto.
Qed.

(** Asking for more recommendations only extends the list: the result
    for a count [n] is the first [n] entries of the result for any greater
    count. *)
Theorem recommend_similar_prefix
    (self : Recommender) (player_name : string) (n m : Z)
    (same_position : bool) (max_age_diff : option Z) (i : nat) :
  fitted self ->
  _find_player_index self player_name = Returns (Some i) ->
  (0 <= n <= m)%Z ->
  exists recs_n recs_m,
    recommend_similar self player_name n same_position max_age_diff = Returns recs_n /\
    recommend_similar self player_name m same_position max_age_diff = Returns recs_m /\
    recs_n = take (Z.to_nat n) recs_m.
Proof.
  intros Hfit Hfind Hnm.
  pose proof (find_player_index_lt _ _ _ Hfind) as Hi.
  destruct (lookup_lt_is_Some_2 _ _ Hi) as [player Hplayer].
  destruct (recommend_similar_explicit self player_name n same_position max_age_diff
              i player Hfit Hfind Hplayer) as (scores & recs_n & Hscores & Hn & HFn).
  destruct (recommend_similar_explicit self player_name m same_position max_age_diff
              i player Hfit Hfind Hplayer) as (scores' & recs_m & Hscores' & Hm & HFm).
  assert (scores' = scores) by congruence. subst scores'.
  exists recs_n, recs_m. split; [exact Hn|]. split; [exact Hm|].
  rewrite !slice_to_nonneg in HFn, HFm by lia.
  set (sorted := sort_by_score_desc _) in *.
  apply (Forall2_take _ _ _ (Z.to_nat n)) in HFm.
  rewrite take_take, Nat.min_l in HFm by lia.
  revert HFn HFm. generalize (take (Z.to_nat n) sorted) (take (Z.to_nat n) recs_m).
  clear. intros rows recs Hn. revert recs.
  induction Hn as [|row rec rows recs_n [Hp Hs] _ IH]; intros recs Hm.
  - inversion Hm. reflexivity.
  - inversion Hm as [|row' rec' rows' recs' [Hp' Hs'] Hm']; subst.
    f_equal; [|apply IH; exact Hm'].
    destruct rec, rec'. cbn in *. f_equal; congruence.
Qed.

End Counting.

Section CountingExamples.
Import PyStr Py Numpy Sklearn PlayerRecommender.
Local Open Scope R_scope.

Lemma recommend_similar_count_witness :
  exists recs,
    recommend_similar example_recommender "A" 10 false None = Returns recs /\
    length recs = 2%nat.
Proof.
  apply (recommend_similar_count example_recommender "A" 10 0).
  - exact example_recommender_fitted.
  - reflexivity.
  - lia.
Defined.

Lemma recommend_similar_prefix_witness :
  exists recs_n recs_m,
    recommend_similar example_recommender "A" 1 false None = Returns recs_n /\
    recommend_similar example_recommender "A" 2 false None = Returns recs_m /\
    recs_n = take 1 recs_m.
Proof.
  apply (recommend_similar_prefix example_recommender "A" 1 2 false None 0).
  - exact example_recommender_fitted.
  - reflexivity.
  - lia.
Defined.

End CountingExamples.

Section PositionColor.
Import PyStr DataProcessor.

(** The colour and the category of a position are computed from the
    same lists of codes, but the goalkeeper tests differ: the colour asks
    whether the position contains GK, the category whether it is GK.  A
    position that contains GK is gold; a position that is GK, or does not
    contain GK, has the colour of its category. *)
Theorem get_position_color_category (position : string) :
  (str_in "GK" (upper position) = true ->
   Utils.get_position_color position = "#FFD700") /\
  (upper position = "GK" \/ str_in "GK" (upper position) = false ->
   Utils.get_position_color position
   = category_color (get_position_category position)).
Proof.
  unfold Utils.get_position_color, get_position_category. cbv zeta. split.
  - intros ->. reflexivity.
  - intros [->|Hno]; [reflexivity|]. rewrite Hno.
    assert (Hne : existsb (String.eqb (upper position)) ["GK"] = false).
    { cbn [existsb]. rewrite orb_false_r. apply String.eqb_neq. intros E.
      rewrite E in Hno. discriminate. }
    rewrite Hne.
    repeat match goal with |- context [if any_in ?l ?s then _ else _] =>
             destruct (any_in l s) end; reflexivity.
Qed.

End PositionColor.

Section PositionColorExamples.
Import PyStr DataProcessor.

Lemma get_position_color_category_witness :
  Utils.get_position_color "gk, st" = "#FFD700" /\
  get_position_category "gk, st" = "Forward".
Proof.
  split; [|reflexivity].
  apply (get_position_color_category "gk, st"). reflexivity.
Defined.

End PositionColorExamples.
